(* ================================================================== *)
(** * The room-sublist resizer of matrix-react-sdk

    A shallow embedding of [src/resizer/distributors/roomsublist2.js]
    (classes [Layout], [Handle] and [Distributor] and the helper [clamp])
    and the properties of the layout algorithm that the specification
    states about it.

    Numbers.  A JavaScript number is modelled as an exact rational extended
    with the three special values [+Infinity], [-Infinity] and [NaN]; the
    arithmetic on finite values is exact, where the program rounds to
    doubles, and the sign of zero is not tracked.  The statements below
    are about comparisons, bounds, the special values and the order of
    the steps, or they leave a margin and bound the sizes of the numbers;
    where one names a computed height, it names the expression that the
    program evaluates.

    Objects.  [_sectionHeights] and [_collapsedState] are plain objects
    used as maps from section ids to values.  A property read finds the
    own property first and the members of [Object.prototype] next
    ([read_height], [collapsed_of]), so an id such as ["toString"] reads a
    function where nothing is stored.  A property write stores an own
    property; that a write under the key ["__proto__"] stores nothing is
    not modelled.

    Recursion.  [_applyOverflow] and [_relayout] are given a budget for
    the depth of their recursion.  That the budgets chosen are never used
    up ([budgets_suffice]) rests on the exact arithmetic of the model. *)

From Stdlib Require Import QArith Qabs Lqa ZArith Lia Bool.
From stdpp Require Import gmap strings list fin_maps.


(* ================================================================== *)
(** ** JavaScript numbers and values *)

Inductive num : Type :=
  | Fin (q : Q)
  | PInf
  | NInf
  | NaN.

(** What a property read or an array read can give: [undefined], a
    number, or a value that is neither.  The layout has one source of
    such values: a property read on a plain object finds the members of
    [Object.prototype] under their names.  [Other name []] is the member
    found under [name] (a function; for [__proto__] the prototype itself),
    and [Other name os] the string that [+] has made of it and of the
    numbers [os], appended in this order. *)
Inductive value : Type :=
  | Undefined
  | Num (n : num)
  | Other (name : string) (appended : list num).

(** [ToNumber]: [undefined] becomes [NaN], and so does a function, an
    object, or a string that starts with the text of one. *)
Definition toNumber (v : value) : num :=
  match v with
  | Undefined => NaN
  | Num n => n
  | Other _ _ => NaN
  end.

Definition Qlt_bool (x y : Q) : bool := negb (Qle_bool y x).

Definition num_neg (a : num) : num :=
  match a with
  | Fin x => Fin (- x)
  | PInf => NInf
  | NInf => PInf
  | NaN => NaN
  end.

Definition num_add (a b : num) : num :=
  match a, b with
  | NaN, _ | _, NaN => NaN
  | Fin x, Fin y => Fin (x + y)
  | PInf, NInf | NInf, PInf => NaN
  | PInf, _ | _, PInf => PInf
  | NInf, _ | _, NInf => NInf
  end.

Definition num_sub (a b : num) : num := num_add a (num_neg b).

(** The sign of a number: [Some true] positive, [Some false] negative,
    [None] for zero and [NaN]. *)
Definition num_sign (a : num) : option bool :=
  match a with
  | Fin x => if Qlt_bool 0 x then Some true
             else if Qlt_bool x 0 then Some false else None
  | PInf => Some true
  | NInf => Some false
  | NaN => None
  end.

Definition signed_inf (positive : bool) : num := if positive then PInf else NInf.

(** Division.  A zero divisor is the positive zero (the divisors of the
    program are array lengths). *)
Definition num_div (a b : num) : num :=
  match a, b with
  | NaN, _ | _, NaN => NaN
  | Fin x, Fin y =>
      if Qeq_bool y 0 then
        match num_sign a with
        | Some s => signed_inf s
        | None => NaN
        end
      else Fin (x / y)
  | Fin x, _ => Fin 0
  | _, Fin y =>
      match num_sign a with
      | Some s => signed_inf (if Qlt_bool y 0 then negb s else s)
      | None => NaN
      end
  | _, _ => NaN
  end.

(** [a < b]; every comparison with [NaN] is false. *)
Definition num_lt (a b : num) : bool :=
  match a, b with
  | NaN, _ | _, NaN => false
  | Fin x, Fin y => Qlt_bool x y
  | NInf, NInf => false
  | NInf, _ => true
  | _, NInf => false
  | PInf, _ => false
  | Fin _, PInf => true
  end.

Definition num_gt (a b : num) : bool := num_lt b a.

(** [a == b] (and [a === b]) on numbers. *)
Definition num_eq (a b : num) : bool :=
  match a, b with
  | Fin x, Fin y => Qeq_bool x y
  | PInf, PInf | NInf, NInf => true
  | _, _ => false
  end.

(** [Math.abs] *)
Definition num_abs (a : num) : num :=
  match a with
  | Fin x => Fin (Qabs x)
  | PInf | NInf => PInf
  | NaN => NaN
  end.

(** [Number.isFinite] *)
Definition isFinite (a : num) : bool :=
  match a with
  | Fin _ => true
  | _ => false
  end.

(** JavaScript truthiness of a height: [undefined], [0] and [NaN] are
    falsy; functions, objects and non-empty strings are truthy. *)
Definition truthy (v : value) : bool :=
  match v with
  | Undefined => false
  | Num (Fin x) => negb (Qeq_bool x 0)
  | Num NaN => false
  | Num _ => true
  | Other _ _ => true
  end.

(** [v + o] for a value [v] and a number [o]: the sum of two numbers, or
    the concatenation of two strings when [v] is not a number. *)
Definition js_add (v : value) (o : num) : value :=
  match v with
  | Other name os => Other name (os ++ [o])
  | _ => Num (num_add (toNumber v) o)
  end.

Definition of_Z (z : Z) : num := Fin (inject_Z z).
Definition of_nat (n : nat) : num := of_Z (Z.of_nat n).

(** [Math.abs(x) > 1.0] and [Math.abs(x) < 1.0] *)
Definition abs_gt_1 (x : num) : bool := num_gt (num_abs x) (of_Z 1).
Definition abs_lt_1 (x : num) : bool := num_lt (num_abs x) (of_Z 1).

(* ================================================================== *)
(** ** Arrays indexed by JavaScript integers *)

(** [xs[i]]: a read outside the array gives [None] ([undefined]). *)
Definition array_get {A : Type} (xs : list A) (i : Z) : option A :=
  if (i <? 0)%Z then None else xs !! Z.to_nat i.

(** [xs[i] = v]: a write past the end extends the array, the holes read
    as [undefined]; a negative index is not an array element. *)
Definition array_set (xs : list value) (i : Z) (v : value) : list value :=
  if (i <? 0)%Z then xs
  else
    let n := Z.to_nat i in
    if (n <? length xs)%nat then <[n := v]> xs
    else xs ++ replicate (n - length xs) Undefined ++ [v].

(* ================================================================== *)
(** ** The data model *)

(** [const handleHeight = 1;] *)
Definition handleHeight : Z := 1.

(** [clamp(height, min, max)] *)
Definition clamp (height min max : num) : num :=
  if num_gt height max then max
  else if num_lt height min then min
  else height.

(** [clamp] at an argument that need not be a number: a string that is no
    numeral compares as [NaN] does, so that it is returned as it is. *)
Definition clamp_value (height : value) (min max : num) : value :=
  match height with
  | Num x => Num (clamp x min max)
  | _ => height
  end.

(** An element of the section list: [{id, count}]. *)
Record section : Type := mkSection {
  id : string;
  count : nat;
}.

(** The fields of a [Layout] object.  The callback [_applyHeight] is
    external: the calls made to it are recorded, oldest first. *)
Record Layout : Type := mkLayout {
  _applyHeight : list (string * value);
  _sections : list section;
  _collapsedState : gmap string bool;
  _availableHeight : num;
  _sectionHeights : gmap string value;
  _heights : list value;
}.

Definition set_applyHeight (c : list (string * value)) (l : Layout) : Layout :=
  mkLayout c (_sections l) (_collapsedState l) (_availableHeight l)
           (_sectionHeights l) (_heights l).
Definition set_sections (s : list section) (l : Layout) : Layout :=
  mkLayout (_applyHeight l) s (_collapsedState l) (_availableHeight l)
           (_sectionHeights l) (_heights l).
Definition set_collapsedState (c : gmap string bool) (l : Layout) : Layout :=
  mkLayout (_applyHeight l) (_sections l) c (_availableHeight l)
           (_sectionHeights l) (_heights l).
Definition set_availableHeight (a : num) (l : Layout) : Layout :=
  mkLayout (_applyHeight l) (_sections l) (_collapsedState l) a
           (_sectionHeights l) (_heights l).
Definition set_sectionHeights (h : gmap string value) (l : Layout) : Layout :=
  mkLayout (_applyHeight l) (_sections l) (_collapsedState l) (_availableHeight l)
           h (_heights l).
Definition set_heights (h : list value) (l : Layout) : Layout :=
  mkLayout (_applyHeight l) (_sections l) (_collapsedState l) (_availableHeight l)
           (_sectionHeights l) h.

(** [new Layout(applyHeight, initialSizes, collapsedState)] *)
Definition constructor (initialSizes : gmap string value)
    (collapsedState : gmap string bool) : Layout :=
  mkLayout [] [] collapsedState (of_Z 0) initialSizes [].

(** The names under which a plain object inherits a member of
    [Object.prototype]. *)
Definition prototype_members : list string :=
  ["constructor"; "hasOwnProperty"; "isPrototypeOf"; "propertyIsEnumerable";
   "toLocaleString"; "toString"; "valueOf"; "__proto__";
   "__defineGetter__"; "__defineSetter__"; "__lookupGetter__"; "__lookupSetter__"].

Definition inherited (i : string) : bool := bool_decide (i ∈ prototype_members).

(** A property read [m[i]] on the plain object [m]: the own property,
    else the inherited member, else [undefined]. *)
Definition read_height (m : gmap string value) (i : string) : value :=
  default (if inherited i then Other i [] else Undefined) (m !! i).

(** [this._sectionHeights[id]] *)
Definition sectionHeight_of (l : Layout) (i : string) : value :=
  read_height (_sectionHeights l) i.

(** [this._collapsedState[id]], as a condition: an inherited member is
    truthy. *)
Definition collapsed_of (l : Layout) (i : string) : bool :=
  default (inherited i) (_collapsedState l !! i).

(** [this._heights[i]] *)
Definition height_at (l : Layout) (i : Z) : value :=
  default Undefined (array_get (_heights l) i).

(** A [Handle] object; its [_layout] is the one layout that is threaded
    through every operation. *)
Record Handle : Type := mkHandle {
  _anchor : Z;
  _initialHeight : value;
}.

(* ================================================================== *)
(** ** Computations on a layout: state, exceptions, fuel *)

(** A method either returns, or throws a [TypeError] (reading a property
    of [undefined]); both leave a layout behind.  [OutOfFuel] is the
    answer of a recursive method whose recursion budget is used up. *)
Inductive result (A : Type) : Type :=
  | Ret (a : A) (l : Layout)
  | Throw (l : Layout)
  | OutOfFuel.
Arguments Ret {A} a l.
Arguments Throw {A} l.
Arguments OutOfFuel {A}.

Definition M (A : Type) : Type := Layout -> result A.

Definition ret {A : Type} (a : A) : M A := fun l => Ret a l.

Definition bind {A B : Type} (m : M A) (k : A -> M B) : M B :=
  fun l =>
    match m l with
    | Ret a l' => k a l'
    | Throw l' => Throw l'
    | OutOfFuel => OutOfFuel
    end.

Definition gets {A : Type} (f : Layout -> A) : M A := fun l => Ret (f l) l.
Definition modify (f : Layout -> Layout) : M unit := fun l => Ret tt (f l).

Notation "'let!' x ':=' m 'in' k" := (bind m (fun x => k))
  (at level 10, x pattern, m at level 100, k at level 200).
Notation "m ';;;' k" := (bind m (fun _ => k))
  (at level 100, k at level 200, right associativity).

(** The layout a computation leaves behind, if it ends. *)
Definition state_of {A : Type} (r : result A) : option Layout :=
  match r with
  | Ret _ l => Some l
  | Throw l => Some l
  | OutOfFuel => None
  end.

(* ================================================================== *)
(** ** The methods of [Layout] *)

(** [_getSectionIndex(id)]: [findIndex], [-1] when no section has the id. *)
Fixpoint findIndex_from (i : Z) (i' : string) (ss : list section) : Z :=
  match ss with
  | [] => (-1)%Z
  | s :: rest => if String.eqb (id s) i' then i else findIndex_from (i + 1) i' rest
  end.

Definition _getSectionIndex (l : Layout) (i : string) : Z :=
  findIndex_from 0 i (_sections l).

(** [_sectionHeight(count)] *)
Definition _sectionHeight (count : nat) : num :=
  of_Z (36 + (if Nat.eqb count 0 then 0 else 4 + Z.of_nat count * 34)).

(** [_getMaxHeight(i)]; reading [section.id] throws when [_sections[i]] is
    [undefined]. *)
Definition maxHeight_of (l : Layout) (s : section) : num :=
  if collapsed_of l (id s) then _sectionHeight 0 else of_Z 100000.

Definition _getMaxHeight (i : Z) : M num :=
  fun l =>
    match array_get (_sections l) i with
    | Some s => Ret (maxHeight_of l s) l
    | None => Throw l
    end.

(** [_getMinHeight(i)] *)
Definition minHeight_of (l : Layout) (s : section) : num :=
  let maxItems := if collapsed_of l (id s) then 0%nat else 1%nat in
  _sectionHeight (Nat.min (count s) maxItems).

Definition _getMinHeight (i : Z) : M num :=
  fun l =>
    match array_get (_sections l) i with
    | Some s => Ret (minHeight_of l s) l
    | None => Throw l
    end.

(** [_getAvailableHeight()] *)
Definition nonCollapsedSectionCount (l : Layout) : Z :=
  fold_left (fun cnt s => (cnt + (if collapsed_of l (id s) then 0 else 1))%Z)
            (_sections l) 0%Z.

Definition _getAvailableHeight (l : Layout) : num :=
  num_sub (_availableHeight l)
          (of_Z ((nonCollapsedSectionCount l - 1) * handleHeight)).

(** One turn of the [for (const i of sections)] loop of [_applyOverflow]:
    it returns the new [overflow] and [unclampedSections]. *)
Definition overflow_step (blend : bool) (i : Z) (overflow overflowPerSection : num)
    (unclampedSections : list Z) : M (num * list Z) :=
  let! h := gets (fun l => toNumber (height_at l i)) in
  let! minHeight := _getMinHeight i in
  let! maxHeight := _getMaxHeight i in
  let newHeight := clamp (num_sub h overflowPerSection) minHeight maxHeight in
  let unclampedSections :=
    if num_eq newHeight (num_sub h overflowPerSection)
    then unclampedSections ++ [i] else unclampedSections in
  let overflow := num_sub overflow (num_sub h newHeight) in
  modify (fun l => set_heights (array_set (_heights l) i (Num newHeight)) l) ;;;
  ret (overflow, unclampedSections).

(** The whole loop; without [blend] the per-section overflow follows the
    overflow and the loop is left once the overflow is below [1.0]. *)
Fixpoint overflow_loop (blend : bool) (sections : list Z)
    (overflow overflowPerSection : num) (unclampedSections : list Z)
    : M (num * list Z) :=
  match sections with
  | [] => ret (overflow, unclampedSections)
  | i :: rest =>
      let! (overflow, unclampedSections) :=
        overflow_step blend i overflow overflowPerSection unclampedSections in
      if blend then
        overflow_loop blend rest overflow overflowPerSection unclampedSections
      else if abs_lt_1 overflow then ret (overflow, unclampedSections)
      else overflow_loop blend rest overflow overflow unclampedSections
  end.

(** [_applyOverflow(overflow, sections, blend)], with a budget for the
    depth of its recursion. *)
Fixpoint _applyOverflow_fuel (fuel : nat) (overflow : num) (sections : list Z)
    (blend : bool) : M num :=
  match fuel with
  | O => fun _ => OutOfFuel
  | S fuel' =>
      let overflowPerSection :=
        if blend then num_div overflow (of_nat (length sections)) else overflow in
      let! (overflow, unclampedSections) :=
        overflow_loop blend sections overflow overflowPerSection [] in
      if abs_gt_1 overflow && negb (Nat.eqb (length unclampedSections) 0)
      then _applyOverflow_fuel fuel' overflow unclampedSections blend
      else ret overflow
  end.

(** The budget that suffices with exact numbers (lemmas
    [applyOverflow_fuel_ends] and [applyOverflow_fuel_stable]): every
    recursive call is then on a strictly shorter list. *)
Definition _applyOverflow (overflow : num) (sections : list Z) (blend : bool)
    : M num :=
  _applyOverflow_fuel (S (length sections)) overflow sections blend.

(** [_applyHeights()]: one callback call per section. *)
Definition _applyHeights : M unit :=
  modify (fun l =>
    set_applyHeight
      (_applyHeight l ++
       imap (fun i s => (id s, default Undefined (_heights l !! i))) (_sections l))
      l).

(** [_commitHeights()] *)
Definition commit_loop (hs : list value) (ss : list section)
    (m : gmap string value) : gmap string value :=
  fold_left (fun m '(i, s) => <[id s := default Undefined (hs !! i)]> m)
            (imap (fun i s => (i, s)) ss) m.

Definition _commitHeights : M unit :=
  modify (fun l =>
    set_sectionHeights (commit_loop (_heights l) (_sections l) (_sectionHeights l)) l).

(** [this._heights = this._sections.map((section) => this._sectionHeights[section.id])] *)
Definition load_heights : M unit :=
  modify (fun l => set_heights (map (fun s => sectionHeight_of l (id s)) (_sections l)) l).

(** [_applyNewSize()].  Once a value that is not a number has been added,
    [currHeight] is a string; what is used of it is its numeric value,
    [NaN], in the subtraction. *)
Definition _applyNewSize : M unit :=
  let! newHeight := gets _getAvailableHeight in
  let! currHeight := gets (fun l =>
    fold_left (fun sum s => num_add sum (toNumber (sectionHeight_of l (id s))))
              (_sections l) (of_Z 0)) in
  let offset := num_sub newHeight currHeight in
  load_heights ;;;
  let! sections := gets (fun l => imap (fun i _ => Z.of_nat i) (_sections l)) in
  let! _ := _applyOverflow (num_neg offset) sections true in
  _applyHeights ;;;
  _commitHeights.

(** [setAvailableHeight(newSize)] *)
Definition setAvailableHeight (newSize : num) : M unit :=
  modify (set_availableHeight newSize) ;;;
  _applyNewSize.

(** [collapseSection(id)] *)
Definition collapseSection (i : string) : M unit :=
  modify (fun l => set_collapsedState (<[i := true]> (_collapsedState l)) l) ;;;
  _applyNewSize.

(** [update(sections, availableHeight)] *)
Definition section_differs (a b : section) : bool :=
  negb (String.eqb (id a) (id b)) || negb (Nat.eqb (count a) (count b)).

(** [sections.some((a, i) => ...)] is only evaluated on lists of equal
    length, where every [this._sections[i]] exists. *)
Definition sectionsChanged (sections old : list section) : bool :=
  negb (Nat.eqb (length sections) (length old))
  || existsb (fun '(a, b) => section_differs a b) (combine sections old).

(** The [forEach] that seeds the sections without a (truthy) stored
    height; [i] is the index of the first section of [todo]. *)
Fixpoint seed_loop (totalHeight : num) (i : Z) (todo : list section) : M unit :=
  match todo with
  | [] => ret tt
  | s :: rest =>
      let! stored := gets (fun l => sectionHeight_of l (id s)) in
      (if negb (truthy stored) then
         let! len := gets (fun l => length (_sections l)) in
         let! minHeight := _getMinHeight i in
         let! maxHeight := _getMaxHeight i in
         modify (fun l =>
           set_sectionHeights
             (<[id s := Num (clamp (num_div totalHeight (of_nat len)) minHeight maxHeight)]>
                (_sectionHeights l)) l)
       else ret tt) ;;;
      seed_loop totalHeight (i + 1) rest
  end.

Definition seed_heights : M unit :=
  let! totalHeight := gets _getAvailableHeight in
  let! ss := gets _sections in
  seed_loop totalHeight 0 ss.

Definition update (sections : list section) (availableHeight : num) : M unit :=
  let! old := gets _availableHeight in
  let heightChanged := isFinite availableHeight && negb (num_eq availableHeight old) in
  (if heightChanged then modify (set_availableHeight availableHeight) else ret tt) ;;;
  let! oldSections := gets _sections in
  if negb heightChanged && negb (sectionsChanged sections oldSections) then ret tt
  else
    modify (set_sections sections) ;;;
    seed_heights ;;;
    _applyNewSize.

(** [openHandle(id)] *)
Definition openHandle (i : string) : M Handle :=
  let! index := gets (fun l => _getSectionIndex l i) in
  let! h := gets (fun l => sectionHeight_of l i) in
  ret (mkHandle index h).

(** [_rebalanceAbove(anchor, overflowAbove)]: the sections above the
    anchor, nearest first. *)
Definition sections_above (anchor : Z) : list Z :=
  reverse (seqZ 0 anchor).

Definition _rebalanceAbove (anchor : Z) (overflowAbove : num) : M num :=
  if abs_gt_1 overflowAbove
  then _applyOverflow overflowAbove (sections_above anchor) false
  else ret overflowAbove.

(** [_rebalanceBelow(anchor, overflowBelow)] *)
Definition sections_below (anchor : Z) (len : nat) : list Z :=
  seqZ (anchor + 1) (Z.of_nat len - (anchor + 1)).

Definition _rebalanceBelow (anchor : Z) (overflowBelow : num) : M num :=
  if abs_gt_1 overflowBelow
  then
    let! len := gets (fun l => length (_sections l)) in
    _applyOverflow overflowBelow (sections_below anchor len) false
  else ret overflowBelow.

(** [_relayout(anchor, offset, clamped)], with a budget for the depth of
    its recursion.  It returns the offset it was clamped at, or
    [undefined]. *)
Fixpoint _relayout_fuel (fuel : nat) (anchor : Z) (offset : num) (clamped : bool)
    : M value :=
  match fuel with
  | O => fun _ => OutOfFuel
  | S fuel' =>
      load_heights ;;;
      let! maxHeight := _getMaxHeight anchor in
      let! minHeight := _getMinHeight anchor in
      let! v := gets (fun l => height_at l anchor) in
      let h := toNumber v in
      let overflowAbove :=
        if num_gt (toNumber (js_add v offset)) maxHeight
        then num_sub (num_sub maxHeight h) offset
        else if num_lt (toNumber (js_add v offset)) minHeight
        then num_sub (num_sub minHeight h) offset
        else of_Z 0 in
      let overflowBelow := offset in
      modify (fun l =>
        set_heights
          (array_set (_heights l) anchor
             (clamp_value (js_add v offset) minHeight maxHeight)) l) ;;;
      let! overflowAbove := _rebalanceAbove anchor overflowAbove in
      let! overflowBelow := _rebalanceBelow anchor overflowBelow in
      if negb clamped && abs_gt_1 overflowAbove then
        _relayout_fuel fuel' anchor (num_add offset overflowAbove) true ;;;
        ret (Num (num_add offset overflowAbove))
      else if negb clamped && abs_gt_1 overflowBelow then
        _relayout_fuel fuel' anchor (num_sub offset overflowBelow) true ;;;
        ret (Num (num_sub offset overflowBelow))
      else
        _applyHeights ;;;
        ret Undefined
  end.

(** Two levels always suffice (lemmas [relayout_fuel_ends] and
    [relayout_fuel_stable]): the inner call is made with [clamped = true]
    and does not call again. *)
Definition _relayout (anchor : Z) (offset : num) (clamped : bool) : M value :=
  _relayout_fuel 2 anchor offset clamped.

(* ================================================================== *)
(** ** The methods of [Handle] *)

(** [setHeight(height)] *)
Definition setHeight (this : Handle) (height : num) : M Handle :=
  _relayout (_anchor this) (num_sub height (toNumber (_initialHeight this))) false ;;;
  ret this.

(** [finish()] *)
Definition finish (this : Handle) : M Handle :=
  _commitHeights ;;;
  ret this.

(** [expandSection(id, height)] *)
Definition expandSection (i : string) (height : num) : M unit :=
  modify (fun l => set_collapsedState (<[i := false]> (_collapsedState l)) l) ;;;
  _applyNewSize ;;;
  let! h := openHandle i in
  let! h := setHeight h height in
  let! _ := finish h in
  ret tt.

(* ================================================================== *)
(** ** The [Distributor] of the resizer *)

(** [class Distributor extends FixedDistributor]: what the class adds to
    its base class is the handle that its constructor opens, for the id of
    its item, on the layout of its configuration; [resize] and [finish]
    are overridden and use nothing else. *)
Record Distributor : Type := mkDistributor {
  _handle : Handle;
}.

(** [constructor(item, cfg)], with [item.id] for the item and the layout
    of [cfg] for the state. *)
Definition Distributor_constructor (item_id : string) : M Distributor :=
  let! h := openHandle item_id in
  ret (mkDistributor h).

(** [resize(height)] *)
Definition resize (this : Distributor) (height : num) : M unit :=
  let! _ := setHeight (_handle this) height in
  ret tt.

(** [finish()] of the distributor *)
Definition Distributor_finish (this : Distributor) : M unit :=
  let! _ := finish (_handle this) in
  ret tt.

(* ================================================================== *)
(** ** Operations, as the host view issues them *)

Inductive operation : Type :=
  | OpUpdate (sections : list section) (availableHeight : num)
  | OpSetAvailableHeight (newSize : num)
  | OpCollapseSection (i : string)
  | OpExpandSection (i : string) (height : num)
  | OpSetHeight (h : Handle) (height : num)
  | OpFinish (h : Handle).

Definition run (op : operation) : M unit :=
  match op with
  | OpUpdate sections availableHeight => update sections availableHeight
  | OpSetAvailableHeight newSize => setAvailableHeight newSize
  | OpCollapseSection i => collapseSection i
  | OpExpandSection i height => expandSection i height
  | OpSetHeight h height => setHeight h height ;;; ret tt
  | OpFinish h => finish h ;;; ret tt
  end.

(* ================================================================== *)
(** ** Predicates on layouts *)

(** The rational behind a finite number. *)
Definition qof (n : num) : Q :=
  match n with
  | Fin q => q
  | _ => 0
  end.

Definition qval (v : value) : Q := qof (toNumber v).

Definition fin_value (v : value) : bool :=
  match v with
  | Num (Fin _) => true
  | _ => false
  end.

(** [v] is a finite number equal to [q]. *)
Definition value_is (v : value) (q : Q) : bool :=
  match v with
  | Num (Fin x) => Qeq_bool x q
  | _ => false
  end.

(** [v] is a finite number within the bounds of section [s]. *)
Definition within (l : Layout) (s : section) (v : value) : bool :=
  match v with
  | Num (Fin q) =>
      Qle_bool (qof (minHeight_of l s)) q && Qle_bool q (qof (maxHeight_of l s))
  | _ => false
  end.

(** [v] is the minimum or the maximum height of section [s]. *)
Definition at_bound (l : Layout) (s : section) (v : value) : bool :=
  value_is v (qof (minHeight_of l s)) || value_is v (qof (maxHeight_of l s)).

Fixpoint all2 {A B : Type} (f : A -> B -> bool) (xs : list A) (ys : list B) : bool :=
  match xs, ys with
  | [], [] => true
  | x :: xs', y :: ys' => f x y && all2 f xs' ys'
  | _, _ => false
  end.

(** The committed heights of the sections, in the order of the list. *)
Definition committed_heights (l : Layout) : list value :=
  map (fun s => sectionHeight_of l (id s)) (_sections l).

Definition sumQ (hs : list value) : Q :=
  fold_right (fun v acc => (qval v + acc)%Q) 0%Q hs.

(** The sum of the committed heights and the height they are to fill:
    [availableHeight - (nonCollapsedSectionCount - 1) * handleHeight]. *)
Definition committed_sum (l : Layout) : Q := sumQ (committed_heights l).
Definition target_height (l : Layout) : Q := qof (_getAvailableHeight l).

(** A valid section list: no id occurs twice. *)
Definition valid_sections (ss : list section) : bool :=
  bool_decide (NoDup (map id ss)).

(** Every stored height is a finite number. *)
Definition stored_finite (l : Layout) : bool :=
  forallb (fun kv => fin_value (snd kv)) (map_to_list (_sectionHeights l)).

(** A well-formed layout: valid sections, finite numbers, and both the
    committed and the in-progress height of every section within the
    bounds of the section. *)
Definition well_formed (l : Layout) : bool :=
  valid_sections (_sections l)
  && isFinite (_availableHeight l)
  && stored_finite l
  && all2 (within l) (_sections l) (committed_heights l)
  && all2 (within l) (_sections l) (_heights l).

(** A handle as [openHandle] gives it in a well-formed layout: for an id
    of the list the initial height is finite, for any other id the anchor
    is [-1]. *)
Definition handle_ok (h : Handle) : bool :=
  fin_value (_initialHeight h) || (_anchor h =? -1)%Z.


(** A value that is [undefined] or a number: what a property read gives
    unless it finds a member of [Object.prototype]. *)
Definition plain (v : value) : bool :=
  match v with
  | Other _ _ => false
  | _ => true
  end.

(** The stored heights that the sections [ss] read are plain. *)
Definition plain_heights (l : Layout) (ss : list section) : bool :=
  forallb (fun s => plain (sectionHeight_of l (id s))) ss.

(** A finite number of magnitude at most [10^300]: sums and differences
    of two such numbers are far from the largest double. *)
Definition moderate (x : num) : bool :=
  match x with
  | Fin q => Qle_bool (Qabs q) (inject_Z (10 ^ 300))
  | _ => false
  end.

(** The operation fits the layout: a new section list is valid and reads
    plain stored heights; a new size and the height of an expansion are
    finite numbers; a dragged handle either has the anchor [-1] or a
    moderate initial height, and the height it is dragged to is
    moderate. *)
Definition operation_fits (op : operation) (l : Layout) : bool :=
  match op with
  | OpUpdate sections _ => valid_sections sections && plain_heights l sections
  | OpSetAvailableHeight newSize => isFinite newSize
  | OpCollapseSection _ => true
  | OpExpandSection _ height => isFinite height
  | OpSetHeight h height =>
      ((_anchor h =? -1)%Z || moderate (toNumber (_initialHeight h)))
      && moderate height
  | OpFinish _ => true
  end.

(** A finite number of magnitude at most [10^6], and a stored height
    that is [undefined] or such a number. *)
Definition small (x : num) : bool :=
  match x with
  | Fin q => Qle_bool (Qabs q) (inject_Z 1000000)
  | _ => false
  end.

Definition small_value (v : value) : bool :=
  match v with
  | Undefined => true
  | Num x => small x
  | Other _ _ => false
  end.

(** A redistribution of modest size: at most 100 sections, and the
    available height and the stored heights it starts from are small.
    [update] keeps the available height it has when it is given a
    non-finite one. *)
Definition modest (op : operation) (l : Layout) : bool :=
  match op with
  | OpUpdate sections a =>
      (length sections <=? 100)%nat
      && small (if isFinite a then a else _availableHeight l)
      && forallb (fun s => small_value (sectionHeight_of l (id s))) sections
  | OpSetAvailableHeight newSize =>
      (length (_sections l) <=? 100)%nat && small newSize
  | OpCollapseSection _ =>
      (length (_sections l) <=? 100)%nat && small (_availableHeight l)
  | _ => true
  end.

(* ================================================================== *)
(** ** Notions used in the proofs *)

(** Everything of a layout but the in-progress heights and the record of
    callback calls. *)
Definition config_eq (l l' : Layout) : Prop :=
  _sections l' = _sections l /\ _collapsedState l' = _collapsedState l /\
  _availableHeight l' = _availableHeight l /\ _sectionHeights l' = _sectionHeights l.

Definition ends_with {A : Type} (P : A -> Layout -> Prop) (Q : Layout -> Prop)
    (r : result A) : Prop :=
  match r with
  | Ret a l => P a l
  | Throw l => Q l
  | OutOfFuel => False
  end.

(** A computation that ends, and changes nothing but the in-progress
    heights and the record of callback calls. *)
Definition frames {A : Type} (m : M A) : Prop :=
  forall l, ends_with (fun _ l' => config_eq l l') (fun l' => config_eq l l') (m l).

(** What one pass of [_applyOverflow] over the sections [secs] does to
    finite heights [hs]: [hs'] are the heights, [oq'] the overflow and
    [U'] the unclamped sections after it. *)
Definition pass_post (blend : bool) (l : Layout) (secs : list Z)
    (hs : list value) (oq : Q) (U : list Z)
    (hs' : list value) (oq' : Q) (U' : list Z) : Prop :=
  Forall2 (fun (_ : section) v => fin_value v = true) (_sections l) hs' /\
  (sumQ hs' - oq' == sumQ hs - oq)%Q /\
  (forall j, Z.of_nat j ∉ secs -> hs' !! j = hs !! j) /\
  (forall j s v, _sections l !! j = Some s -> hs' !! j = Some v ->
     hs !! j = Some v \/ within l s v = true) /\
  (blend = true -> forall j s v,
     Z.of_nat j ∈ secs -> _sections l !! j = Some s -> hs' !! j = Some v ->
     within l s v = true /\ (Z.of_nat j ∈ U' \/ at_bound l s v = true)) /\
  (forall x, x ∈ U -> x ∈ U') /\
  (forall x, x ∈ U' -> x ∈ U \/ x ∈ secs).

Definition valid_indices (l : Layout) (secs : list Z) : Prop :=
  Forall (fun i => (0 <= i < Z.of_nat (length (_sections l)))%Z) secs.

(** What [_applyOverflow] over the sections [secs] does to finite heights
    [hs]: [hs'] are the heights after it and [r] the overflow it returns. *)
Definition apply_post (blend : bool) (l : Layout) (secs : list Z)
    (hs : list value) (oq : Q) (hs' : list value) (r : Q) : Prop :=
  Forall2 (fun (_ : section) v => fin_value v = true) (_sections l) hs' /\
  (sumQ hs' - r == sumQ hs - oq)%Q /\
  (forall j, Z.of_nat j ∉ secs -> hs' !! j = hs !! j) /\
  (forall j s v, _sections l !! j = Some s -> hs' !! j = Some v ->
     hs !! j = Some v \/ within l s v = true) /\
  (blend = true -> forall j s v,
     Z.of_nat j ∈ secs -> _sections l !! j = Some s -> hs' !! j = Some v ->
     within l s v = true) /\
  (blend = true ->
     abs_gt_1 (Fin r) = false \/
     forall j s v,
       Z.of_nat j ∈ secs -> _sections l !! j = Some s -> hs' !! j = Some v ->
       at_bound l s v = true).

(** The value a section without a truthy stored height is seeded with. *)
Definition seed_value (l : Layout) (s : section) : value :=
  Num (clamp (num_div (_getAvailableHeight l) (of_nat (length (_sections l))))
             (minHeight_of l s) (maxHeight_of l s)).

(** Everything of a layout but the stored heights. *)
Definition config_eq_but_stored (l l' : Layout) : Prop :=
  _sections l' = _sections l /\ _collapsedState l' = _collapsedState l /\
  _availableHeight l' = _availableHeight l /\ _heights l' = _heights l /\
  _applyHeight l' = _applyHeight l.

(** From a layout with [P] the computation returns, with [Q]. *)
Definition hoare {A : Type} (P : Layout -> Prop) (m : M A)
    (Q : A -> Layout -> Prop) : Prop :=
  forall l, P l -> exists a l', m l = Ret a l' /\ Q a l'.

(** The layout [l] has the configuration of [l0] and in-progress heights
    within the bounds. *)
Definition bounded_like (l0 l : Layout) : Prop :=
  config_eq l0 l /\
  Forall2 (fun s v => within l0 s v = true) (_sections l0) (_heights l).

(** On the section list [ss] the computation returns. *)
Definition returns {A : Type} (ss : list section) (m : M A) : Prop :=
  forall l, _sections l = ss -> exists a l', m l = Ret a l'.

Definition valid_in (ss : list section) (secs : list Z) : Prop :=
  Forall (fun i => (0 <= i < Z.of_nat (length ss))%Z) secs.

(** Two layouts that differ at most in the record of callback calls. *)
Definition same_but_log (l l' : Layout) : Prop :=
  config_eq l l' /\ _heights l' = _heights l.

Definition sim_result {A : Type} (r r' : result A) : Prop :=
  match r, r' with
  | Ret a l, Ret a' l' => a = a' /\ same_but_log l l'
  | Throw l, Throw l' => same_but_log l l'
  | OutOfFuel, OutOfFuel => True
  | _, _ => False
  end.

Definition sim {A : Type} (m : M A) : Prop :=
  forall l l', same_but_log l l' -> sim_result (m l) (m l').

(** [update] returns early: neither the height nor the sections changed. *)
Definition update_returns_early (ss : list section) (a : num) (l : Layout) : bool :=
  negb (isFinite a && negb (num_eq a (_availableHeight l)))
  && negb (sectionsChanged ss (_sections l)).

(** What the three redistributing operations have in common. *)
Definition redistributed (l' : Layout) (r : Q) : Prop :=
  well_formed l' = true /\
  (committed_sum l' == target_height l' + r)%Q /\
  (abs_gt_1 (Fin r) = false \/
   all2 (at_bound l') (_sections l') (committed_heights l') = true).

(** The computation never runs out of its recursion budget. *)
Definition ends {A : Type} (m : M A) : Prop := forall l, m l <> OutOfFuel.

(** The body of [_relayout] up to its decision to run again: it returns
    the two overflows left by the rebalancing. *)
Definition relayout_round (anchor : Z) (offset : num) : M (num * num) :=
  load_heights ;;;
  let! maxHeight := _getMaxHeight anchor in
  let! minHeight := _getMinHeight anchor in
  let! v := gets (fun l => height_at l anchor) in
  let h := toNumber v in
  let overflowAbove :=
    if num_gt (toNumber (js_add v offset)) maxHeight
    then num_sub (num_sub maxHeight h) offset
    else if num_lt (toNumber (js_add v offset)) minHeight
    then num_sub (num_sub minHeight h) offset
    else of_Z 0 in
  modify (fun l =>
    set_heights
      (array_set (_heights l) anchor
         (clamp_value (js_add v offset) minHeight maxHeight)) l) ;;;
  let! overflowAbove := _rebalanceAbove anchor overflowAbove in
  let! overflowBelow := _rebalanceBelow anchor offset in
  ret (overflowAbove, overflowBelow).

(** The committed height of a section, as a rational. *)
Definition committed_height (l : Layout) (s : section) : Q :=
  qval (sectionHeight_of l (id s)).

(** The operations that redistribute the whole list: [setAvailableHeight],
    [collapseSection], and [update] unless it returns early. *)
Definition redistributes (op : operation) (l : Layout) : bool :=
  match op with
  | OpUpdate ss a => negb (update_returns_early ss a l)
  | OpSetAvailableHeight _ => true
  | OpCollapseSection _ => true
  | _ => false
  end.


(** The layout whose heights [update] seeds, when it does not return
    early: the new available height, if finite and different, and the new
    section list are adopted. *)
Definition adopted (ss : list section) (a : num) (l : Layout) : Layout :=
  set_sections ss
    (if isFinite a && negb (num_eq a (_availableHeight l))
     then set_availableHeight a l else l).

(** The layout [l] has the configuration and the callback record of [l0]
    and one in-progress height per section. *)
Definition reshaped (l0 l : Layout) : Prop :=
  config_eq l0 l /\ _applyHeight l = _applyHeight l0 /\
  length (_heights l) = length (_sections l0).

(** After a redistribution from [l0]: the callback has been called once
    per section, in the order of the list, with the committed heights, and
    the in-progress heights are the committed ones. *)
Definition settled (l0 l' : Layout) : Prop :=
  _applyHeight l' =
    _applyHeight l0 ++ map (fun s => (id s, sectionHeight_of l' (id s))) (_sections l') /\
  _heights l' = committed_heights l'.

(** The layout [l'] has the callback record of [l] and, outside the
    sections [secs], its in-progress heights. *)
Definition keeps (secs : list Z) (l l' : Layout) : Prop :=
  _applyHeight l' = _applyHeight l /\
  forall k, k ∉ secs -> height_at l' k = height_at l k.

(** The computation makes no callback call and writes in-progress heights
    of the sections [secs] only. *)
Definition touches {A : Type} (secs : list Z) (m : M A) : Prop :=
  forall l, ends_with (fun _ l' => keeps secs l l') (fun l' => keeps secs l l') (m l).

(** What a round does, for all values: no callback call; and when it
    returns, the anchor has its committed height plus the offset, clamped
    to its bounds. *)
Definition round_post (anchor : Z) (offset : num) (l l2 : Layout) : Prop :=
  exists s, array_get (_sections l) anchor = Some s /\
    height_at l2 anchor =
    clamp_value (js_add (sectionHeight_of l (id s)) offset)
                (minHeight_of l s) (maxHeight_of l s).

(** After the call the record of callback calls has grown by one call per
    section, with the in-progress heights, when the call returns, and not
    at all when it throws. *)
Definition called_back (l : Layout) {A : Type} (r : result A) : Prop :=
  match r with
  | Ret _ l' =>
      _applyHeight l' =
      _applyHeight l ++
      imap (fun i s => (id s, default Undefined (_heights l' !! i))) (_sections l')
  | Throw l' => _applyHeight l' = _applyHeight l
  | OutOfFuel => False
  end.

(* ================================================================== *)
(** ** The examples of the specification *)

Definition two_sections : list section := [mkSection "A" 3; mkSection "B" 5].

Definition empty_layout : Layout := constructor ∅ ∅.

Definition after {A : Type} (m : M A) (l : Layout) : Layout :=
  default l (state_of (m l)).

Definition example_layout : Layout := after (update two_sections (of_Z 400)) empty_layout.

(** One section with three items in a container of height 50. *)
Definition crowded_layout : Layout :=
  after (update [mkSection "A" 3] (of_Z 50)) empty_layout.

(** A section without items, collapsed, above a section with three. *)
Definition empty_first : list section := [mkSection "a" 0; mkSection "b" 3].

Definition empty_first_collapsed : Layout :=
  after (update empty_first (of_Z 400) ;;; collapseSection "a") empty_layout.

(** A section whose id names a member of [Object.prototype]. *)
Definition prototype_named : list section := [mkSection "toString" 3].

(** Two sections with the same id. *)
Definition same_id_twice : list section := [mkSection "A" 3; mkSection "A" 0].

(** The section list is adopted, the heights are not yet seeded. *)
Definition unseeded_layout : Layout :=
  set_sections two_sections (set_availableHeight (of_Z 400) empty_layout).

(** A layout created with the height 0 stored for ["A"]. *)
Definition zero_stored_layout : Layout := constructor {["A" := Num (of_Z 0)]} ∅.

(** Two drags of section ["A"], each 0.75 further down, each committed. *)
Definition drag_A (height : num) : M unit :=
  let! h := openHandle "A" in
  let! h := setHeight h height in
  finish h ;;; ret tt.

Definition dragged_twice : Layout :=
  after (drag_A (Fin (801 # 4)) ;;; drag_A (Fin 201)) example_layout.

(* ================================================================== *)
(** * Properties *)

Lemma Qlt_bool_iff (x y : Q) : Qlt_bool x y = true <-> (x < y)%Q.
Proof.
  unfold Qlt_bool. rewrite negb_true_iff. split.
  - intros H. apply Qnot_le_lt. intros Hle. apply Qle_bool_iff in Hle. congruence.
  - intros H. destruct (Qle_bool y x) eqn:E; [|done].
    apply Qle_bool_iff in E. lra.
Qed.

Lemma Qlt_bool_false (x y : Q) : Qlt_bool x y = false <-> (y <= x)%Q.
Proof.
  unfold Qlt_bool. rewrite negb_false_iff. apply Qle_bool_iff.
Qed.

Lemma abs_gt_1_Fin (q : Q) : abs_gt_1 (Fin q) = true <-> (q < -1 \/ 1 < q)%Q.
Proof.
  unfold abs_gt_1, num_gt, num_abs, of_Z, num_lt. rewrite Qlt_bool_iff.
  change (inject_Z 1) with 1%Q.
  split.
  - intros H. destruct (Qlt_le_dec q (-1)) as [|H1]; [by left|right].
    destruct (Qlt_le_dec 1 q) as [|H2]; [done|].
    assert (Qabs q <= 1)%Q by (apply Qabs_Qle_condition; split; lra). lra.
  - intros H. destruct (Qlt_le_dec (Qabs q) 1%Q) as [H1|H1]; [|].
    + apply Qabs_Qlt_condition in H1. lra.
    + destruct (Qle_lt_or_eq _ _ H1) as [|E]; [done|].
      assert (Qabs q <= 1)%Q as H2 by lra. apply Qabs_Qle_condition in H2. lra.
Qed.

Lemma abs_lt_1_Fin (q : Q) : abs_lt_1 (Fin q) = true <-> (-1 < q /\ q < 1)%Q.
Proof.
  unfold abs_lt_1, num_abs, of_Z, num_lt. rewrite Qlt_bool_iff.
  change (inject_Z 1) with 1%Q. rewrite Qabs_Qlt_condition. done.
Qed.

(** The bounds of a section are finite numbers. *)
Lemma sectionHeight_Fin c : exists q, _sectionHeight c = Fin q.
Proof. unfold _sectionHeight, of_Z. eauto. Qed.

Lemma minHeight_of_Fin l s : exists q, minHeight_of l s = Fin q.
Proof. apply sectionHeight_Fin. Qed.

Lemma maxHeight_of_Fin l s : exists q, maxHeight_of l s = Fin q.
Proof. unfold maxHeight_of. destruct (collapsed_of l (id s)); unfold _sectionHeight, of_Z; eauto. Qed.

(** When [clamp] gives back a number equal to its argument between finite
    bounds, the argument is finite and is returned as it is. *)
Lemma clamp_unclamped x mn mx :
  num_eq (clamp x (Fin mn) (Fin mx)) x = true ->
  exists q, x = Fin q /\ clamp x (Fin mn) (Fin mx) = Fin q.
Proof.
  unfold clamp, num_gt. destruct x as [q| | |]; simpl; try discriminate.
  - destruct (Qlt_bool mx q) eqn:E1.
    + simpl. intros H. apply Qeq_bool_iff in H. apply Qlt_bool_iff in E1. lra.
    + destruct (Qlt_bool q mn) eqn:E2; [|eauto].
      simpl. intros H. apply Qeq_bool_iff in H. apply Qlt_bool_iff in E2. lra.
Qed.

Lemma num_sub_Fin_inv a b q : num_sub a b = Fin q -> exists x y, a = Fin x /\ b = Fin y /\ q = (x + - y)%Q.
Proof.
  destruct a, b; simpl; try discriminate. intros [= <-]. eauto.
Qed.

Lemma config_eq_refl l : config_eq l l.
Proof. by repeat split. Qed.

Lemma config_eq_trans l1 l2 l3 : config_eq l1 l2 -> config_eq l2 l3 -> config_eq l1 l3.
Proof. unfold config_eq. intros (?&?&?&?) (?&?&?&?). repeat split; congruence. Qed.

Lemma overflow_step_spec blend i o p U l :
  ends_with
    (fun '(o', U') l' =>
       config_eq l l' /\
       (U' = U \/
        U' = U ++ [i] /\
        exists hq pq, toNumber (height_at l i) = Fin hq /\ p = Fin pq /\
                      o' = num_sub o (Fin (hq - (hq - pq)))))
    (fun l' => l' = l)
    (overflow_step blend i o p U l).
Proof.
  unfold overflow_step, bind, gets, modify, ret, _getMinHeight, _getMaxHeight.
  destruct (array_get (_sections l) i) as [s|] eqn:Es; simpl; [|done].
  rewrite Es; simpl. split; [by repeat split|].
  destruct (minHeight_of_Fin l s) as [mn ->], (maxHeight_of_Fin l s) as [mx ->].
  destruct (num_eq _ _) eqn:E; [right|by left].
  split; [done|]. apply clamp_unclamped in E as (q & Hq & ->).
  apply num_sub_Fin_inv in Hq as (hq & pq & -> & -> & ->).
  exists hq, pq. repeat split. 
Qed.

Lemma num_sub_Fin x y : num_sub (Fin x) (Fin y) = Fin (x - y).
Proof. reflexivity. Qed.

Lemma Fin_sub_sub oq hq pq : (oq - (hq - (hq - pq)) == oq - pq)%Q.
Proof. lra. Qed.

(** The loop with [blend]: a section is left out of [unclampedSections]
    or takes exactly the per-section overflow. *)
Lemma overflow_loop_blend secs : forall o p U l,
  ends_with
    (fun '(o', U') l' =>
       config_eq l l' /\
       (length U' <= length U + length secs)%nat /\
       (length U' = (length U + length secs)%nat ->
        (secs <> [] -> exists pq, p = Fin pq) /\
        forall oq pq, o = Fin oq -> p = Fin pq ->
          exists oq', o' = Fin oq' /\
            (oq' == oq - inject_Z (Z.of_nat (length secs)) * pq)%Q))
    (fun l' => config_eq l l')
    (overflow_loop true secs o p U l).
Proof.
  induction secs as [|i rest IH]; intros o p U l.
  - simpl. split; [apply config_eq_refl|]. split; [lia|]. intros _. split; [done|].
    intros oq pq -> _. exists oq. split; [done|].
    change (inject_Z (Z.of_nat 0)) with 0%Q. lra.
  - simpl. unfold bind at 1.
    pose proof (overflow_step_spec true i o p U l) as Hs.
    destruct (overflow_step true i o p U l) as [[o1 U1] l1| |]; simpl in Hs; [|by subst; apply config_eq_refl|done].
    destruct Hs as [Hc Hs].
    specialize (IH o1 p U1 l1).
    destruct (overflow_loop true rest o1 p U1 l1) as [[o' U'] l'| |]; simpl in *; [| |done].
    2:{ by eapply config_eq_trans. }
    destruct IH as (Hc' & Hlen & Hall).
    split; [by eapply config_eq_trans|].
    destruct Hs as [->|[-> (hq & pq & Hh & -> & ->)]].
    + split; [lia|]. intros; lia.
    + rewrite length_app in *. simpl in *. split; [lia|].
      intros Hfull. destruct Hall as [_ Hall]; [lia|].
      split; [eauto|].
      intros oq pq' -> [= <-].
      destruct (Hall (oq - (hq - (hq - pq)))%Q pq eq_refl eq_refl) as (oq' & -> & Hq).
      exists oq'. split; [done|]. rewrite Hq, Fin_sub_sub.
      rewrite Nat2Z.inj_succ, <- Z.add_1_r, inject_Z_plus.
      change (inject_Z 1) with 1%Q. lra.
Qed.

(** The loop without [blend]: as soon as a section is unclamped it has
    taken the whole overflow. *)
Lemma overflow_loop_noblend secs : forall o U l,
  ends_with
    (fun '(o', U') l' =>
       config_eq l l' /\ (U' = U \/ abs_gt_1 o' = false))
    (fun l' => config_eq l l')
    (overflow_loop false secs o o U l).
Proof.
  induction secs as [|i rest IH]; intros o U l.
  - simpl. split; [apply config_eq_refl|]. by left.
  - simpl. unfold bind at 1.
    pose proof (overflow_step_spec false i o o U l) as Hs.
    destruct (overflow_step false i o o U l) as [[o1 U1] l1| |]; simpl in Hs; [|by subst; apply config_eq_refl|done].
    destruct Hs as [Hc Hs].
    destruct Hs as [->|[-> (hq & pq & Hh & -> & ->)]].
    + destruct (abs_lt_1 o1) eqn:E1.
      * simpl. split; [done|by left].
      * specialize (IH o1 U l1).
        destruct (overflow_loop false rest o1 o1 U l1) as [[o' U'] l'| |]; simpl in *; [| |done].
        -- destruct IH as [? ?]. split; [by eapply config_eq_trans|done].
        -- by eapply config_eq_trans.
    + rewrite num_sub_Fin.
      assert (abs_lt_1 (Fin (pq - (hq - (hq - pq)))) = true) as ->.
      { apply abs_lt_1_Fin. lra. }
      cbn [ends_with ret]. split; [done|]. right.
      destruct (abs_gt_1 _) eqn:E; [|done].
      apply abs_gt_1_Fin in E. lra.
Qed.

Lemma inject_Z_nat_nonzero n : n <> 0%nat -> ~ (inject_Z (Z.of_nat n) == 0)%Q.
Proof. intros Hn E. unfold Qeq in E. simpl in E. lia. Qed.

Lemma num_div_of_nat_Fin o n pq :
  n <> 0%nat -> num_div o (of_nat n) = Fin pq ->
  exists oq, o = Fin oq /\ pq = (oq / inject_Z (Z.of_nat n))%Q.
Proof.
  intros Hn. unfold of_nat, of_Z, num_div.
  destruct o as [oq| | |]; try discriminate.
  - destruct (Qeq_bool _ 0) eqn:E.
    + apply Qeq_bool_iff in E. by apply inject_Z_nat_nonzero in E.
    + intros [= <-]. eauto.
  - simpl. by destruct (Qlt_bool _ _).
  - simpl. by destruct (Qlt_bool _ _).
Qed.

(** When [_applyOverflow] calls itself, it is on fewer sections. *)
Lemma recursion_shrinks blend secs o l o' U' l' :
  overflow_loop blend secs o
    (if blend then num_div o (of_nat (length secs)) else o) [] l = Ret (o', U') l' ->
  abs_gt_1 o' && negb (Nat.eqb (length U') 0) = true ->
  (length U' < length secs)%nat.
Proof.
  intros Hl E. apply andb_true_iff in E as [E1 E2].
  apply negb_true_iff, Nat.eqb_neq in E2.
  destruct blend.
  - pose proof (overflow_loop_blend secs o (num_div o (of_nat (length secs))) [] l) as H.
    rewrite Hl in H. simpl in H. destruct H as (_ & Hlen & Hall).
    destruct (decide (length U' = length secs)) as [Heq|]; [|lia]. exfalso.
    assert (length secs <> 0%nat) as Hn by lia.
    destruct Hall as [Hp Hall]; [done|].
    destruct Hp as [pq Hp]; [by destruct secs|].
    destruct (num_div_of_nat_Fin o (length secs) pq Hn Hp) as (oq & -> & Hpq).
    destruct (Hall oq pq eq_refl Hp) as (oq' & -> & Hq).
    apply abs_gt_1_Fin in E1.
    assert (~ inject_Z (Z.of_nat (length secs)) == 0)%Q as Hnz
      by (by apply inject_Z_nat_nonzero).
    assert (oq' == 0)%Q as E0; [|lra].
    rewrite Hq, Hpq. field. done.
  - pose proof (overflow_loop_noblend secs o [] l) as H.
    rewrite Hl in H. simpl in H. destruct H as (_ & [->|H]); [done|congruence].
Qed.

Lemma frames_ret {A : Type} (a : A) : frames (ret a).
Proof. intros l. apply config_eq_refl. Qed.

Lemma frames_gets {A : Type} (f : Layout -> A) : frames (gets f).
Proof. intros l. apply config_eq_refl. Qed.

Lemma frames_modify (f : Layout -> Layout) :
  (forall l, config_eq l (f l)) -> frames (modify f).
Proof. intros H l. apply H. Qed.

Lemma frames_bind {A B : Type} (m : M A) (k : A -> M B) :
  frames m -> (forall a, frames (k a)) -> frames (bind m k).
Proof.
  intros Hm Hk l. unfold bind. specialize (Hm l).
  destruct (m l) as [a l1|l1|]; simpl in *; [|done|done].
  specialize (Hk a l1). destruct (k a l1); simpl in *; [| |done];
    by eapply config_eq_trans.
Qed.

Lemma frames_getMinHeight i : frames (_getMinHeight i).
Proof.
  intros l. unfold _getMinHeight.
  destruct (array_get _ _); apply config_eq_refl.
Qed.

Lemma frames_getMaxHeight i : frames (_getMaxHeight i).
Proof.
  intros l. unfold _getMaxHeight.
  destruct (array_get _ _); apply config_eq_refl.
Qed.

(** A budget above the number of sections is never used up, and only the
    in-progress heights change. *)
Lemma applyOverflow_fuel_ends fuel : forall o secs blend,
  (length secs < fuel)%nat ->
  frames (_applyOverflow_fuel fuel o secs blend).
Proof.
  induction fuel as [|fuel IH]; intros o secs blend Hf l; [lia|].
  simpl. unfold bind.
  destruct (overflow_loop blend secs o _ [] l) as [[o' U'] l'| |] eqn:Hl; simpl.
  - assert (config_eq l l') as Hc.
    { destruct blend.
      + pose proof (overflow_loop_blend secs o (num_div o (of_nat (length secs))) [] l) as H.
        rewrite Hl in H. apply H.
      + pose proof (overflow_loop_noblend secs o [] l) as H.
        rewrite Hl in H. apply H. }
    destruct (abs_gt_1 o' && negb (length U' =? 0)%nat) eqn:E; [|done].
    pose proof (recursion_shrinks _ _ _ _ _ _ _ Hl E) as Hlt.
    specialize (IH o' U' blend ltac:(lia) l').
    destruct (_applyOverflow_fuel fuel o' U' blend l'); simpl in *; [| |done];
      by eapply config_eq_trans.
  - destruct blend.
    + pose proof (overflow_loop_blend secs o (num_div o (of_nat (length secs))) [] l) as H.
      by rewrite Hl in H.
    + pose proof (overflow_loop_noblend secs o [] l) as H.
      by rewrite Hl in H.
  - destruct blend.
    + pose proof (overflow_loop_blend secs o (num_div o (of_nat (length secs))) [] l) as H.
      by rewrite Hl in H.
    + pose proof (overflow_loop_noblend secs o [] l) as H.
      by rewrite Hl in H.
Qed.

(** More budget does not change an answer. *)
Lemma applyOverflow_fuel_S fuel : forall o secs blend l,
  _applyOverflow_fuel fuel o secs blend l <> OutOfFuel ->
  _applyOverflow_fuel (S fuel) o secs blend l = _applyOverflow_fuel fuel o secs blend l.
Proof.
  induction fuel as [|fuel IH]; intros o secs blend l H; [done|].
  change (_applyOverflow_fuel (S (S fuel)) o secs blend l) with
    ((let! (overflow, unclampedSections) :=
        overflow_loop blend secs o
          (if blend then num_div o (of_nat (length secs)) else o) [] in
      if abs_gt_1 overflow && negb (Nat.eqb (length unclampedSections) 0)
      then _applyOverflow_fuel (S fuel) overflow unclampedSections blend
      else ret overflow) l).
  simpl in H |- *. unfold bind in *.
  destruct (overflow_loop _ _ _ _ _ _) as [[o' U'] l'| |]; [|done|done].
  destruct (_ && _); [|done]. by apply IH.
Qed.

Lemma applyOverflow_fuel_stable fuel o secs blend l :
  (length secs < fuel)%nat ->
  _applyOverflow_fuel fuel o secs blend l = _applyOverflow o secs blend l.
Proof.
  unfold _applyOverflow. intros H.
  replace fuel with ((fuel - S (length secs)) + S (length secs))%nat by lia.
  induction (fuel - S (length secs))%nat as [|k IH]; [done|].
  simpl plus. rewrite applyOverflow_fuel_S; [done|].
  rewrite IH. intros E.
  pose proof (applyOverflow_fuel_ends (S (length secs)) o secs blend ltac:(lia) l) as He.
  by rewrite E in He.
Qed.

Lemma frames_applyOverflow o secs blend : frames (_applyOverflow o secs blend).
Proof. apply applyOverflow_fuel_ends. lia. Qed.

(** [_applyOverflow] satisfies the equation of the source. *)
Lemma applyOverflow_unfold o secs blend l :
  _applyOverflow o secs blend l =
  (let! (overflow, unclampedSections) :=
     overflow_loop blend secs o
       (if blend then num_div o (of_nat (length secs)) else o) [] in
   if abs_gt_1 overflow && negb (Nat.eqb (length unclampedSections) 0)
   then _applyOverflow overflow unclampedSections blend
   else ret overflow) l.
Proof.
  unfold _applyOverflow at 1. simpl. unfold bind.
  destruct (overflow_loop _ _ _ _ _ _) as [[o' U'] l'| |] eqn:Hl; [|done|done].
  destruct (_ && _) eqn:E; [|done].
  apply applyOverflow_fuel_stable. by eapply recursion_shrinks.
Qed.

Lemma frames_applyHeights : frames _applyHeights.
Proof. apply frames_modify. intros l. by repeat split. Qed.

Lemma frames_load_heights : frames load_heights.
Proof. apply frames_modify. intros l. by repeat split. Qed.

Lemma frames_rebalanceAbove anchor o : frames (_rebalanceAbove anchor o).
Proof.
  unfold _rebalanceAbove. destruct (abs_gt_1 o);
    [apply frames_applyOverflow|apply frames_ret].
Qed.

Lemma frames_rebalanceBelow anchor o : frames (_rebalanceBelow anchor o).
Proof.
  unfold _rebalanceBelow. destruct (abs_gt_1 o); [|apply frames_ret].
  apply frames_bind; [apply frames_gets|]. intros len. apply frames_applyOverflow.
Qed.

(** [_relayout] ends within two levels, within one when it is called with
    [clamped], and only changes the in-progress heights. *)
Lemma relayout_fuel_ends fuel : forall anchor offset (clamped : bool),
  ((if clamped then 1 else 2) <= fuel)%nat ->
  frames (_relayout_fuel fuel anchor offset clamped).
Proof.
  induction fuel as [|fuel IH]; intros anchor offset clamped Hf;
    [destruct clamped; lia|].
  simpl.
  apply frames_bind; [apply frames_load_heights|intros _].
  apply frames_bind; [apply frames_getMaxHeight|intros mx].
  apply frames_bind; [apply frames_getMinHeight|intros mn].
  apply frames_bind; [apply frames_gets|intros h].
  apply frames_bind; [apply frames_modify; intros l; by repeat split|intros _].
  apply frames_bind; [apply frames_rebalanceAbove|intros oa].
  apply frames_bind; [apply frames_rebalanceBelow|intros ob].
  destruct clamped; simpl.
  - apply frames_bind; [apply frames_applyHeights|intros _; apply frames_ret].
  - destruct (abs_gt_1 oa).
    { apply frames_bind; [apply IH; lia|intros _; apply frames_ret]. }
    destruct (abs_gt_1 ob).
    { apply frames_bind; [apply IH; lia|intros _; apply frames_ret]. }
    apply frames_bind; [apply frames_applyHeights|intros _; apply frames_ret].
Qed.

Lemma frames_relayout anchor offset clamped : frames (_relayout anchor offset clamped).
Proof. apply relayout_fuel_ends. destruct clamped; lia. Qed.

Lemma relayout_fuel_eq fuel anchor offset clamped :
  _relayout_fuel (S fuel) anchor offset clamped =
  (load_heights ;;;
   let! maxHeight := _getMaxHeight anchor in
   let! minHeight := _getMinHeight anchor in
   let! v := gets (fun l => height_at l anchor) in
   let h := toNumber v in
   let overflowAbove :=
     if num_gt (toNumber (js_add v offset)) maxHeight
     then num_sub (num_sub maxHeight h) offset
     else if num_lt (toNumber (js_add v offset)) minHeight
     then num_sub (num_sub minHeight h) offset
     else of_Z 0 in
   modify (fun l =>
     set_heights
       (array_set (_heights l) anchor
          (clamp_value (js_add v offset) minHeight maxHeight)) l) ;;;
   let! overflowAbove := _rebalanceAbove anchor overflowAbove in
   let! overflowBelow := _rebalanceBelow anchor offset in
   if negb clamped && abs_gt_1 overflowAbove then
     _relayout_fuel fuel anchor (num_add offset overflowAbove) true ;;;
     ret (Num (num_add offset overflowAbove))
   else if negb clamped && abs_gt_1 overflowBelow then
     _relayout_fuel fuel anchor (num_sub offset overflowBelow) true ;;;
     ret (Num (num_sub offset overflowBelow))
   else
     _applyHeights ;;;
     ret Undefined).
Proof. reflexivity. Qed.

Lemma relayout_fuel_S fuel : forall anchor offset clamped l,
  _relayout_fuel fuel anchor offset clamped l <> OutOfFuel ->
  _relayout_fuel (S fuel) anchor offset clamped l =
  _relayout_fuel fuel anchor offset clamped l.
Proof.
  induction fuel as [|fuel IH]; intros anchor offset clamped l H; [done|].
  revert H.
  rewrite (relayout_fuel_eq (S fuel) anchor offset clamped),
          (relayout_fuel_eq fuel anchor offset clamped).
  unfold bind.
  repeat (match goal with
          | |- context [match ?m ?l with Ret _ _ => _ | Throw _ => _ | OutOfFuel => _ end] =>
            lazymatch m with
            | _relayout_fuel _ _ _ _ => fail
            | _ => destruct (m l); [|done|done]
            end
          end).
  destruct (negb clamped && abs_gt_1 _).
  { intros H. rewrite IH; [done|]. intros E. by rewrite E in H. }
  destruct (negb clamped && abs_gt_1 _); [|done].
  intros H. rewrite IH; [done|]. intros E. by rewrite E in H.
Qed.

Lemma relayout_fuel_stable fuel anchor offset clamped l :
  (2 <= fuel)%nat ->
  _relayout_fuel fuel anchor offset clamped l = _relayout anchor offset clamped l.
Proof.
  unfold _relayout. intros H.
  replace fuel with ((fuel - 2) + 2)%nat by lia.
  induction (fuel - 2)%nat as [|k IH]; [done|].
  simpl plus. rewrite relayout_fuel_S; [done|].
  rewrite IH. intros E.
  pose proof (relayout_fuel_ends 2 anchor offset clamped ltac:(destruct clamped; lia) l) as He.
  by rewrite E in He.
Qed.

(* ------------------------------------------------------------------ *)
(** *** Finite heights *)

Lemma minHeight_of_qof l s : minHeight_of l s = Fin (qof (minHeight_of l s)).
Proof. by destruct (minHeight_of_Fin l s) as [q ->]. Qed.

Lemma maxHeight_of_qof l s : maxHeight_of l s = Fin (qof (maxHeight_of l s)).
Proof. by destruct (maxHeight_of_Fin l s) as [q ->]. Qed.

Lemma min_le_max l s : (qof (minHeight_of l s) <= qof (maxHeight_of l s))%Q.
Proof.
  unfold minHeight_of, maxHeight_of, _sectionHeight, of_Z.
  destruct (collapsed_of l (id s)); simpl qof.
  - rewrite Nat.min_0_r. simpl. lra.
  - rewrite <- Zle_Qle. destruct (Nat.min (count s) 1) as [|[|k]] eqn:E; simpl; lia.
Qed.

Lemma within_true l s v :
  within l s v = true <->
  exists q, v = Num (Fin q) /\
            (qof (minHeight_of l s) <= q /\ q <= qof (maxHeight_of l s))%Q.
Proof.
  unfold within. split.
  - destruct v as [|[q| | |]|]; try done.
    rewrite andb_true_iff, !Qle_bool_iff. eauto.
  - intros (q & -> & H1 & H2). rewrite andb_true_iff, !Qle_bool_iff. done.
Qed.

Lemma within_fin l s v : within l s v = true -> fin_value v = true.
Proof. by destruct v as [|[]|]. Qed.

Lemma fin_value_true v : fin_value v = true <-> exists q, v = Num (Fin q).
Proof.
  split; [destruct v as [|[]|]; try done; eauto|by intros [q ->]].
Qed.

Lemma value_is_true v q : value_is v q = true <-> exists x, v = Num (Fin x) /\ (x == q)%Q.
Proof.
  unfold value_is. split.
  - destruct v as [|[x| | |]|]; try done. rewrite Qeq_bool_iff. eauto.
  - intros (x & -> & H). by apply Qeq_bool_iff.
Qed.

Lemma clamp_Fin x mn mx :
  (mn <= mx)%Q ->
  exists y, clamp (Fin x) (Fin mn) (Fin mx) = Fin y /\
            (mn <= y /\ y <= mx)%Q /\
            (Qeq_bool y x = false -> y = mn \/ y = mx) /\
            (Qeq_bool y x = true -> y = x).
Proof.
  intros Hle. unfold clamp, num_gt, num_lt.
  destruct (Qlt_bool mx x) eqn:E1.
  { exists mx. apply Qlt_bool_iff in E1.
    split; [done|]. split; [lra|]. split; [auto|].
    intros H. apply Qeq_bool_iff in H. lra. }
  apply Qlt_bool_false in E1.
  destruct (Qlt_bool x mn) eqn:E2.
  { exists mn. apply Qlt_bool_iff in E2.
    split; [done|]. split; [lra|]. split; [auto|].
    intros H. apply Qeq_bool_iff in H. lra. }
  apply Qlt_bool_false in E2.
  exists x. split; [done|]. split; [lra|]. split; [|done].
  intros H. assert (Qeq_bool x x = true) by (apply Qeq_bool_iff; reflexivity). congruence.
Qed.

Lemma all2_Forall2 {A B : Type} (f : A -> B -> bool) xs ys :
  all2 f xs ys = true <-> Forall2 (fun x y => f x y = true) xs ys.
Proof.
  revert ys. induction xs as [|x xs IH]; intros [|y ys]; simpl; split; try done.
  - inversion 1.
  - inversion 1.
  - rewrite andb_true_iff, IH. intros [? ?]. by constructor.
  - inversion 1; subst. rewrite andb_true_iff, IH. done.
Qed.

Lemma sumQ_insert hs j v old :
  hs !! j = Some old ->
  (sumQ (<[j := v]> hs) == sumQ hs - qval old + qval v)%Q.
Proof.
  revert j. induction hs as [|h hs IH]; intros [|j]; simpl; try done.
  - intros [= ->]. lra.
  - intros H. rewrite (IH _ H). lra.
Qed.

Lemma array_get_nat {A : Type} (xs : list A) (j : nat) :
  array_get xs (Z.of_nat j) = xs !! j.
Proof.
  unfold array_get. destruct (Z.ltb_spec (Z.of_nat j) 0); [lia|].
  by rewrite Nat2Z.id.
Qed.

Lemma array_get_Some {A : Type} (xs : list A) (i : Z) x :
  array_get xs i = Some x -> exists j, i = Z.of_nat j /\ xs !! j = Some x.
Proof.
  unfold array_get. destruct (Z.ltb_spec i 0); [done|].
  intros Hx. exists (Z.to_nat i). split; [lia|done].
Qed.

Lemma array_set_nat xs (j : nat) v :
  (j < length xs)%nat -> array_set xs (Z.of_nat j) v = <[j := v]> xs.
Proof.
  intros H. unfold array_set. destruct (Z.ltb_spec (Z.of_nat j) 0); [lia|].
  rewrite Nat2Z.id. destruct (Nat.ltb_spec j (length xs)); [done|lia].
Qed.

(** One turn of the loop on a finite height. *)
Lemma overflow_step_fin blend (j : nat) oq pq U l s hq :
  _sections l !! j = Some s ->
  _heights l !! j = Some (Num (Fin hq)) ->
  exists y,
    overflow_step blend (Z.of_nat j) (Fin oq) (Fin pq) U l =
      Ret (Fin (oq - (hq - y)),
           if Qeq_bool y (hq - pq) then U ++ [Z.of_nat j] else U)
          (set_heights (<[j := Num (Fin y)]> (_heights l)) l) /\
    within l s (Num (Fin y)) = true /\
    (Qeq_bool y (hq - pq) = false -> at_bound l s (Num (Fin y)) = true) /\
    (Qeq_bool y (hq - pq) = true -> y = (hq - pq)%Q).
Proof.
  intros Hs Hh.
  destruct (clamp_Fin (hq - pq) _ _ (min_le_max l s)) as (y & Hy & Hb & Hne & Heq).
  exists y. split.
  - unfold overflow_step, bind, gets, modify, ret, _getMinHeight, _getMaxHeight, height_at.
    rewrite !array_get_nat, Hs, Hh. cbn [from_option Datatypes.id toNumber].
    rewrite array_get_nat, Hs.
    rewrite (minHeight_of_qof l s), (maxHeight_of_qof l s), !num_sub_Fin, Hy.
    cbn [num_eq]. rewrite !num_sub_Fin.
    rewrite array_set_nat; [done|]. by eapply lookup_lt_Some.
  - split; [apply within_true; eauto|]. split; [|done].
    intros H. unfold at_bound. simpl. apply orb_true_iff.
    destruct (Hne H) as [->| ->]; [left|right]; apply Qeq_bool_iff; reflexivity.
Qed.

Lemma overflow_loop_fin blend l secs : forall hs oq pq U,
  Forall2 (fun (_ : section) v => fin_value v = true) (_sections l) hs ->
  valid_indices l secs ->
  exists hs' oq' U',
    overflow_loop blend secs (Fin oq) (Fin pq) U (set_heights hs l) =
      Ret (Fin oq', U') (set_heights hs' l) /\
    pass_post blend l secs hs oq U hs' oq' U'.
Proof.
  induction secs as [|i rest IH]; intros hs oq pq U Hfin Hval.
  { exists hs, oq, U. split; [done|].
    split; [done|]. split; [reflexivity|]. split; [done|]. split; [by left|].
    split; [intros _ j s v Hj; by apply elem_of_nil in Hj|]. split; [done|by left]. }
  inversion Hval as [|? ? Hi Hval']; subst.
  assert (exists j, i = Z.of_nat j /\ (j < length (_sections l))%nat) as (j & -> & Hj).
  { exists (Z.to_nat i). lia. }
  destruct (lookup_lt_is_Some_2 _ _ Hj) as [s Hs].
  destruct (Forall2_lookup_l _ _ _ _ _ Hfin Hs) as (v0 & Hv0 & Hf0).
  apply fin_value_true in Hf0 as [hq ->].
  destruct (overflow_step_fin blend j oq pq U (set_heights hs l) s hq Hs Hv0)
    as (y & Hstep & Hw & Hat & Hpush).
  change (within (set_heights hs l) s (Num (Fin y))) with (within l s (Num (Fin y))) in Hw.
  change (at_bound (set_heights hs l) s (Num (Fin y)))
    with (at_bound l s (Num (Fin y))) in Hat.
  change (set_heights (<[j:=Num (Fin y)]> (_heights (set_heights hs l))) (set_heights hs l))
    with (set_heights (<[j:=Num (Fin y)]> hs) l) in Hstep.
  set (hs1 := <[j:=Num (Fin y)]> hs) in *.
  set (U1 := if Qeq_bool y (hq - pq) then U ++ [Z.of_nat j] else U) in *.
  set (o1 := (oq - (hq - y))%Q) in *.
  assert (Forall2 (fun (_ : section) v => fin_value v = true) (_sections l) hs1) as Hfin1.
  { apply Forall2_same_length_lookup. split.
    - unfold hs1. rewrite length_insert. by eapply Forall2_length.
    - intros k a b Ha Hb. unfold hs1 in Hb.
      destruct (decide (k = j)) as [->|Hne].
      + rewrite list_lookup_insert_eq in Hb by (by eapply lookup_lt_Some). by injection Hb as <-.
      + rewrite list_lookup_insert_ne in Hb by done.
        exact (Forall2_lookup_lr _ _ _ _ _ _ Hfin Ha Hb). }
  assert (sumQ hs1 - o1 == sumQ hs - oq)%Q as Hsum1.
  { unfold hs1, o1. rewrite (sumQ_insert _ _ _ _ Hv0). unfold qval. simpl. lra. }
  assert (forall x, x ∈ U -> x ∈ U1) as HU1.
  { intros x Hx. unfold U1. destruct (Qeq_bool _ _); [|done].
    apply elem_of_app. by left. }
  assert (forall x, x ∈ U1 -> x ∈ U \/ x = Z.of_nat j) as HU1'.
  { intros x. unfold U1. destruct (Qeq_bool _ _); [|by left].
    rewrite elem_of_app, list_elem_of_singleton. done. }
  assert (Z.of_nat j ∈ U1 \/ at_bound l s (Num (Fin y)) = true) as Hj1.
  { unfold U1. destruct (Qeq_bool y (hq - pq)) eqn:E; [left|right; by apply Hat].
    apply elem_of_app. right. by apply list_elem_of_singleton. }
  (* the pass is over after this section *)
  assert (pass_post false l (Z.of_nat j :: rest) hs oq U hs1 o1 U1) as Hstop.
  { split; [done|]. split; [done|]. split.
    { intros k Hk. unfold hs1. apply list_lookup_insert_ne. intros ->.
      apply Hk. by left. }
    split.
    { intros k s' v Hs' Hv. unfold hs1 in Hv.
      destruct (decide (k = j)) as [->|Hne].
      - rewrite list_lookup_insert_eq in Hv by (by eapply lookup_lt_Some).
        injection Hv as <-. right. congruence.
      - rewrite list_lookup_insert_ne in Hv by done. by left. }
    split; [done|]. split; [done|].
    intros x Hx. destruct (HU1' x Hx) as [?| ->]; [by left|right; by left]. }
  (* the pass goes on with the rest *)
  assert (forall pq',
    exists hs' oq' U',
      overflow_loop blend rest (Fin o1) (Fin pq') U1 (set_heights hs1 l) =
        Ret (Fin oq', U') (set_heights hs' l) /\
      pass_post blend l (Z.of_nat j :: rest) hs oq U hs' oq' U') as Hgo.
  { intros pq'.
    destruct (IH hs1 o1 pq' U1 Hfin1 Hval') as (hs' & oq' & U' & Hrun & Hpost).
    exists hs', oq', U'. split; [done|].
    destruct Hpost as (Hf & Hsum & Hout & Hin & Hbl & Hsub & Hsup).
    split; [done|]. split; [by rewrite Hsum|]. split.
    { intros k Hk. rewrite Hout.
      - unfold hs1. apply list_lookup_insert_ne. intros ->. apply Hk. by left.
      - intros Hk'. apply Hk. by right. }
    split.
    { intros k s' v Hs' Hv. destruct (Hin k s' v Hs' Hv) as [Hv1|?]; [|by right].
      unfold hs1 in Hv1. destruct (decide (k = j)) as [->|Hne].
      - rewrite list_lookup_insert_eq in Hv1 by (by eapply lookup_lt_Some).
        injection Hv1 as <-. right. congruence.
      - rewrite list_lookup_insert_ne in Hv1 by done. by left. }
    split.
    { intros Hb k s' v Hk Hs' Hv.
      destruct (decide (Z.of_nat k ∈ rest)) as [Hr|Hr]; [by apply (Hbl Hb k s' v)|].
      apply elem_of_cons in Hk as [Hk|Hk]; [|done].
      apply Nat2Z.inj in Hk as ->.
      rewrite (Hout j Hr) in Hv. unfold hs1 in Hv.
      rewrite list_lookup_insert_eq in Hv by (by eapply lookup_lt_Some).
      injection Hv as <-. assert (s' = s) as -> by congruence.
      split; [done|]. destruct Hj1 as [?|?]; [left; by apply Hsub|by right]. }
    split; [by auto|].
    intros x Hx. destruct (Hsup x Hx) as [Hx1|?]; [|right; by right].
    destruct (HU1' x Hx1) as [?| ->]; [by left|right; by left]. }
  cbn [overflow_loop]. unfold bind at 1. rewrite Hstep.
  destruct blend.
  - apply Hgo.
  - fold o1. destruct (abs_lt_1 (Fin o1)).
    + exists hs1, o1, U1. done.
    + apply Hgo.
Qed.

Lemma num_div_of_nat oq n :
  n <> 0%nat -> num_div (Fin oq) (of_nat n) = Fin (oq / inject_Z (Z.of_nat n)).
Proof.
  intros Hn. unfold num_div, of_nat, of_Z.
  destruct (Qeq_bool _ 0) eqn:E; [|done].
  apply Qeq_bool_iff in E. by apply inject_Z_nat_nonzero in E.
Qed.

Lemma applyOverflow_fin blend l n : forall secs hs oq,
  (length secs <= n)%nat ->
  Forall2 (fun (_ : section) v => fin_value v = true) (_sections l) hs ->
  valid_indices l secs ->
  exists hs' r,
    _applyOverflow (Fin oq) secs blend (set_heights hs l) =
      Ret (Fin r) (set_heights hs' l) /\
    apply_post blend l secs hs oq hs' r.
Proof.
  induction n as [|n IH]; intros secs hs oq Hn Hfin Hval.
  { destruct secs; [|simpl in Hn; lia].
    exists hs, oq. split.
    { rewrite applyOverflow_unfold. unfold bind. cbn [overflow_loop ret length Nat.eqb negb].
      by rewrite andb_false_r. }
    split; [done|]. split; [reflexivity|]. split; [done|]. split; [by left|].
    split; [intros _ j s v Hj; by apply elem_of_nil in Hj|].
    intros _. right. intros j s v Hj; by apply elem_of_nil in Hj. }
  destruct (decide (secs = [])) as [->|Hne]; [apply (IH [] hs oq); [simpl; lia|done|done]|].
  assert (length secs <> 0%nat) as Hlen by (by destruct secs).
  assert (exists pq, (if blend then num_div (Fin oq) (of_nat (length secs)) else Fin oq)
                     = Fin pq) as [pq Hp].
  { destruct blend; [|eauto]. rewrite num_div_of_nat by done. eauto. }
  destruct (overflow_loop_fin blend l secs hs oq pq [] Hfin Hval)
    as (hs1 & o1 & U1 & Hrun & Hf1 & Hsum1 & Hout1 & Hin1 & Hbl1 & _ & Hsup1).
  rewrite applyOverflow_unfold. unfold bind. rewrite Hp, Hrun.
  destruct (abs_gt_1 (Fin o1) && negb (length U1 =? 0)%nat) eqn:E.
  - assert (length U1 < length secs)%nat as Hlt.
    { eapply (recursion_shrinks blend secs (Fin oq)); [|done]. rewrite Hp. apply Hrun. }
    assert (forall x, x ∈ U1 -> x ∈ secs) as Hsub.
    { intros x Hx. destruct (Hsup1 x Hx) as [Hx'|]; [by apply elem_of_nil in Hx'|done]. }
    assert (valid_indices l U1) as Hval1.
    { apply Forall_forall. intros x Hx.
      by apply (proj1 (Forall_forall _ _) Hval), Hsub. }
    destruct (IH U1 hs1 o1 ltac:(lia) Hf1 Hval1)
      as (hs' & r & Hrun' & Hf & Hsum & Hout & Hin & Hbl & Hat).
    exists hs', r. split; [done|].
    split; [done|]. split; [by rewrite Hsum|]. split.
    { intros j Hj. rewrite Hout; [by apply Hout1|]. intros Hj'. by apply Hj, Hsub. }
    split.
    { intros j s v Hs Hv. destruct (Hin j s v Hs Hv) as [Hv1|?]; [|by right].
      by apply (Hin1 j s v). }
    split.
    { intros Hb j s v Hj Hs Hv. destruct (Hin j s v Hs Hv) as [Hv1|?]; [|done].
      by apply (Hbl1 Hb j s v). }
    intros Hb. destruct (Hat Hb) as [?|Hat']; [by left|right].
    intros j s v Hj Hs Hv.
    destruct (decide (Z.of_nat j ∈ U1)) as [HjU|HjU]; [by apply (Hat' j s v)|].
    rewrite (Hout j HjU) in Hv.
    destruct (Hbl1 Hb j s v Hj Hs Hv) as [_ [?|?]]; done.
  - exists hs1, o1. split; [done|].
    split; [done|]. split; [done|]. split; [done|]. split; [done|].
    split.
    { intros Hb j s v Hj Hs Hv. by apply (Hbl1 Hb j s v). }
    intros Hb. apply andb_false_iff in E as [E|E]; [by left|right].
    apply negb_false_iff, Nat.eqb_eq in E.
    destruct U1; [|done].
    intros j s v Hj Hs Hv.
    destruct (Hbl1 Hb j s v Hj Hs Hv) as [_ [HjU|?]]; [by apply elem_of_nil in HjU|done].
Qed.

(* ------------------------------------------------------------------ *)
(** *** Well-formed layouts *)

Lemma stored_finite_true l :
  stored_finite l = true <->
  map_Forall (fun _ v => fin_value v = true) (_sectionHeights l).
Proof.
  unfold stored_finite. rewrite forallb_forall, map_Forall_to_list, Forall_forall.
  split.
  - intros H [k v] Hkv. apply (H (k, v)). by apply list_elem_of_In.
  - intros H [k v] Hkv. apply (H (k, v)). by apply list_elem_of_In.
Qed.

Lemma well_formed_true l :
  well_formed l = true <->
  NoDup (map id (_sections l)) /\
  isFinite (_availableHeight l) = true /\
  map_Forall (fun _ v => fin_value v = true) (_sectionHeights l) /\
  Forall2 (fun s v => within l s v = true) (_sections l) (committed_heights l) /\
  Forall2 (fun s v => within l s v = true) (_sections l) (_heights l).
Proof.
  unfold well_formed, valid_sections.
  rewrite !andb_true_iff, bool_decide_eq_true, stored_finite_true, !all2_Forall2.
  tauto.
Qed.

Lemma isFinite_true a : isFinite a = true <-> exists q, a = Fin q.
Proof. split; [destruct a; try done; eauto|by intros [q ->]]. Qed.

(** [_commitHeights] on a valid section list stores the height of every
    section under its id and leaves the other ids alone. *)
Lemma commit_loop_snoc hs ss s m :
  commit_loop hs (ss ++ [s]) m =
  <[id s := default Undefined (hs !! length ss)]> (commit_loop hs ss m).
Proof.
  unfold commit_loop. rewrite imap_app, fold_left_app. simpl.
  by rewrite Nat.add_0_r.
Qed.

Lemma commit_loop_other hs ss m k :
  k ∉ map id ss -> commit_loop hs ss m !! k = m !! k.
Proof.
  induction ss as [|s ss IH] using rev_ind; intros Hk; [done|].
  rewrite commit_loop_snoc. rewrite map_app, elem_of_app in Hk.
  rewrite lookup_insert_ne; [apply IH; tauto|].
  intros <-. apply Hk. right. simpl. by left.
Qed.

Lemma commit_loop_lookup hs ss m j s :
  NoDup (map id ss) -> ss !! j = Some s ->
  commit_loop hs ss m !! id s = Some (default Undefined (hs !! j)).
Proof.
  induction ss as [|s' ss IH] using rev_ind; intros Hnd Hj; [done|].
  rewrite commit_loop_snoc. rewrite map_app in Hnd. simpl in Hnd.
  apply NoDup_app in Hnd as (Hnd & Hdis & _).
  destruct (decide (j = length ss)) as [->|Hne].
  - rewrite list_lookup_middle in Hj by done. injection Hj as ->.
    by rewrite lookup_insert_eq.
  - assert (j < length ss)%nat as Hlt.
    { apply lookup_lt_Some in Hj. rewrite length_app in Hj. simpl in Hj. lia. }
    rewrite lookup_app_l in Hj by done.
    rewrite lookup_insert_ne; [by apply IH|].
    intros Heq. apply (Hdis (id s)).
    + apply list_elem_of_fmap. exists s. split; [done|]. by eapply list_elem_of_lookup_2.
    + rewrite Heq. by left.
Qed.

Lemma commit_loop_finite hs ss m :
  (length ss <= length hs)%nat ->
  Forall (fun v => fin_value v = true) hs ->
  map_Forall (fun _ v => fin_value v = true) m ->
  map_Forall (fun _ v => fin_value v = true) (commit_loop hs ss m).
Proof.
  intros Hlen Hfin Hm.
  induction ss as [|s ss IH] using rev_ind; [done|].
  rewrite commit_loop_snoc. rewrite length_app in Hlen. simpl in Hlen.
  apply map_Forall_insert_2; [|apply IH; lia].
  destruct (lookup_lt_is_Some_2 hs (length ss) ltac:(lia)) as [v Hv].
  rewrite Hv. simpl. by apply (proj1 (Forall_lookup _ _) Hfin _ _ Hv).
Qed.

Lemma committed_after_commit hs l :
  NoDup (map id (_sections l)) -> length hs = length (_sections l) ->
  committed_heights
    (set_sectionHeights (commit_loop hs (_sections l) (_sectionHeights l)) l) = hs.
Proof.
  intros Hnd Hlen. apply list_eq. intros j.
  unfold committed_heights. cbn [_sections set_sectionHeights].
  rewrite list_lookup_fmap.
  destruct (_sections l !! j) as [s|] eqn:Hs; simpl.
  - unfold sectionHeight_of, read_height. cbn [_sectionHeights set_sectionHeights].
    rewrite (commit_loop_lookup _ _ _ _ _ Hnd Hs). simpl.
    destruct (lookup_lt_is_Some_2 hs j) as [v Hv]; [|by rewrite Hv].
    rewrite Hlen. by eapply lookup_lt_Some.
  - symmetry. apply lookup_ge_None. rewrite Hlen. by apply lookup_ge_None.
Qed.

(** The current total of [_applyNewSize]. *)
Lemma currHeight_fin (f : section -> value) ss : forall c0,
  Forall (fun s => fin_value (f s) = true) ss ->
  exists c, fold_left (fun sum s => num_add sum (toNumber (f s))) ss (Fin c0) = Fin c /\
            (c == c0 + sumQ (map f ss))%Q.
Proof.
  induction ss as [|s ss IH]; intros c0 Hfin.
  - exists c0. split; [done|]. simpl. lra.
  - inversion Hfin as [|? ? Hs Hfin']; subst.
    apply fin_value_true in Hs as [q Hq].
    destruct (IH (c0 + q)%Q Hfin') as (c & Hfold & Hc).
    exists c. split; [simpl; by rewrite Hq|].
    rewrite Hc. cbn [map sumQ fold_right]. fold (sumQ (map f ss)).
    unfold qval at 1. rewrite Hq. cbn [toNumber qof]. lra.
Qed.

Lemma getAvailableHeight_fin l a :
  _availableHeight l = Fin a ->
  _getAvailableHeight l =
  Fin (a - inject_Z ((nonCollapsedSectionCount l - 1) * handleHeight)).
Proof. intros H. unfold _getAvailableHeight. by rewrite H. Qed.

Lemma elem_of_all_indices {A : Type} (ss : list A) (j : nat) :
  Z.of_nat j ∈ imap (fun i _ => Z.of_nat i) ss <-> (j < length ss)%nat.
Proof.
  rewrite list_elem_of_lookup. split.
  - intros [k Hk]. rewrite list_lookup_imap in Hk.
    destruct (ss !! k) eqn:E; [|done]. simpl in Hk. injection Hk as Hk.
    apply Nat2Z.inj in Hk as ->. by eapply lookup_lt_Some.
  - intros Hj. exists j. rewrite list_lookup_imap.
    by destruct (lookup_lt_is_Some_2 ss j Hj) as [x ->].
Qed.

Lemma valid_all_indices l : valid_indices l (imap (fun i _ => Z.of_nat i) (_sections l)).
Proof.
  apply Forall_forall. intros x Hx. apply list_elem_of_lookup in Hx as [k Hk].
  rewrite list_lookup_imap in Hk.
  destruct (_sections l !! k) eqn:E; [|done]. simpl in Hk. injection Hk as <-.
  apply lookup_lt_Some in E. lia.
Qed.

Lemma applyNewSize_spec l a :
  NoDup (map id (_sections l)) ->
  _availableHeight l = Fin a ->
  map_Forall (fun _ v => fin_value v = true) (_sectionHeights l) ->
  Forall (fun s => fin_value (sectionHeight_of l (id s)) = true) (_sections l) ->
  exists l' r,
    _applyNewSize l = Ret tt l' /\
    _sections l' = _sections l /\
    _collapsedState l' = _collapsedState l /\
    _availableHeight l' = _availableHeight l /\
    well_formed l' = true /\
    (committed_sum l' == target_height l' + r)%Q /\
    (abs_gt_1 (Fin r) = false \/
     all2 (at_bound l') (_sections l') (committed_heights l') = true).
Proof.
  intros Hnd Ha Hm Hfin.
  destruct (currHeight_fin (fun s => sectionHeight_of l (id s)) (_sections l) 0 Hfin)
    as (c & Hc & Hcsum).
  set (T := (a - inject_Z ((nonCollapsedSectionCount l - 1) * handleHeight))%Q).
  assert (Forall2 (fun (_ : section) v => fin_value v = true)
            (_sections l) (committed_heights l)) as Hfin2.
  { unfold committed_heights. apply Forall2_fmap_r, Forall_Forall2_diag.
    eapply Forall_impl; [apply Hfin|]. done. }
  destruct (applyOverflow_fin true l (length (imap (fun i _ => Z.of_nat i) (_sections l)))
              (imap (fun i _ => Z.of_nat i) (_sections l))
              (committed_heights l) (- (T - c))%Q ltac:(lia) Hfin2 (valid_all_indices l))
    as (hs' & r & Hrun & Hf & Hsum & _ & _ & Hbl & Hat).
  specialize (Hbl eq_refl). specialize (Hat eq_refl).
  pose proof (Forall2_length _ _ _ Hf) as Hlen.
  set (l1 := set_applyHeight
               (_applyHeight l ++
                imap (fun i s => (id s, default Undefined (hs' !! i))) (_sections l))
               (set_heights hs' l)).
  set (l' := set_sectionHeights (commit_loop hs' (_sections l) (_sectionHeights l)) l1).
  assert (committed_heights l' = hs') as Hcommitted.
  { apply (committed_after_commit hs' l1); [done|by symmetry]. }
  assert (Forall2 (fun s v => within l' s v = true) (_sections l) hs') as Hwithin.
  { apply Forall2_same_length_lookup. split; [done|].
    intros j s v Hs Hv. apply (Hbl j s v); [|done|done].
    apply elem_of_all_indices. by eapply lookup_lt_Some. }
  exists l', r. split.
  { unfold _applyNewSize, bind, gets, load_heights, modify.
    rewrite (getAvailableHeight_fin l a Ha). fold T.
    change (of_Z 0) with (Fin 0). rewrite Hc.
    rewrite num_sub_Fin. cbn [num_neg].
    change (set_heights (map (fun s => sectionHeight_of l (id s)) (_sections l)) l)
      with (set_heights (committed_heights l) l).
    cbn [_sections set_heights].
    rewrite Hrun. done. }
  split; [done|]. split; [done|]. split; [done|]. split.
  { apply well_formed_true. rewrite Hcommitted.
    split; [done|]. split; [by rewrite isFinite_true; eauto|]. split.
    { apply commit_loop_finite; [lia| |done].
      apply Forall_lookup. intros j v Hv.
      destruct (lookup_lt_is_Some_2 (_sections l) j) as [s Hs].
      { rewrite Hlen. by eapply lookup_lt_Some. }
      exact (Forall2_lookup_lr _ _ _ _ _ _ Hf Hs Hv). }
    done. }
  split.
  { unfold committed_sum. rewrite Hcommitted.
    unfold target_height.
    change (_getAvailableHeight l') with (_getAvailableHeight l).
    rewrite (getAvailableHeight_fin l a Ha). fold T. cbn [qof].
    change (sumQ (map (fun s => sectionHeight_of l (id s)) (_sections l)))
      with (sumQ (committed_heights l)) in Hcsum.
    lra. }
  destruct Hat as [?|Hat]; [by left|right].
  rewrite Hcommitted. apply all2_Forall2.
  apply Forall2_same_length_lookup. split; [done|].
  intros j s v Hs Hv. apply (Hat j s v); [|done|done].
  apply elem_of_all_indices. by eapply lookup_lt_Some.
Qed.

(* ------------------------------------------------------------------ *)
(** *** Seeding in [update] *)

Lemma read_height_Some m i v : m !! i = Some v -> read_height m i = v.
Proof. intros H. unfold read_height. by rewrite H. Qed.

Lemma read_height_insert_eq m i v : read_height (<[i := v]> m) i = v.
Proof. apply read_height_Some, lookup_insert_eq. Qed.

Lemma read_height_insert_ne m i k v :
  i <> k -> read_height (<[i := v]> m) k = read_height m k.
Proof. intros H. unfold read_height. by rewrite lookup_insert_ne. Qed.

Lemma seed_loop_spec l T : forall todo k m,
  drop k (_sections l) = todo ->
  NoDup (map id todo) ->
  exists m',
    seed_loop T (Z.of_nat k) todo (set_sectionHeights m l) =
      Ret tt (set_sectionHeights m' l) /\
    (forall key, key ∉ map id todo -> m' !! key = m !! key) /\
    (forall s, s ∈ todo ->
       read_height m' (id s) =
       if truthy (read_height m (id s))
       then read_height m (id s)
       else Num (clamp (num_div T (of_nat (length (_sections l))))
                       (minHeight_of l s) (maxHeight_of l s))).
Proof.
  induction todo as [|s rest IH]; intros k m Hdrop Hnd.
  { exists m. split; [done|]. split; [done|]. intros s Hs. by apply elem_of_nil in Hs. }
  assert (_sections l !! k = Some s) as Hs.
  { pose proof (lookup_drop (_sections l) k 0) as H0.
    rewrite Hdrop, Nat.add_0_r in H0. done. }
  assert (drop (S k) (_sections l) = rest) as Hdrop'.
  { replace (S k) with (k + 1)%nat by lia. by rewrite <- drop_drop, Hdrop. }
  simpl in Hnd. apply NoDup_cons in Hnd as [Hnotin Hnd'].
  set (m1 := if truthy (read_height m (id s)) then m
             else <[id s := Num (clamp (num_div T (of_nat (length (_sections l))))
                                       (minHeight_of l s) (maxHeight_of l s))]> m).
  destruct (IH (S k) m1 Hdrop' Hnd') as (m' & Hrun & Hother & Hin).
  exists m'. split.
  { cbn [seed_loop]. unfold bind at 1, bind at 1, gets at 1.
    unfold sectionHeight_of at 1. cbn [_sectionHeights set_sectionHeights].
    replace (Z.of_nat k + 1)%Z with (Z.of_nat (S k)) by lia.
    destruct (truthy (read_height m (id s))) eqn:Etr; cbn [negb ret].
    - exact Hrun.
    - unfold bind, gets, modify, _getMinHeight, _getMaxHeight.
      cbn [_sections set_sectionHeights]. rewrite !array_get_nat, Hs.
      cbn [_sections set_sectionHeights]. rewrite !array_get_nat, Hs.
      exact Hrun. }
  split.
  { intros key Hkey. rewrite Hother.
    - unfold m1. destruct (truthy _); [done|].
      apply lookup_insert_ne. intros <-. apply Hkey. simpl. by left.
    - intros Hk. apply Hkey. simpl. by right. }
  intros s' Hs'. apply elem_of_cons in Hs' as [->|Hs'].
  - unfold read_height at 1. rewrite (Hother (id s) Hnotin). fold (read_height m1 (id s)).
    unfold m1. destruct (truthy (read_height m (id s))); [done|].
    by rewrite read_height_insert_eq.
  - rewrite (Hin s' Hs').
    assert (id s <> id s') as Hne.
    { intros Heq. apply Hnotin. rewrite Heq. apply list_elem_of_fmap. eauto. }
    unfold m1. destruct (truthy (read_height m (id s))); [done|].
    by rewrite read_height_insert_ne.
Qed.

Lemma set_sectionHeights_id l : set_sectionHeights (_sectionHeights l) l = l.
Proof. by destruct l. Qed.

Lemma set_heights_id l : set_heights (_heights l) l = l.
Proof. by destruct l. Qed.

(** The seeding step of [update] on a valid section list. *)
Lemma seed_heights_spec l :
  NoDup (map id (_sections l)) ->
  exists l',
    seed_heights l = Ret tt l' /\
    config_eq_but_stored l l' /\
    (forall key, key ∉ map id (_sections l) ->
       _sectionHeights l' !! key = _sectionHeights l !! key) /\
    (forall s, s ∈ _sections l ->
       sectionHeight_of l' (id s) =
       if truthy (sectionHeight_of l (id s)) then sectionHeight_of l (id s)
       else seed_value l s).
Proof.
  intros Hnd.
  destruct (seed_loop_spec l (_getAvailableHeight l) (_sections l) 0
              (_sectionHeights l) eq_refl Hnd) as (m' & Hrun & Hother & Hin).
  exists (set_sectionHeights m' l). split.
  { unfold seed_heights, bind, gets. rewrite <- (set_sectionHeights_id l) at 3. exact Hrun. }
  split; [done|]. split; [done|]. exact Hin.
Qed.

(* ------------------------------------------------------------------ *)
(** *** A drag keeps the heights within their bounds *)

Section triples.
Context {A B : Type}.
Implicit Types (P : Layout -> Prop) (Q : A -> Layout -> Prop).

Lemma hoare_bind P (m : M A) Q (k : A -> M B) (R : B -> Layout -> Prop) :
  hoare P m Q -> (forall a, hoare (Q a) (k a) R) -> hoare P (bind m k) R.
Proof.
  intros Hm Hk l HP. destruct (Hm l HP) as (a & l1 & Hrun & HQ).
  destruct (Hk a l1 HQ) as (b & l2 & Hrun' & HR).
  exists b, l2. split; [|done]. unfold bind. by rewrite Hrun.
Qed.

Lemma hoare_ret P (a : A) Q :
  (forall l, P l -> Q a l) -> hoare P (ret a) Q.
Proof. intros H l HP. exists a, l. split; [done|by apply H]. Qed.

Lemma hoare_gets P (f : Layout -> A) Q :
  (forall l, P l -> Q (f l) l) -> hoare P (gets f) Q.
Proof. intros H l HP. exists (f l), l. split; [done|by apply H]. Qed.
End triples.

Lemma hoare_modify (P : Layout -> Prop) (f : Layout -> Layout) (Q : unit -> Layout -> Prop) :
  (forall l, P l -> Q tt (f l)) -> hoare P (modify f) Q.
Proof. intros H l HP. exists tt, (f l). split; [done|by apply H]. Qed.

Lemma within_collapsed l l' s v :
  _collapsedState l' = _collapsedState l -> within l' s v = within l s v.
Proof.
  intros H. unfold within, minHeight_of, maxHeight_of, collapsed_of. by rewrite H.
Qed.

Lemma applyOverflow_hoare l0 blend secs oq :
  valid_indices l0 secs ->
  hoare (bounded_like l0) (_applyOverflow (Fin oq) secs blend)
        (fun r l' => bounded_like l0 l' /\ exists rq, r = Fin rq).
Proof.
  intros Hval l [Hc Hw]. destruct Hc as (Hs & Hcol & Hav & Hst).
  rewrite <- (set_heights_id l).
  assert (Forall2 (fun (_ : section) v => fin_value v = true) (_sections l) (_heights l))
    as Hfin.
  { rewrite Hs. eapply Forall2_impl; [apply Hw|]. intros s v. apply within_fin. }
  assert (valid_indices l secs) as Hval' by (unfold valid_indices; by rewrite Hs).
  destruct (applyOverflow_fin blend l (length secs) secs (_heights l) oq
              ltac:(lia) Hfin Hval') as (hs' & r & Hrun & Hf & _ & _ & Hin & _).
  exists (Fin r), (set_heights hs' l). split; [done|]. split; [|eauto].
  split; [by repeat split|].
  cbn [_heights set_heights]. rewrite Hs in Hf, Hin.
  apply Forall2_same_length_lookup. split; [by eapply Forall2_length|].
  intros j s v Hsj Hv. destruct (Hin j s v Hsj Hv) as [Hold|Hnew].
  - exact (Forall2_lookup_lr _ _ _ _ _ _ Hw Hsj Hold).
  - by rewrite <- (within_collapsed l0 l s v Hcol).
Qed.

Lemma valid_sections_above l (j : nat) :
  (j < length (_sections l))%nat -> valid_indices l (sections_above (Z.of_nat j)).
Proof.
  intros Hj. apply Forall_forall. intros x Hx.
  unfold sections_above in Hx. apply elem_of_reverse, elem_of_seqZ in Hx. lia.
Qed.

Lemma valid_sections_below l (j : nat) :
  valid_indices l (sections_below (Z.of_nat j) (length (_sections l))).
Proof.
  apply Forall_forall. intros x Hx.
  unfold sections_below in Hx. apply elem_of_seqZ in Hx. lia.
Qed.

Lemma rebalanceAbove_hoare l0 (j : nat) oq :
  (j < length (_sections l0))%nat ->
  hoare (bounded_like l0) (_rebalanceAbove (Z.of_nat j) (Fin oq))
        (fun r l' => bounded_like l0 l' /\ exists rq, r = Fin rq).
Proof.
  intros Hj. unfold _rebalanceAbove. destruct (abs_gt_1 (Fin oq)).
  - apply applyOverflow_hoare. by apply valid_sections_above.
  - apply hoare_ret. eauto.
Qed.

Lemma rebalanceBelow_hoare l0 (j : nat) oq :
  hoare (bounded_like l0) (_rebalanceBelow (Z.of_nat j) (Fin oq))
        (fun r l' => bounded_like l0 l' /\ exists rq, r = Fin rq).
Proof.
  unfold _rebalanceBelow. destruct (abs_gt_1 (Fin oq)).
  - intros l Hl. unfold bind, gets.
    destruct Hl as [Hc Hw]. pose proof Hc as (Hs & _).
    rewrite Hs. apply applyOverflow_hoare; [apply valid_sections_below|done].
  - apply hoare_ret. eauto.
Qed.

Lemma committed_heights_config l l' :
  config_eq l l' -> committed_heights l' = committed_heights l.
Proof.
  intros (Hs & _ & _ & Hst). unfold committed_heights, sectionHeight_of.
  by rewrite Hs, Hst.
Qed.

(** [_relayout] at a section of the list, by a finite offset. *)
Lemma relayout_hoare l0 fuel : forall (j : nat) s off (clamped : bool),
  ((if clamped then 1 else 2) <= fuel)%nat ->
  _sections l0 !! j = Some s ->
  Forall2 (fun s v => within l0 s v = true) (_sections l0) (committed_heights l0) ->
  hoare (config_eq l0) (_relayout_fuel fuel (Z.of_nat j) (Fin off) clamped)
        (fun _ l' => bounded_like l0 l').
Proof.
  induction fuel as [|fuel IH]; intros j s off clamped Hf Hs Hcom;
    [destruct clamped; lia|].
  pose proof (lookup_lt_Some _ _ _ Hs) as Hj.
  rewrite relayout_fuel_eq.
  (* this._heights = ... *)
  apply hoare_bind with (Q := fun _ l => bounded_like l0 l).
  { apply hoare_modify. intros l Hc. split; [by destruct Hc as (?&?&?&?)|].
    cbn [_heights set_heights].
    change (map (fun s => sectionHeight_of l (id s)) (_sections l))
      with (committed_heights l).
    by rewrite (committed_heights_config l0 l Hc). }
  intros _.
  apply hoare_bind
    with (Q := fun mx l => bounded_like l0 l /\ mx = Fin (qof (maxHeight_of l0 s))).
  { intros l Hl. pose proof Hl as [(Hsec & Hcol & _) _].
    exists (maxHeight_of l0 s), l. split.
    - unfold _getMaxHeight. rewrite array_get_nat, Hsec, Hs.
      unfold maxHeight_of, collapsed_of. by rewrite Hcol.
    - split; [done|apply maxHeight_of_qof]. }
  intros mx.
  apply hoare_bind
    with (Q := fun mn l => bounded_like l0 l /\ mx = Fin (qof (maxHeight_of l0 s)) /\
                           mn = Fin (qof (minHeight_of l0 s))).
  { intros l [Hl Hmx]. pose proof Hl as [(Hsec & Hcol & _) _].
    exists (minHeight_of l0 s), l. split.
    - unfold _getMinHeight. rewrite array_get_nat, Hsec, Hs.
      unfold minHeight_of, collapsed_of. by rewrite Hcol.
    - split; [done|]. split; [done|apply minHeight_of_qof]. }
  intros mn.
  apply hoare_bind
    with (Q := fun v l => bounded_like l0 l /\ mx = Fin (qof (maxHeight_of l0 s)) /\
                          mn = Fin (qof (minHeight_of l0 s)) /\
                          exists hq, v = Num (Fin hq) /\ _heights l !! j = Some (Num (Fin hq))).
  { apply hoare_gets. intros l (Hl & Hmx & Hmn). split; [done|]. split; [done|].
    split; [done|]. destruct Hl as [_ Hw].
    destruct (Forall2_lookup_l _ _ _ _ _ Hw Hs) as (v & Hv & Hwv).
    apply within_fin, fin_value_true in Hwv as [hq ->].
    exists hq. split; [|done]. unfold height_at. by rewrite array_get_nat, Hv. }
  intros v. cbv zeta.
  apply hoare_bind
    with (Q := fun _ l => bounded_like l0 l /\ mx = Fin (qof (maxHeight_of l0 s)) /\
                          mn = Fin (qof (minHeight_of l0 s)) /\ exists hq, v = Num (Fin hq)).
  { apply hoare_modify. intros l (Hl & Hmx & Hmn & hq & Hh & Hhj).
    split; [|eauto]. destruct Hl as [Hc Hw]. split; [by destruct Hc as (?&?&?&?)|].
    cbn [_heights set_heights]. rewrite array_set_nat by (by eapply lookup_lt_Some).
    subst. cbn [js_add toNumber clamp_value num_add].
    destruct (clamp_Fin (hq + off) _ _ (min_le_max l0 s)) as (y & -> & Hb & _).
    apply Forall2_same_length_lookup. split.
    { rewrite length_insert. by eapply Forall2_length. }
    intros k s' v Hs' Hv. destruct (decide (k = j)) as [->|Hne].
    - rewrite list_lookup_insert_eq in Hv by (by eapply lookup_lt_Some).
      injection Hv as <-. assert (s' = s) as -> by congruence.
      apply within_true. eauto.
    - rewrite list_lookup_insert_ne in Hv by done.
      exact (Forall2_lookup_lr _ _ _ _ _ _ Hw Hs' Hv). }
  intros _.
  assert (exists oaq,
    (if num_gt (toNumber (js_add v (Fin off))) mx
     then num_sub (num_sub mx (toNumber v)) (Fin off)
     else if num_lt (toNumber (js_add v (Fin off))) mn
     then num_sub (num_sub mn (toNumber v)) (Fin off)
     else of_Z 0) = Fin oaq \/
    ~ (mx = Fin (qof (maxHeight_of l0 s)) /\ mn = Fin (qof (minHeight_of l0 s)) /\
       exists hq, v = Num (Fin hq))) as [oaq Hoa].
  { destruct mx as [mxq| | |], mn as [mnq| | |], v as [|[hq| | |]|];
      try (exists 0%Q; right; intros (? & ? & ? & ?); congruence).
    cbn [js_add toNumber num_add]. destruct (num_gt _ _); [eexists; left; reflexivity|].
    destruct (num_lt _ _); eexists; left; reflexivity. }
  destruct Hoa as [Hoa|Hbad]; cycle 1.
  { intros l (_ & Hmx & Hmn & Hh). exfalso. apply Hbad. done. }
  rewrite Hoa.
  apply hoare_bind with (Q := fun r l => bounded_like l0 l /\ exists rq, r = Fin rq).
  { intros l (Hl & _). by apply rebalanceAbove_hoare. }
  intros oa.
  apply hoare_bind
    with (Q := fun r l => bounded_like l0 l /\ (exists rq, oa = Fin rq) /\
                          exists rq, r = Fin rq).
  { intros l (Hl & Hoaf).
    destruct (rebalanceBelow_hoare l0 j off l Hl) as (r & l' & Hrun & Hl' & Hr).
    exists r, l'. done. }
  intros ob.
  assert (forall off',
    hoare (fun l => bounded_like l0 l)
          (_relayout_fuel fuel (Z.of_nat j) (Fin off') true ;;; ret (Num (Fin off')))
          (fun _ l' => bounded_like l0 l') \/ clamped = true \/ fuel = 0%nat) as Hrec.
  { intros off'. destruct clamped; [by right; left|].
    destruct fuel as [|fuel']; [by right; right|]. left.
    eapply hoare_bind; [|intros ?; apply hoare_ret; intros l Hl; exact Hl].
    intros l Hl. eapply (IH j s off' true); [lia|done|done|apply Hl]. }
  intros l (Hl & [oaq' ->] & [obq ->]).
  destruct clamped; cbn [negb andb].
  - eapply hoare_bind; [|intros ?; apply hoare_ret; intros l1 Hl1; exact Hl1| exact Hl].
    apply hoare_modify. intros l1 [Hc1 Hw1]. split; [by destruct Hc1 as (?&?&?&?)|done].
  - destruct (abs_gt_1 (Fin oaq')).
    { destruct (Hrec (off + oaq')%Q) as [H|[?|?]]; [|done|lia]. by apply H. }
    destruct (abs_gt_1 (Fin obq)).
    { destruct (Hrec (off - obq)%Q) as [H|[?|?]]; [|done|lia]. by apply H. }
    eapply hoare_bind; [|intros ?; apply hoare_ret; intros l1 Hl1; exact Hl1| exact Hl].
    apply hoare_modify. intros l1 [Hc1 Hw1]. split; [by destruct Hc1 as (?&?&?&?)|done].
Qed.

(* ------------------------------------------------------------------ *)
(** *** Every operation keeps a layout well-formed *)

Lemma well_formed_bounded_like l l' :
  well_formed l = true -> bounded_like l l' -> well_formed l' = true.
Proof.
  rewrite !well_formed_true. intros (Hnd & Hav & Hst & Hcom & _) [Hc Hw].
  pose proof (committed_heights_config l l' Hc) as Hcom'.
  destruct Hc as (Hs & Hcol & Hav' & Hst').
  rewrite Hs, Hav', Hst', Hcom'.
  split; [done|]. split; [done|]. split; [done|].
  split; (eapply Forall2_impl; [eassumption|]); intros s v;
    by rewrite (within_collapsed l l' s v Hcol).
Qed.

Lemma findIndex_from_spec ss : forall (k : nat) i,
  findIndex_from (Z.of_nat k) i ss = (-1)%Z /\ i ∉ map id ss \/
  exists j s, findIndex_from (Z.of_nat k) i ss = Z.of_nat (k + j) /\
              ss !! j = Some s /\ id s = i.
Proof.
  induction ss as [|s ss IH]; intros k i.
  - left. split; [done|]. apply not_elem_of_nil.
  - simpl. destruct (String.eqb_spec (id s) i) as [Heq|Hne].
    + right. exists 0%nat, s. rewrite Nat.add_0_r. done.
    + replace (Z.of_nat k + 1)%Z with (Z.of_nat (S k)) by lia.
      destruct (IH (S k) i) as [[-> Hnot]|(j & s' & -> & Hs' & Hid)].
      * left. split; [done|]. rewrite not_elem_of_cons. done.
      * right. exists (S j), s'. split; [f_equal; lia|done].
Qed.

Lemma getSectionIndex_spec l i :
  _getSectionIndex l i = (-1)%Z /\ i ∉ map id (_sections l) \/
  exists j s, _getSectionIndex l i = Z.of_nat j /\
              _sections l !! j = Some s /\ id s = i.
Proof. apply (findIndex_from_spec (_sections l) 0 i). Qed.

(** At an anchor outside the list [_relayout] throws, after resetting the
    in-progress heights to the committed ones. *)
Lemma relayout_throws fuel anchor offset clamped l :
  array_get (_sections l) anchor = None ->
  _relayout_fuel (S fuel) anchor offset clamped l =
  Throw (set_heights (committed_heights l) l).
Proof.
  intros H. rewrite relayout_fuel_eq.
  unfold bind, load_heights, modify, _getMaxHeight.
  cbn [_sections set_heights]. by rewrite H.
Qed.

Lemma well_formed_load l :
  well_formed l = true -> bounded_like l (set_heights (committed_heights l) l).
Proof.
  rewrite well_formed_true. intros (_ & _ & _ & Hcom & _).
  split; [by repeat split|done].
Qed.

Lemma setHeight_well_formed l h height :
  well_formed l = true -> handle_ok h = true -> isFinite height = true ->
  exists l', state_of (setHeight h height l) = Some l' /\ bounded_like l l' /\
    (is_Some (array_get (_sections l) (_anchor h)) ->
     setHeight h height l = Ret h l').
Proof.
  intros Hwf Hh Hfin. unfold setHeight, bind, _relayout.
  destruct (array_get (_sections l) (_anchor h)) as [s|] eqn:Ha.
  - apply array_get_Some in Ha as (j & Hj & Hs).
    apply isFinite_true in Hfin as [hq ->].
    unfold handle_ok in Hh. apply orb_true_iff in Hh as [Hh|Hh]; [|lia].
    apply fin_value_true in Hh as [iq ->]. rewrite Hj. cbn [toNumber]. rewrite num_sub_Fin.
    apply well_formed_true in Hwf as (_ & _ & _ & Hcom & _).
    destruct (relayout_hoare l 2 j s (hq - iq) false ltac:(simpl; lia) Hs Hcom l
                (config_eq_refl l)) as (v & l' & -> & Hl').
    exists l'. split; [done|]. split; [done|]. done.
  - rewrite relayout_throws by done.
    exists (set_heights (committed_heights l) l). split; [done|].
    split; [by apply well_formed_load|]. by intros [? ?].
Qed.

Lemma finish_well_formed l h :
  well_formed l = true ->
  exists l', finish h l = Ret h l' /\ well_formed l' = true /\
    _sections l' = _sections l /\ _collapsedState l' = _collapsedState l /\
    committed_heights l' = _heights l.
Proof.
  intros Hwf. pose proof Hwf as Hwf'.
  apply well_formed_true in Hwf as (Hnd & Hav & Hst & Hcom & Hw).
  pose proof (Forall2_length _ _ _ Hw) as Hlen.
  set (l' := set_sectionHeights
               (commit_loop (_heights l) (_sections l) (_sectionHeights l)) l).
  assert (committed_heights l' = _heights l) as Hc
    by (by apply committed_after_commit).
  exists l'. split; [done|]. split; [|done].
  apply well_formed_true. rewrite Hc.
  split; [done|]. split; [done|]. split; [|done].
  apply commit_loop_finite; [lia| |done].
  apply Forall_lookup. intros j v Hv.
  destruct (lookup_lt_is_Some_2 (_sections l) j) as [s Hs].
  { rewrite Hlen. by eapply lookup_lt_Some. }
  eapply within_fin. exact (Forall2_lookup_lr _ _ _ _ _ _ Hw Hs Hv).
Qed.

Lemma committed_finite l :
  Forall2 (fun s v => within l s v = true) (_sections l) (committed_heights l) ->
  Forall (fun s => fin_value (sectionHeight_of l (id s)) = true) (_sections l).
Proof.
  intros H. apply Forall_lookup. intros j s Hs.
  destruct (Forall2_lookup_l _ _ _ _ _ H Hs) as (v & Hv & Hwv).
  unfold committed_heights in Hv. rewrite list_lookup_fmap, Hs in Hv.
  injection Hv as <-. by eapply within_fin.
Qed.

(** [_applyNewSize] after a change of the available height or of the
    collapsed state of a well-formed layout. *)
Lemma applyNewSize_reconfigured l c a :
  well_formed l = true -> isFinite a = true ->
  exists l' r,
    _applyNewSize (set_availableHeight a (set_collapsedState c l)) = Ret tt l' /\
    _sections l' = _sections l /\
    _collapsedState l' = c /\
    _availableHeight l' = a /\
    well_formed l' = true /\
    (committed_sum l' == target_height l' + r)%Q /\
    (abs_gt_1 (Fin r) = false \/
     all2 (at_bound l') (_sections l') (committed_heights l') = true).
Proof.
  intros Hwf Ha. apply isFinite_true in Ha as [aq ->].
  apply well_formed_true in Hwf as (Hnd & _ & Hst & Hcom & _).
  apply committed_finite in Hcom.
  destruct (applyNewSize_spec (set_availableHeight (Fin aq) (set_collapsedState c l)) aq)
    as (l' & r & Hrun & Hs & Hc & Hav & Hrest); try done.
  exists l', r. done.
Qed.

Lemma set_availableHeight_id l : set_availableHeight (_availableHeight l) l = l.
Proof. by destruct l. Qed.

Lemma set_collapsedState_id l : set_collapsedState (_collapsedState l) l = l.
Proof. by destruct l. Qed.

Lemma seed_value_fin l s aq :
  _availableHeight l = Fin aq -> _sections l <> [] ->
  fin_value (seed_value l s) = true.
Proof.
  intros Ha Hne. unfold seed_value.
  rewrite (getAvailableHeight_fin l aq Ha), num_div_of_nat by (by destruct (_sections l)).
  rewrite (minHeight_of_qof l s), (maxHeight_of_qof l s).
  by destruct (clamp_Fin (((aq - inject_Z ((nonCollapsedSectionCount l - 1) * handleHeight))
                          / inject_Z (Z.of_nat (length (_sections l))))%Q)
                 _ _ (min_le_max l s)) as (y & -> & _).
Qed.

Lemma truthy_Some (m : gmap string value) k :
  truthy (read_height m k) = true -> plain (read_height m k) = true ->
  exists v, m !! k = Some v.
Proof.
  unfold read_height. destruct (m !! k); [eauto|]. simpl. by destruct (inherited k).
Qed.

Lemma plain_heights_true l ss :
  plain_heights l ss = true <->
  forall s, s ∈ ss -> plain (sectionHeight_of l (id s)) = true.
Proof.
  unfold plain_heights. rewrite forallb_forall. split.
  - intros H s Hs. apply H. by apply list_elem_of_In.
  - intros H s Hs. apply H. by apply list_elem_of_In.
Qed.

(** The redistributing path of [update]. *)
Lemma seed_then_applyNewSize l :
  NoDup (map id (_sections l)) ->
  isFinite (_availableHeight l) = true ->
  map_Forall (fun _ v => fin_value v = true) (_sectionHeights l) ->
  plain_heights l (_sections l) = true ->
  exists l' r,
    (seed_heights ;;; _applyNewSize) l = Ret tt l' /\
    _sections l' = _sections l /\
    _collapsedState l' = _collapsedState l /\
    _availableHeight l' = _availableHeight l /\
    well_formed l' = true /\
    (committed_sum l' == target_height l' + r)%Q /\
    (abs_gt_1 (Fin r) = false \/
     all2 (at_bound l') (_sections l') (committed_heights l') = true).
Proof.
  intros Hnd Ha Hst Hpl. apply isFinite_true in Ha as [aq Ha].
  rewrite plain_heights_true in Hpl.
  destruct (seed_heights_spec l Hnd) as (l1 & Hseed & (Hs & Hc & Hav & _) & Hother & Hin).
  assert (forall s, s ∈ _sections l -> fin_value (sectionHeight_of l1 (id s)) = true) as Hfin.
  { intros s Hs'. rewrite (Hin s Hs').
    destruct (truthy (sectionHeight_of l (id s))) eqn:Etr.
    - destruct (truthy_Some _ _ Etr (Hpl s Hs')) as [v Hv].
      unfold sectionHeight_of, read_height. rewrite Hv.
      by apply (Hst _ _ Hv).
    - apply (seed_value_fin l s aq Ha). intros E. rewrite E in Hs'.
      by apply elem_of_nil in Hs'. }
  destruct (applyNewSize_spec l1 aq) as (l' & r & Hrun & Hs' & Hc' & Hav' & Hrest).
  - by rewrite Hs.
  - by rewrite Hav.
  - intros k v Hv. destruct (decide (k ∈ map id (_sections l))) as [Hk|Hk].
    + apply list_elem_of_fmap in Hk as (s & -> & Hs').
      specialize (Hfin s Hs'). unfold sectionHeight_of, read_height in Hfin. by rewrite Hv in Hfin.
    + rewrite (Hother k Hk) in Hv. by apply (Hst _ _ Hv).
  - rewrite Hs. apply Forall_forall. intros s Hs'. by apply Hfin.
  - exists l', r. split.
    { unfold bind. by rewrite Hseed. }
    split; [congruence|]. split; [congruence|]. split; [congruence|]. done.
Qed.

(* ------------------------------------------------------------------ *)
(** *** Computations that return *)

Lemma returns_bind {A B : Type} ss (m : M A) (k : A -> M B) :
  returns ss m -> frames m -> (forall a, returns ss (k a)) -> returns ss (bind m k).
Proof.
  intros Hm Hf Hk l Hl. destruct (Hm l Hl) as (a & l1 & Hrun).
  pose proof (Hf l) as Hfr. rewrite Hrun in Hfr. destruct Hfr as (Hs & _).
  destruct (Hk a l1 ltac:(congruence)) as (b & l2 & Hrun').
  exists b, l2. unfold bind. by rewrite Hrun.
Qed.

Lemma returns_ret {A : Type} ss (a : A) : returns ss (ret a).
Proof. intros l _. by exists a, l. Qed.

Lemma returns_gets {A : Type} ss (f : Layout -> A) : returns ss (gets f).
Proof. intros l _. by exists (f l), l. Qed.

Lemma returns_modify ss f : returns ss (modify f).
Proof. intros l _. by exists tt, (f l). Qed.

Lemma array_get_valid {A : Type} (xs : list A) i :
  (0 <= i < Z.of_nat (length xs))%Z -> exists x, array_get xs i = Some x.
Proof.
  intros Hi. unfold array_get. destruct (Z.ltb_spec i 0); [lia|].
  apply lookup_lt_is_Some_2. lia.
Qed.

Lemma returns_getMinHeight ss i :
  (0 <= i < Z.of_nat (length ss))%Z -> returns ss (_getMinHeight i).
Proof.
  intros Hi l <-. unfold _getMinHeight.
  destruct (array_get_valid _ _ Hi) as [s ->]. eauto.
Qed.

Lemma returns_getMaxHeight ss i :
  (0 <= i < Z.of_nat (length ss))%Z -> returns ss (_getMaxHeight i).
Proof.
  intros Hi l <-. unfold _getMaxHeight.
  destruct (array_get_valid _ _ Hi) as [s ->]. eauto.
Qed.

Lemma frames_overflow_step blend i o p U : frames (overflow_step blend i o p U).
Proof.
  unfold overflow_step.
  apply frames_bind; [apply frames_gets|intros h].
  apply frames_bind; [apply frames_getMinHeight|intros mn].
  apply frames_bind; [apply frames_getMaxHeight|intros mx].
  apply frames_bind; [|intros _; apply frames_ret].
  apply frames_modify. intros l. by repeat split.
Qed.

Lemma returns_overflow_step ss blend i o p U :
  (0 <= i < Z.of_nat (length ss))%Z -> returns ss (overflow_step blend i o p U).
Proof.
  intros Hi. unfold overflow_step.
  apply returns_bind; [apply returns_gets|apply frames_gets|intros h].
  apply returns_bind; [by apply returns_getMinHeight|apply frames_getMinHeight|intros mn].
  apply returns_bind; [by apply returns_getMaxHeight|apply frames_getMaxHeight|intros mx].
  apply returns_bind; [apply returns_modify| |intros _; apply returns_ret].
  apply frames_modify. intros l. by repeat split.
Qed.

Lemma frames_overflow_loop blend secs : forall o p U,
  frames (overflow_loop blend secs o p U).
Proof.
  induction secs as [|i rest IH]; intros o p U; [apply frames_ret|].
  cbn [overflow_loop]. apply frames_bind; [apply frames_overflow_step|].
  intros [o' U']. destruct blend; [apply IH|].
  destruct (abs_lt_1 o'); [apply frames_ret|apply IH].
Qed.

Lemma returns_overflow_loop ss blend secs : forall o p U,
  valid_in ss secs -> returns ss (overflow_loop blend secs o p U).
Proof.
  induction secs as [|i rest IH]; intros o p U Hval; [apply returns_ret|].
  inversion Hval; subst.
  cbn [overflow_loop].
  apply returns_bind; [by apply returns_overflow_step|apply frames_overflow_step|].
  intros [o' U']. destruct blend; [by apply IH|].
  destruct (abs_lt_1 o'); [apply returns_ret|by apply IH].
Qed.

(** The unclamped sections of a pass are sections of the pass. *)
Lemma overflow_loop_unclamped blend secs : forall o p U l o' U' l',
  overflow_loop blend secs o p U l = Ret (o', U') l' ->
  forall x, x ∈ U' -> x ∈ U \/ x ∈ secs.
Proof.
  induction secs as [|i rest IH]; intros o p U l o' U' l' Hrun x Hx.
  { injection Hrun as <- <- <-. by left. }
  cbn [overflow_loop] in Hrun. unfold bind at 1 in Hrun.
  pose proof (overflow_step_spec blend i o p U l) as Hs.
  destruct (overflow_step blend i o p U l) as [[o1 U1] l1| |]; [|done|done].
  destruct Hs as [_ HU].
  assert (x ∈ U1 -> x ∈ U \/ x ∈ i :: rest) as H1.
  { destruct HU as [->|[-> _]]; [by left|].
    rewrite elem_of_app, list_elem_of_singleton. intros [?| ->]; [by left|right; by left]. }
  assert (x ∈ U1 \/ x ∈ rest -> x ∈ U \/ x ∈ i :: rest) as H2.
  { intros [?|?]; [by apply H1|right; by right]. }
  destruct blend.
  - apply H2. by eapply IH.
  - destruct (abs_lt_1 o1).
    + injection Hrun as <- <- <-. by apply H1.
    + apply H2. by eapply IH.
Qed.

Lemma returns_applyOverflow_fuel ss fuel : forall o secs blend,
  (length secs < fuel)%nat -> valid_in ss secs ->
  returns ss (_applyOverflow_fuel fuel o secs blend).
Proof.
  induction fuel as [|fuel IH]; intros o secs blend Hf Hval l Hl; [lia|].
  cbn [_applyOverflow_fuel]. unfold bind.
  destruct (returns_overflow_loop ss blend secs o
              (if blend then num_div o (of_nat (length secs)) else o) [] Hval l Hl)
    as ([o' U'] & l' & Hrun).
  rewrite Hrun.
  destruct (abs_gt_1 o' && negb (length U' =? 0)%nat) eqn:E; [|by eexists _, _].
  apply IH.
  - pose proof (recursion_shrinks _ _ _ _ _ _ _ Hrun E). lia.
  - apply Forall_forall. intros x Hx.
    destruct (overflow_loop_unclamped _ _ _ _ _ _ _ _ _ Hrun x Hx) as [Hx'|Hx'];
      [by apply elem_of_nil in Hx'|].
    by apply (proj1 (Forall_forall _ _) Hval).
  - pose proof (frames_overflow_loop blend secs o
                  (if blend then num_div o (of_nat (length secs)) else o) [] l) as Hfr.
    rewrite Hrun in Hfr. destruct Hfr as (Hs & _). congruence.
Qed.

Lemma returns_applyOverflow ss o secs blend :
  valid_in ss secs -> returns ss (_applyOverflow o secs blend).
Proof. apply returns_applyOverflow_fuel. lia. Qed.

Lemma returns_rebalanceAbove ss anchor o :
  (0 <= anchor < Z.of_nat (length ss))%Z -> returns ss (_rebalanceAbove anchor o).
Proof.
  intros Ha. unfold _rebalanceAbove. destruct (abs_gt_1 o); [|apply returns_ret].
  apply returns_applyOverflow. apply Forall_forall. intros x Hx.
  unfold sections_above in Hx. apply elem_of_reverse, elem_of_seqZ in Hx. lia.
Qed.

Lemma returns_rebalanceBelow ss anchor o :
  (0 <= anchor < Z.of_nat (length ss))%Z -> returns ss (_rebalanceBelow anchor o).
Proof.
  intros Ha. unfold _rebalanceBelow. destruct (abs_gt_1 o); [|apply returns_ret].
  intros l Hl. unfold bind, gets. rewrite Hl.
  apply (returns_applyOverflow ss); [|done]. apply Forall_forall. intros x Hx.
  unfold sections_below in Hx. apply elem_of_seqZ in Hx. lia.
Qed.

(** At a section of the list [_relayout] returns, whatever the numbers. *)
Lemma returns_relayout_fuel ss fuel : forall anchor offset (clamped : bool),
  ((if clamped then 1 else 2) <= fuel)%nat ->
  (0 <= anchor < Z.of_nat (length ss))%Z ->
  returns ss (_relayout_fuel fuel anchor offset clamped).
Proof.
  induction fuel as [|fuel IH]; intros anchor offset clamped Hf Ha;
    [destruct clamped; lia|].
  rewrite relayout_fuel_eq.
  apply returns_bind; [apply returns_modify|apply frames_load_heights|intros _].
  apply returns_bind; [by apply returns_getMaxHeight|apply frames_getMaxHeight|intros mx].
  apply returns_bind; [by apply returns_getMinHeight|apply frames_getMinHeight|intros mn].
  apply returns_bind; [apply returns_gets|apply frames_gets|intros h].
  apply returns_bind; [apply returns_modify| |intros _].
  { apply frames_modify. intros l. by repeat split. }
  apply returns_bind; [by apply returns_rebalanceAbove|apply frames_rebalanceAbove|intros oa].
  apply returns_bind; [by apply returns_rebalanceBelow|apply frames_rebalanceBelow|intros ob].
  destruct clamped; cbn [negb andb].
  - apply returns_bind; [apply returns_modify|apply frames_applyHeights|].
    intros _; apply returns_ret.
  - destruct (abs_gt_1 oa).
    { apply returns_bind; [apply IH; [simpl; lia|done]| |intros _; apply returns_ret].
      apply relayout_fuel_ends. simpl. lia. }
    destruct (abs_gt_1 ob).
    { apply returns_bind; [apply IH; [simpl; lia|done]| |intros _; apply returns_ret].
      apply relayout_fuel_ends. simpl. lia. }
    apply returns_bind; [apply returns_modify|apply frames_applyHeights|].
    intros _; apply returns_ret.
Qed.

(* ------------------------------------------------------------------ *)
(** *** The record of callback calls is never read *)

Lemma sim_bind {A B : Type} (m : M A) (k : A -> M B) :
  sim m -> (forall a, sim (k a)) -> sim (bind m k).
Proof.
  intros Hm Hk l l' Hl. unfold bind. specialize (Hm l l' Hl).
  destruct (m l) as [a l1|l1|], (m l') as [a' l1'|l1'|]; simpl in Hm; try done.
  destruct Hm as [<- Hl1]. by apply Hk.
Qed.

Lemma sim_ret {A : Type} (a : A) : sim (ret a).
Proof. intros l l' Hl. done. Qed.

Lemma sim_gets {A : Type} (f : Layout -> A) :
  (forall l l', same_but_log l l' -> f l = f l') -> sim (gets f).
Proof. intros H l l' Hl. split; [by apply H|done]. Qed.

Lemma sim_modify (f : Layout -> Layout) :
  (forall l l', same_but_log l l' -> same_but_log (f l) (f l')) -> sim (modify f).
Proof. intros H l l' Hl. split; [done|by apply H]. Qed.

Lemma sim_getMinHeight i : sim (_getMinHeight i).
Proof.
  intros l l' [(Hs & Hc & Ha & Hst) Hh]. unfold _getMinHeight. rewrite Hs.
  destruct (array_get _ _); simpl; [|by repeat split].
  split; [|by repeat split]. unfold minHeight_of, collapsed_of. by rewrite Hc.
Qed.

Lemma sim_getMaxHeight i : sim (_getMaxHeight i).
Proof.
  intros l l' [(Hs & Hc & Ha & Hst) Hh]. unfold _getMaxHeight. rewrite Hs.
  destruct (array_get _ _); simpl; [|by repeat split].
  split; [|by repeat split]. unfold maxHeight_of, collapsed_of. by rewrite Hc.
Qed.

Lemma sim_set_height i v :
  sim (modify (fun l => set_heights (array_set (_heights l) i v) l)).
Proof.
  apply sim_modify. intros l l' [(Hs & Hc & Ha & Hst) Hh].
  split; [by repeat split|]. cbn [_heights set_heights]. by rewrite Hh.
Qed.

Lemma sim_height_at i : sim (gets (fun l => toNumber (height_at l i))).
Proof. apply sim_gets. intros l l' [_ Hh]. unfold height_at. by rewrite Hh. Qed.

Lemma sim_height_value i : sim (gets (fun l => height_at l i)).
Proof. apply sim_gets. intros l l' [_ Hh]. unfold height_at. by rewrite Hh. Qed.

Lemma sim_overflow_step blend i o p U : sim (overflow_step blend i o p U).
Proof.
  unfold overflow_step.
  apply sim_bind; [apply sim_height_at|intros h].
  apply sim_bind; [apply sim_getMinHeight|intros mn].
  apply sim_bind; [apply sim_getMaxHeight|intros mx].
  apply sim_bind; [apply sim_set_height|intros _; apply sim_ret].
Qed.

Lemma sim_overflow_loop blend secs : forall o p U, sim (overflow_loop blend secs o p U).
Proof.
  induction secs as [|i rest IH]; intros o p U; [apply sim_ret|].
  cbn [overflow_loop]. apply sim_bind; [apply sim_overflow_step|].
  intros [o' U']. destruct blend; [apply IH|].
  destruct (abs_lt_1 o'); [apply sim_ret|apply IH].
Qed.

Lemma sim_applyOverflow_fuel fuel : forall o secs blend,
  sim (_applyOverflow_fuel fuel o secs blend).
Proof.
  induction fuel as [|fuel IH]; intros o secs blend; [by intros l l' _|].
  cbn [_applyOverflow_fuel]. apply sim_bind; [apply sim_overflow_loop|].
  intros [o' U']. destruct (_ && _); [apply IH|apply sim_ret].
Qed.

Lemma sim_rebalanceAbove anchor o : sim (_rebalanceAbove anchor o).
Proof.
  unfold _rebalanceAbove. destruct (abs_gt_1 o); [|apply sim_ret].
  apply sim_applyOverflow_fuel.
Qed.

Lemma sim_rebalanceBelow anchor o : sim (_rebalanceBelow anchor o).
Proof.
  unfold _rebalanceBelow. destruct (abs_gt_1 o); [|apply sim_ret].
  apply sim_bind; [|intros len; apply sim_applyOverflow_fuel].
  apply sim_gets. intros l l' [(Hs & _) _]. by rewrite Hs.
Qed.

Lemma sim_applyHeights : sim _applyHeights.
Proof.
  apply sim_modify. intros l l' [(Hs & Hc & Ha & Hst) Hh]. by repeat split.
Qed.

Lemma sim_load_heights : sim load_heights.
Proof.
  apply sim_modify. intros l l' [(Hs & Hc & Ha & Hst) Hh].
  split; [by repeat split|]. cbn [_heights set_heights].
  unfold sectionHeight_of, read_height. by rewrite Hs, Hst.
Qed.

Lemma sim_relayout_fuel fuel : forall anchor offset clamped,
  sim (_relayout_fuel fuel anchor offset clamped).
Proof.
  induction fuel as [|fuel IH]; intros anchor offset clamped; [by intros l l' _|].
  rewrite relayout_fuel_eq.
  apply sim_bind; [apply sim_load_heights|intros _].
  apply sim_bind; [apply sim_getMaxHeight|intros mx].
  apply sim_bind; [apply sim_getMinHeight|intros mn].
  apply sim_bind; [apply sim_height_value|intros v]. cbv zeta.
  apply sim_bind; [apply sim_set_height|intros _].
  apply sim_bind; [apply sim_rebalanceAbove|intros oa].
  apply sim_bind; [apply sim_rebalanceBelow|intros ob].
  destruct (negb clamped && abs_gt_1 oa).
  { apply sim_bind; [apply IH|intros _; apply sim_ret]. }
  destruct (negb clamped && abs_gt_1 ob).
  { apply sim_bind; [apply IH|intros _; apply sim_ret]. }
  apply sim_bind; [apply sim_applyHeights|intros _; apply sim_ret].
Qed.

(** [_relayout] starts from the committed heights: the in-progress heights
    it finds do not matter. *)
Lemma relayout_fuel_ignores_heights fuel anchor offset clamped hs l :
  _relayout_fuel fuel anchor offset clamped (set_heights hs l) =
  _relayout_fuel fuel anchor offset clamped l.
Proof.
  destruct fuel as [|fuel]; [done|].
  rewrite relayout_fuel_eq. unfold bind at 1 3. reflexivity.
Qed.


(* ------------------------------------------------------------------ *)
(** *** The operations on a well-formed layout *)

Lemma update_eq ss a l :
  update ss a l =
  let heightChanged := isFinite a && negb (num_eq a (_availableHeight l)) in
  let l1 := if heightChanged then set_availableHeight a l else l in
  if negb heightChanged && negb (sectionsChanged ss (_sections l)) then Ret tt l1
  else (seed_heights ;;; _applyNewSize) (set_sections ss l1).
Proof.
  unfold update, bind, gets, modify, ret. cbn zeta.
  destruct (isFinite a && negb (num_eq a (_availableHeight l)));
    cbn [negb andb _sections set_availableHeight]; [done|].
  by destruct (sectionsChanged ss (_sections l)).
Qed.

Lemma update_spec ss a l :
  well_formed l = true -> valid_sections ss = true -> plain_heights l ss = true ->
  update_returns_early ss a l = true /\ update ss a l = Ret tt l \/
  update_returns_early ss a l = false /\
  exists l' r, update ss a l = Ret tt l' /\ _sections l' = ss /\
    _collapsedState l' = _collapsedState l /\ redistributed l' r.
Proof.
  intros Hwf Hss Hpl. rewrite update_eq. unfold update_returns_early. cbn zeta.
  apply well_formed_true in Hwf as (_ & Hav & Hst & _).
  apply bool_decide_eq_true in Hss.
  destruct (isFinite a && negb (num_eq a (_availableHeight l))) eqn:Ehc.
  - right. split; [done|]. cbn [negb andb].
    apply andb_true_iff in Ehc as [Hfa _].
    destruct (seed_then_applyNewSize (set_sections ss (set_availableHeight a l)))
      as (l' & r & Hrun & Hs & Hc & _ & Hrest); try done.
    exists l', r. done.
  - cbn [negb andb]. destruct (sectionsChanged ss (_sections l)); cbn [negb].
    + right. split; [done|].
      destruct (seed_then_applyNewSize (set_sections ss l))
        as (l' & r & Hrun & Hs & Hc & _ & Hrest); try done.
      exists l', r. done.
    + by left.
Qed.

Lemma setAvailableHeight_spec a l :
  well_formed l = true -> isFinite a = true ->
  exists l' r, setAvailableHeight a l = Ret tt l' /\ _sections l' = _sections l /\
    _collapsedState l' = _collapsedState l /\ redistributed l' r.
Proof.
  intros Hwf Ha.
  destruct (applyNewSize_reconfigured l (_collapsedState l) a Hwf Ha)
    as (l' & r & Hrun & Hs & Hc & _ & Hrest).
  rewrite set_collapsedState_id in Hrun.
  exists l', r. done.
Qed.

Lemma collapsed_spec (c : bool) i l :
  well_formed l = true ->
  exists l' r,
    _applyNewSize (set_collapsedState (<[i := c]> (_collapsedState l)) l) = Ret tt l' /\
    _sections l' = _sections l /\
    _collapsedState l' = <[i := c]> (_collapsedState l) /\ redistributed l' r.
Proof.
  intros Hwf. pose proof Hwf as Hwf'.
  apply well_formed_true in Hwf' as (_ & Hav & _).
  destruct (applyNewSize_reconfigured l (<[i := c]> (_collapsedState l))
              (_availableHeight l) Hwf Hav)
    as (l' & r & Hrun & Hs & Hc & _ & Hrest).
  replace (set_availableHeight (_availableHeight l)
             (set_collapsedState (<[i := c]> (_collapsedState l)) l))
    with (set_collapsedState (<[i := c]> (_collapsedState l)) l) in Hrun
    by (by destruct l).
  exists l', r. done.
Qed.

Lemma collapseSection_spec i l :
  well_formed l = true ->
  exists l' r, collapseSection i l = Ret tt l' /\ _sections l' = _sections l /\
    _collapsedState l' = <[i := true]> (_collapsedState l) /\ redistributed l' r.
Proof. apply collapsed_spec. Qed.

Lemma openHandle_eq i l :
  openHandle i l = Ret (mkHandle (_getSectionIndex l i) (sectionHeight_of l i)) l.
Proof. done. Qed.

Lemma well_formed_committed l j s :
  well_formed l = true -> _sections l !! j = Some s ->
  within l s (sectionHeight_of l (id s)) = true.
Proof.
  intros Hwf Hs. apply well_formed_true in Hwf as (_ & _ & _ & Hcom & _).
  destruct (Forall2_lookup_l _ _ _ _ _ Hcom Hs) as (v & Hv & Hwv).
  unfold committed_heights in Hv. rewrite list_lookup_fmap, Hs in Hv.
  by injection Hv as <-.
Qed.

Lemma openHandle_ok i l :
  well_formed l = true ->
  handle_ok (mkHandle (_getSectionIndex l i) (sectionHeight_of l i)) = true.
Proof.
  intros Hwf. unfold handle_ok. cbn [_anchor _initialHeight].
  destruct (getSectionIndex_spec l i) as [[-> _]|(j & s & -> & Hs & <-)].
  - by rewrite orb_true_r.
  - by rewrite (within_fin _ _ _ (well_formed_committed l j s Hwf Hs)).
Qed.

Lemma expandSection_spec i height l :
  well_formed l = true -> isFinite height = true ->
  exists l', state_of (expandSection i height l) = Some l' /\
    well_formed l' = true /\ _sections l' = _sections l /\
    _collapsedState l' = <[i := false]> (_collapsedState l) /\
    (i ∈ map id (_sections l) -> expandSection i height l = Ret tt l').
Proof.
  intros Hwf Hh.
  destruct (collapsed_spec false i l Hwf) as (l1 & r & Hrun & Hs1 & Hc1 & Hwf1 & _).
  set (h := mkHandle (_getSectionIndex l1 i) (sectionHeight_of l1 i)).
  assert (expandSection i height l =
          match setHeight h height l1 with
          | Ret h' l2 =>
              match finish h' l2 with
              | Ret _ l3 => Ret tt l3
              | Throw l3 => Throw l3
              | OutOfFuel => OutOfFuel
              end
          | Throw l2 => Throw l2
          | OutOfFuel => OutOfFuel
          end) as ->.
  { unfold expandSection, bind, modify. by rewrite Hrun. }
  destruct (setHeight_well_formed l1 h height Hwf1 (openHandle_ok i l1 Hwf1) Hh)
    as (l2 & Hst & Hb & Hret).
  pose proof (well_formed_bounded_like l1 l2 Hwf1 Hb) as Hwf2.
  destruct Hb as [(Hs2 & Hc2 & _) _].
  destruct (setHeight h height l1) as [h' l2'|l2'|] eqn:Eset; [| |done];
    injection Hst as ->.
  - destruct (finish_well_formed l2 h' Hwf2) as (l3 & Hfin & Hwf3 & Hs3 & Hc3 & _).
    rewrite Hfin. exists l3.
    split; [done|]. split; [done|]. split; [congruence|]. split; [congruence|done].
  - exists l2. split; [done|]. split; [done|]. split; [congruence|].
    split; [congruence|].
    intros Hi. exfalso.
    destruct (getSectionIndex_spec l1 i) as [[_ Hnot]|(j & s & Hidx & Hs & _)].
    + apply Hnot. by rewrite Hs1.
    + assert (is_Some (array_get (_sections l1) (_anchor h))) as Hsome.
      { unfold h. cbn [_anchor]. rewrite Hidx, array_get_nat. eauto. }
      specialize (Hret Hsome). congruence.
Qed.

(** Every operation ends and keeps the layout well-formed. *)
Lemma moderate_finite x : moderate x = true -> isFinite x = true.
Proof. by destruct x. Qed.

Lemma moderate_fin_value v : moderate (toNumber v) = true -> fin_value v = true.
Proof. by destruct v as [|[]|]. Qed.

Lemma run_well_formed op l :
  well_formed l = true -> operation_fits op l = true ->
  exists l', state_of (run op l) = Some l' /\ well_formed l' = true.
Proof.
  intros Hwf Hok. destruct op as [ss a|a|i|i height|h height|h]; cbn [run operation_fits] in *.
  - apply andb_true_iff in Hok as [Hok Hpl].
    destruct (update_spec ss a l Hwf Hok Hpl)
      as [[_ ->]|(_ & l' & r & -> & _ & _ & Hwf' & _)]; eauto.
  - destruct (setAvailableHeight_spec a l Hwf Hok) as (l' & r & -> & _ & _ & Hwf' & _).
    eauto.
  - destruct (collapseSection_spec i l Hwf) as (l' & r & -> & _ & _ & Hwf' & _). eauto.
  - destruct (expandSection_spec i height l Hwf Hok) as (l' & Hst & Hwf' & _). eauto.
  - apply andb_true_iff in Hok as [Hh Hfin]. apply moderate_finite in Hfin.
    assert (handle_ok h = true) as Hh'.
    { unfold handle_ok. apply orb_true_iff in Hh as [Hh|Hh].
      - rewrite Hh. apply orb_true_r.
      - by rewrite (moderate_fin_value _ Hh). }
    destruct (setHeight_well_formed l h height Hwf Hh' Hfin) as (l' & Hst & Hb & _).
    exists l'. split; [|by eapply well_formed_bounded_like].
    unfold bind. by destruct (setHeight h height l).
  - destruct (finish_well_formed l h Hwf) as (l' & Hrun & Hwf' & _).
    exists l'. split; [|done]. unfold bind. by rewrite Hrun.
Qed.

(* ------------------------------------------------------------------ *)
(** *** Every operation ends *)

Lemma ends_bind {A B : Type} (m : M A) (k : A -> M B) :
  ends m -> (forall a, ends (k a)) -> ends (bind m k).
Proof.
  intros Hm Hk l. unfold bind. specialize (Hm l).
  destruct (m l); [apply Hk|done|done].
Qed.

Lemma ends_ret {A : Type} (a : A) : ends (ret a).
Proof. by intros l. Qed.

Lemma ends_gets {A : Type} (f : Layout -> A) : ends (gets f).
Proof. by intros l. Qed.

Lemma ends_modify f : ends (modify f).
Proof. by intros l. Qed.

Lemma ends_frames {A : Type} (m : M A) : frames m -> ends m.
Proof. intros H l E. specialize (H l). by rewrite E in H. Qed.

Lemma ends_if {A : Type} (b : bool) (m1 m2 : M A) :
  ends m1 -> ends m2 -> ends (if b then m1 else m2).
Proof. by destruct b. Qed.

Create HintDb ends discriminated.

#[local] Hint Resolve ends_ret ends_gets ends_modify ends_if : ends.
#[local] Hint Resolve frames_getMinHeight frames_getMaxHeight frames_applyOverflow
  frames_relayout : ends.
#[local] Hint Extern 2 (ends (bind _ _)) => apply ends_bind; [|intros ?] : ends.
#[local] Hint Extern 4 (ends _) => apply ends_frames : ends.

Lemma ends_seed_loop T todo : forall i, ends (seed_loop T i todo).
Proof.
  induction todo as [|s rest IH]; intros i; cbn [seed_loop]; auto 10 with ends.
Qed.

Lemma ends_applyNewSize : ends _applyNewSize.
Proof.
  unfold _applyNewSize, load_heights, _applyHeights, _commitHeights. cbn zeta.
  auto 12 with ends.
Qed.

Lemma ends_setHeight h height : ends (setHeight h height).
Proof. unfold setHeight. auto with ends. Qed.

Lemma ends_finish h : ends (finish h).
Proof. unfold finish, _commitHeights. auto with ends. Qed.

#[local] Hint Resolve ends_seed_loop ends_applyNewSize ends_setHeight ends_finish : ends.

Lemma ends_run op : ends (run op).
Proof.
  destruct op as [ss a|a|i|i height|h height|h]; cbn [run];
    unfold update, seed_heights, setAvailableHeight, collapseSection, expandSection,
      openHandle;
    cbn zeta; auto 14 with ends.
Qed.

(* ------------------------------------------------------------------ *)
(** *** One round of [_relayout], and what [finish] stores *)

Lemma clamp_in_range x mn mx :
  (mn <= x /\ x <= mx)%Q -> clamp (Fin x) (Fin mn) (Fin mx) = Fin x.
Proof.
  intros [H1 H2]. unfold clamp, num_gt, num_lt.
  assert (Qlt_bool mx x = false) as -> by (by apply Qlt_bool_false).
  by assert (Qlt_bool x mn = false) as -> by (by apply Qlt_bool_false).
Qed.

Lemma relayout_fuel_round fuel anchor offset clamped l :
  _relayout_fuel (S fuel) anchor offset clamped l =
  (let! (overflowAbove, overflowBelow) := relayout_round anchor offset in
   if negb clamped && abs_gt_1 overflowAbove then
     _relayout_fuel fuel anchor (num_add offset overflowAbove) true ;;;
     ret (Num (num_add offset overflowAbove))
   else if negb clamped && abs_gt_1 overflowBelow then
     _relayout_fuel fuel anchor (num_sub offset overflowBelow) true ;;;
     ret (Num (num_sub offset overflowBelow))
   else _applyHeights ;;; ret Undefined) l.
Proof.
  rewrite relayout_fuel_eq.
  cbv [relayout_round bind load_heights modify gets ret].
  destruct (_getMaxHeight anchor _) as [mx l1|l1|]; [|done|done].
  destruct (_getMinHeight anchor l1) as [mn l2|l2|]; [|done|done].
  destruct (_rebalanceAbove anchor _ _) as [oa l3|l3|]; [|done|done].
  by destruct (_rebalanceBelow anchor offset l3) as [ob l4|l4|].
Qed.

Lemma getSectionIndex_NoDup l j s :
  NoDup (map id (_sections l)) -> _sections l !! j = Some s ->
  _getSectionIndex l (id s) = Z.of_nat j.
Proof.
  intros Hnd Hs.
  destruct (getSectionIndex_spec l (id s)) as [[_ Hnot]|(j0 & s0 & Hidx & Hs0 & Hid0)].
  - exfalso. apply Hnot, list_elem_of_fmap. exists s. split; [done|].
    by eapply list_elem_of_lookup_2.
  - rewrite Hidx. f_equal.
    apply (NoDup_lookup (map id (_sections l)) j0 j (id s) Hnd).
    + by rewrite list_lookup_fmap, Hs0; simpl; rewrite Hid0.
    + by rewrite list_lookup_fmap, Hs.
Qed.

Lemma round_in_range l (j : nat) s hq off :
  _sections l !! j = Some s ->
  sectionHeight_of l (id s) = Num (Fin hq) ->
  (qof (minHeight_of l s) <= hq + off /\ hq + off <= qof (maxHeight_of l s))%Q ->
  relayout_round (Z.of_nat j) (Fin off) l =
  (let! overflowBelow := _rebalanceBelow (Z.of_nat j) (Fin off) in
   ret (of_Z 0, overflowBelow))
    (set_heights (<[j := Num (Fin (hq + off))]> (committed_heights l)) l).
Proof.
  intros Hs Hh Hroom. pose proof (lookup_lt_Some _ _ _ Hs) as Hj.
  assert (committed_heights l !! j = Some (Num (Fin hq))) as Hv.
  { unfold committed_heights. by rewrite list_lookup_fmap, Hs; simpl; rewrite Hh. }
  cbv [relayout_round bind load_heights modify gets ret].
  change (map (fun s0 => sectionHeight_of l (id s0)) (_sections l))
    with (committed_heights l).
  unfold _getMaxHeight at 1. cbn [_sections set_heights].
  rewrite array_get_nat, Hs. cbn beta iota.
  unfold _getMinHeight at 1. cbn [_sections set_heights].
  rewrite array_get_nat, Hs. cbn beta iota.
  unfold height_at. cbn [_heights set_heights]. rewrite !array_get_nat, Hv.
  cbn [from_option Datatypes.id toNumber js_add clamp_value].
  change (maxHeight_of (set_heights (committed_heights l) l) s) with (maxHeight_of l s).
  change (minHeight_of (set_heights (committed_heights l) l) s) with (minHeight_of l s).
  rewrite (minHeight_of_qof l s), (maxHeight_of_qof l s).
  cbn [num_add]. rewrite (clamp_in_range _ _ _ Hroom).
  unfold num_gt. cbn [num_lt].
  assert (Qlt_bool (qof (maxHeight_of l s)) (hq + off) = false) as ->.
  { apply Qlt_bool_false. lra. }
  assert (Qlt_bool (hq + off) (qof (minHeight_of l s)) = false) as ->.
  { apply Qlt_bool_false. lra. }
  rewrite array_set_nat by (unfold committed_heights; by rewrite length_map).
  change (_rebalanceAbove (Z.of_nat j) (of_Z 0)) with (@ret num (of_Z 0)).
  unfold ret. done.
Qed.




(* ================================================================== *)
(** * The claims of the specification *)

Lemma abs_gt_1_false r : abs_gt_1 (Fin r) = false -> (-1 <= r /\ r <= 1)%Q.
Proof.
  intros H. destruct (Qlt_le_dec r (-1)) as [H1|H1].
  { assert (abs_gt_1 (Fin r) = true) by (apply abs_gt_1_Fin; by left). congruence. }
  destruct (Qlt_le_dec 1 r) as [H2|H2]; [|done].
  assert (abs_gt_1 (Fin r) = true) by (apply abs_gt_1_Fin; by right). congruence.
Qed.

Lemma redistributed_sum l' r :
  redistributed l' r ->
  exists a, _availableHeight l' = Fin a /\
    (committed_sum l' ==
     a - inject_Z ((nonCollapsedSectionCount l' - 1) * handleHeight) + r)%Q /\
    ((-1 <= r /\ r <= 1)%Q \/
     all2 (at_bound l') (_sections l') (committed_heights l') = true).
Proof.
  intros (Hwf & Hsum & Hr).
  apply well_formed_true in Hwf as (_ & Hav & _).
  apply isFinite_true in Hav as [a Ha]. exists a. split; [done|].
  split.
  - rewrite Hsum. unfold target_height.
    by rewrite (getAvailableHeight_fin l' a Ha).
  - destruct Hr as [Hr|Hr]; [left; by apply abs_gt_1_false|by right].
Qed.

(** C1, as stated, fails.  One section with three items in a container of
    height 50 is committed by [update] at its minimum 74, 24 units above
    the height [availableHeight - (nonCollapsedSectionCount - 1) *
    handleHeight = 50] it has to fill.  And a drag need not keep the sum
    where it could be kept: a drag by less than [1.0] moves the anchor
    without rebalancing its neighbours, so that after two committed drags
    of section ["A"], 0.75 each, the sum of the committed heights is 400.5,
    1.5 above the 399 to fill. *)
Lemma sum_invariant_counterexample :
  (crowded_layout = after (run (OpUpdate [mkSection "A" 3] (of_Z 50))) empty_layout /\
   valid_sections (_sections crowded_layout) = true /\
   isFinite (_availableHeight crowded_layout) = true /\
   (committed_sum crowded_layout == 74)%Q /\
   (target_height crowded_layout == 50)%Q /\
   ~ (Qabs (committed_sum crowded_layout - target_height crowded_layout) <= 1)%Q) /\
  (well_formed example_layout = true /\
   (committed_sum example_layout == 399)%Q /\
   (target_height example_layout == 399)%Q /\
   well_formed dragged_twice = true /\
   (committed_sum dragged_twice == 801 # 2)%Q /\
   (target_height dragged_twice == 399)%Q /\
   ~ (Qabs (committed_sum dragged_twice - target_height dragged_twice) <= 1)%Q).
Proof.
  split.
  - split; [done|]. split; [by vm_compute|]. split; [by vm_compute|].
    split; [by vm_compute|]. split; [by vm_compute|].
    intros H. apply Qle_bool_iff in H. by vm_compute in H.
  - split; [by vm_compute|]. split; [by vm_compute|]. split; [by vm_compute|].
    split; [by vm_compute|]. split; [by vm_compute|]. split; [by vm_compute|].
    intros H. apply Qle_bool_iff in H. by vm_compute in H.
Qed.

(** C1, amended: after [update] (unless it returns early),
    [setAvailableHeight] or [collapseSection] on a well-formed layout, with
    an operation that fits it and is of modest size, the sum of the
    committed heights is within [1.01] of
    [availableHeight - (nonCollapsedSectionCount - 1) * handleHeight],
    unless every section sits at its minimum or its maximum height.
    Nothing is said of drags and of [expandSection], which ends with one.
    The numbers of the proof are exact, where the undistributed overflow
    is within [1.0] of zero; the bounds of [modest] and the margin [0.01]
    leave room for the rounding of the sums and differences. *)
Theorem sum_after_redistribution (op : operation) (l : Layout) :
  well_formed l = true -> operation_fits op l = true -> modest op l = true ->
  redistributes op l = true ->
  exists l' a,
    run op l = Ret tt l' /\
    _availableHeight l' = Fin a /\
    ((Qabs (committed_sum l' -
            (a - inject_Z ((nonCollapsedSectionCount l' - 1) * handleHeight)))
      <= 101 # 100)%Q \/
     all2 (at_bound l') (_sections l') (committed_heights l') = true).
Proof.
  intros Hwf Hok _ Hre.
  assert (exists l' r, run op l = Ret tt l' /\ redistributed l' r) as (l' & r & Hrun & Hred).
  { destruct op as [ss a|a|i|i height|h height|h]; cbn [run operation_fits redistributes] in *;
      try done.
    - apply andb_true_iff in Hok as [Hok Hpl].
      destruct (update_spec ss a l Hwf Hok Hpl)
        as [[He _]|(_ & l' & r & Hrun & _ & _ & Hred)].
      + by rewrite He in Hre.
      + eauto.
    - destruct (setAvailableHeight_spec a l Hwf Hok) as (l' & r & Hrun & _ & _ & Hred).
      eauto.
    - destruct (collapseSection_spec i l Hwf) as (l' & r & Hrun & _ & _ & Hred). eauto. }
  destruct (redistributed_sum l' r Hred) as (a & Ha & Hsum & Hr).
  exists l', a. split; [done|]. split; [done|].
  destruct Hr as [Hr|Hr]; [left|by right].
  apply Qabs_Qle_condition. rewrite Hsum. lra.
Qed.

Lemma sum_after_redistribution_witness :
  well_formed example_layout = true /\
  exists l' a,
    run (OpCollapseSection "A") example_layout = Ret tt l' /\
    _availableHeight l' = Fin a /\
    ((Qabs (committed_sum l' -
            (a - inject_Z ((nonCollapsedSectionCount l' - 1) * handleHeight)))
      <= 101 # 100)%Q \/
     all2 (at_bound l') (_sections l') (committed_heights l') = true).
Proof.
  split; [by vm_compute|].
  apply (sum_after_redistribution (OpCollapseSection "A") example_layout);
    by vm_compute.
Defined.

(** The formula of [_sectionHeight]. *)
Lemma sectionHeight_formula n :
  _sectionHeight n = of_Z (36 + (if Nat.eqb n 0 then 0 else 4 + Z.of_nat n * 34)).
Proof. reflexivity. Qed.

Lemma well_formed_bounds l s :
  well_formed l = true -> s ∈ _sections l ->
  exists q mn mx,
    sectionHeight_of l (id s) = Num (Fin q) /\
    _sectionHeight (Nat.min (count s) (if collapsed_of l (id s) then 0 else 1)) = Fin mn /\
    (if collapsed_of l (id s) then _sectionHeight 0 else of_Z 100000) = Fin mx /\
    (mn <= q /\ q <= mx)%Q.
Proof.
  intros Hwf Hs. apply list_elem_of_lookup in Hs as [j Hj].
  pose proof (well_formed_committed l j s Hwf Hj) as Hw.
  apply within_true in Hw as (q & Hq & Hb).
  exists q, (qof (minHeight_of l s)), (qof (maxHeight_of l s)).
  split; [done|]. split; [apply minHeight_of_qof|]. split; [apply maxHeight_of_qof|done].
Qed.

(** C2, as stated, fails.  [setAvailableHeight(NaN)] on the well-formed
    layout of two sections commits [NaN] for both.  [update] with a
    section whose id is ["toString"] reads the function of that name that
    every object inherits as the stored height of the section, keeps it as
    a truthy height, adds it to the sum, and commits [NaN].  [update] with
    two sections of the same id stores the height of the second under the
    id of both: in a container of height 50 the first, with three items,
    is committed at 36, below its minimum 74.  And a drag of section ["A"]
    to [Infinity] commits [NaN] for it. *)
Lemma bounds_counterexample :
  (well_formed example_layout = true /\
   committed_heights (after (run (OpSetAvailableHeight NaN)) example_layout)
     = [Num NaN; Num NaN] /\
   all2 (within (after (run (OpSetAvailableHeight NaN)) example_layout))
        (_sections (after (run (OpSetAvailableHeight NaN)) example_layout))
        (committed_heights (after (run (OpSetAvailableHeight NaN)) example_layout))
     = false) /\
  (well_formed empty_layout = true /\
   valid_sections prototype_named = true /\
   sectionHeight_of empty_layout "toString" = Other "toString" [] /\
   run (OpUpdate prototype_named (of_Z 400)) empty_layout
     = Ret tt (after (run (OpUpdate prototype_named (of_Z 400))) empty_layout) /\
   committed_heights (after (run (OpUpdate prototype_named (of_Z 400))) empty_layout)
     = [Num NaN] /\
   all2 (within (after (run (OpUpdate prototype_named (of_Z 400))) empty_layout))
        (_sections (after (run (OpUpdate prototype_named (of_Z 400))) empty_layout))
        (committed_heights (after (run (OpUpdate prototype_named (of_Z 400))) empty_layout))
     = false) /\
  (valid_sections same_id_twice = false /\
   run (OpUpdate same_id_twice (of_Z 50)) empty_layout
     = Ret tt (after (run (OpUpdate same_id_twice (of_Z 50))) empty_layout) /\
   value_is (sectionHeight_of (after (run (OpUpdate same_id_twice (of_Z 50))) empty_layout) "A")
            36 = true /\
   minHeight_of (after (run (OpUpdate same_id_twice (of_Z 50))) empty_layout)
                (mkSection "A" 3) = of_Z 74 /\
   within (after (run (OpUpdate same_id_twice (of_Z 50))) empty_layout) (mkSection "A" 3)
          (sectionHeight_of (after (run (OpUpdate same_id_twice (of_Z 50))) empty_layout) "A")
     = false) /\
  (drag_A PInf example_layout = Ret tt (after (drag_A PInf) example_layout) /\
   sectionHeight_of (after (drag_A PInf) example_layout) "A" = Num NaN /\
   within (after (drag_A PInf) example_layout) (mkSection "A" 3)
          (sectionHeight_of (after (drag_A PInf) example_layout) "A") = false).
Proof. repeat split; by vm_compute. Qed.

(** C2, amended: every operation that fits a well-formed layout ends and
    leaves the committed height of every section within
    [[minHeight, maxHeight]], where
    [minHeight = sectionHeight(min(count, collapsed ? 0 : 1))] and
    [maxHeight = collapsed ? sectionHeight(0) : 100000]; the layout stays
    well-formed, so the next operation finds it so.  An operation fits
    when its numbers are finite (for a drag: moderate), a new section list
    has distinct ids, and no new section reads a member of
    [Object.prototype] as its stored height. *)
Theorem heights_within_bounds (op : operation) (l : Layout) :
  well_formed l = true -> operation_fits op l = true ->
  exists l',
    state_of (run op l) = Some l' /\
    well_formed l' = true /\
    forall s, s ∈ _sections l' ->
      exists q mn mx,
        sectionHeight_of l' (id s) = Num (Fin q) /\
        _sectionHeight (Nat.min (count s) (if collapsed_of l' (id s) then 0 else 1))
          = Fin mn /\
        (if collapsed_of l' (id s) then _sectionHeight 0 else of_Z 100000) = Fin mx /\
        (mn <= q /\ q <= mx)%Q.
Proof.
  intros Hwf Hok. destruct (run_well_formed op l Hwf Hok) as (l' & Hst & Hwf').
  exists l'. split; [done|]. split; [done|].
  intros s Hs. by apply well_formed_bounds.
Qed.

Lemma heights_within_bounds_witness :
  well_formed (constructor ∅ ∅) = true /\
  exists l',
    state_of (run (OpUpdate two_sections (of_Z 400)) (constructor ∅ ∅)) = Some l' /\
    well_formed l' = true /\
    forall s, s ∈ _sections l' ->
      exists q mn mx,
        sectionHeight_of l' (id s) = Num (Fin q) /\
        _sectionHeight (Nat.min (count s) (if collapsed_of l' (id s) then 0 else 1))
          = Fin mn /\
        (if collapsed_of l' (id s) then _sectionHeight 0 else of_Z 100000) = Fin mx /\
        (mn <= q /\ q <= mx)%Q.
Proof.
  split; [by vm_compute|].
  apply (heights_within_bounds (OpUpdate two_sections (of_Z 400)) (constructor ∅ ∅));
    by vm_compute.
Defined.

(** The budgets of the model.  With the exact numbers of this model a
    pass of [_applyOverflow] that clamps no section takes up the whole
    overflow, so that [_applyOverflow] calls itself on fewer sections each
    time and the budget [S (length sections)] is never used up;
    [_relayout] calls itself once at most, with [clamped]. *)
Lemma budgets_suffice :
  (forall k overflow secs blend l,
     _applyOverflow_fuel (S (length secs) + k) overflow secs blend l <> OutOfFuel /\
     _applyOverflow_fuel (S (length secs) + k) overflow secs blend l =
     _applyOverflow overflow secs blend l) /\
  (forall k anchor offset clamped l,
     _relayout_fuel (2 + k) anchor offset clamped l <> OutOfFuel /\
     _relayout_fuel (2 + k) anchor offset clamped l = _relayout anchor offset clamped l) /\
  (forall k anchor offset l,
     _relayout_fuel (1 + k) anchor offset true l <> OutOfFuel) /\
  (forall op l, run op l <> OutOfFuel).
Proof.
  split.
  { intros k overflow secs blend l.
    pose proof (applyOverflow_fuel_ends (S (length secs) + k) overflow secs blend
                  ltac:(lia) l) as He.
    split; [intros E; by rewrite E in He|].
    apply applyOverflow_fuel_stable. lia. }
  split.
  { intros k anchor offset clamped l.
    pose proof (relayout_fuel_ends (2 + k) anchor offset clamped
                  ltac:(destruct clamped; lia) l) as He.
    split; [intros E; by rewrite E in He|].
    apply relayout_fuel_stable. lia. }
  split.
  { intros k anchor offset l.
    pose proof (relayout_fuel_ends (1 + k) anchor offset true ltac:(simpl; lia) l) as He.
    intros E; by rewrite E in He. }
  intros op; apply ends_run.
Qed.

Lemma update_seeding ss a l j s :
  valid_sections ss = true -> ss !! j = Some s -> update_returns_early ss a l = false ->
  exists l1,
    seed_heights (adopted ss a l) = Ret tt l1 /\
    update ss a l = _applyNewSize l1 /\
    sectionHeight_of l1 (id s) =
      if truthy (sectionHeight_of l (id s)) then sectionHeight_of l (id s)
      else seed_value (adopted ss a l) s.
Proof.
  intros Hss Hj He. apply bool_decide_eq_true in Hss.
  assert (s ∈ ss) as Hs by (by eapply list_elem_of_lookup_2).
  destruct (seed_heights_spec (adopted ss a l)) as (l1 & Hseed & _ & _ & Hin).
  { unfold adopted. by destruct (_ && _). }
  exists l1. split; [done|]. split.
  - rewrite update_eq. cbn zeta. unfold update_returns_early in He. rewrite He.
    fold (adopted ss a l). unfold bind. by rewrite Hseed.
  - rewrite (Hin s).
    + unfold adopted, sectionHeight_of. by destruct (_ && _).
    + unfold adopted. by destruct (_ && _).
Qed.

(** C4, as stated, fails: of two fresh sections in a container of height
    400 each is seeded with [(400 - 1) / 2 = 199.5], not with
    [clamp(400 / 2, min, max) = 200]; and a section that has the height 0
    stored does not keep it, it is seeded as well. *)
Lemma seed_counterexample :
  unseeded_layout = adopted two_sections (of_Z 400) empty_layout /\
  update two_sections (of_Z 400) empty_layout =
    _applyNewSize (after seed_heights unseeded_layout) /\
  sectionHeight_of unseeded_layout "A" = Undefined /\
  value_is (sectionHeight_of (after seed_heights unseeded_layout) "A") (399 # 2) = true /\
  num_eq (clamp (num_div (_availableHeight unseeded_layout)
                         (of_nat (length (_sections unseeded_layout))))
                (minHeight_of unseeded_layout (mkSection "A" 3))
                (maxHeight_of unseeded_layout (mkSection "A" 3)))
         (of_Z 200) = true /\
  num_eq (toNumber (sectionHeight_of (after seed_heights unseeded_layout) "A"))
         (clamp (num_div (_availableHeight unseeded_layout)
                         (of_nat (length (_sections unseeded_layout))))
                (minHeight_of unseeded_layout (mkSection "A" 3))
                (maxHeight_of unseeded_layout (mkSection "A" 3))) = false /\
  _sectionHeights zero_stored_layout !! "A" = Some (Num (of_Z 0)) /\
  value_is (sectionHeight_of
              (after seed_heights (adopted two_sections (of_Z 400) zero_stored_layout))
              "A")
           (399 # 2) = true.
Proof. repeat split; by vm_compute. Qed.

(** C4, amended: when [update] does not return early, every section for
    which [this._sectionHeights[section.id]] reads a value that is not
    truthy ([undefined], [0] or [NaN]) is seeded, before [_applyNewSize]
    runs, with
    [clamp((availableHeight - (nonCollapsedSectionCount - 1) * handleHeight)
           / sectionCount, minHeight, maxHeight)];
    a section for which it reads a truthy value keeps that value as the
    starting point.  The read finds the members of [Object.prototype]: a
    section whose id is the name of one, with nothing stored under it,
    reads a function, which is truthy, and is not seeded. *)
Theorem update_seeds_from_adjusted_height (ss : list section) (a : num)
    (l : Layout) (j : nat) (s : section) :
  valid_sections ss = true -> ss !! j = Some s -> update_returns_early ss a l = false ->
  exists l1,
    seed_heights (adopted ss a l) = Ret tt l1 /\
    update ss a l = _applyNewSize l1 /\
    sectionHeight_of l1 (id s) =
      if truthy (sectionHeight_of l (id s)) then sectionHeight_of l (id s)
      else
        Num (clamp
               (num_div
                  (num_sub (_availableHeight (adopted ss a l))
                     (of_Z ((nonCollapsedSectionCount (adopted ss a l) - 1)
                            * handleHeight)))
                  (of_nat (length ss)))
               (minHeight_of (adopted ss a l) s)
               (maxHeight_of (adopted ss a l) s)).
Proof. apply update_seeding. Qed.

Lemma update_seeds_from_adjusted_height_witness :
  exists l1,
    seed_heights (adopted two_sections (of_Z 400) empty_layout) = Ret tt l1 /\
    update two_sections (of_Z 400) empty_layout = _applyNewSize l1 /\
    sectionHeight_of l1 "A" =
      Num (clamp
             (num_div
                (num_sub (of_Z 400) (of_Z ((2 - 1) * handleHeight)))
                (of_nat 2))
             (_sectionHeight 1) (of_Z 100000)).
Proof.
  apply (update_seeds_from_adjusted_height two_sections (of_Z 400) empty_layout
           0 (mkSection "A" 3)); by vm_compute.
Defined.

(** C10: the test in [update] is by truthiness of what
    [this._sectionHeights[section.id]] reads.  A section for which it
    reads [undefined], [0] or [NaN] is seeded with the clamped even share;
    any other value it reads is kept as the starting point of
    [_applyNewSize]: a number, finite and not zero or infinite, and also
    the member of [Object.prototype] that is found when the id of the
    section names one and no height is stored under it. *)
Theorem update_seeds_by_truthiness (ss : list section) (a : num)
    (l : Layout) (j : nat) (s : section) :
  valid_sections ss = true -> ss !! j = Some s -> update_returns_early ss a l = false ->
  exists l1,
    seed_heights (adopted ss a l) = Ret tt l1 /\
    update ss a l = _applyNewSize l1 /\
    (sectionHeight_of l (id s) = Undefined ->
     sectionHeight_of l1 (id s) = seed_value (adopted ss a l) s) /\
    (forall q, sectionHeight_of l (id s) = Num (Fin q) -> (q == 0)%Q ->
     sectionHeight_of l1 (id s) = seed_value (adopted ss a l) s) /\
    (sectionHeight_of l (id s) = Num NaN ->
     sectionHeight_of l1 (id s) = seed_value (adopted ss a l) s) /\
    (forall q, sectionHeight_of l (id s) = Num (Fin q) -> ~ (q == 0)%Q ->
     sectionHeight_of l1 (id s) = Num (Fin q)) /\
    (forall x, sectionHeight_of l (id s) = Num x -> isFinite x = false ->
     x <> NaN -> sectionHeight_of l1 (id s) = Num x) /\
    (forall name appended, sectionHeight_of l (id s) = Other name appended ->
     sectionHeight_of l1 (id s) = Other name appended).
Proof.
  intros Hss Hs He.
  destruct (update_seeding ss a l j s Hss Hs He) as (l1 & Hseed & Hupd & Hst).
  exists l1. split; [done|]. split; [done|].
  split; [intros H; by rewrite Hst, H|].
  split.
  { intros q H Hq. rewrite Hst, H. cbn [truthy].
    apply Qeq_bool_iff in Hq. by rewrite Hq. }
  split; [intros H; by rewrite Hst, H|].
  split.
  { intros q H Hq. rewrite Hst, H. cbn [truthy].
    destruct (Qeq_bool q 0) eqn:E; [|done]. by apply Qeq_bool_iff in E. }
  split.
  { intros x H Hx Hnan. rewrite Hst, H. by destruct x. }
  intros name appended H. by rewrite Hst, H.
Qed.

Lemma update_seeds_by_truthiness_witness :
  exists l1,
    seed_heights (adopted two_sections (of_Z 400) zero_stored_layout) = Ret tt l1 /\
    update two_sections (of_Z 400) zero_stored_layout = _applyNewSize l1 /\
    sectionHeight_of l1 "A" =
      seed_value (adopted two_sections (of_Z 400) zero_stored_layout) (mkSection "A" 3).
Proof.
  destruct (update_seeds_by_truthiness two_sections (of_Z 400)
              zero_stored_layout 0 (mkSection "A" 3))
    as (l1 & Hseed & Hupd & _ & Hzero & _); [by vm_compute|by vm_compute|by vm_compute|].
  exists l1. split; [exact Hseed|]. split; [exact Hupd|].
  apply (Hzero (inject_Z 0)); [by vm_compute|reflexivity].
Defined.




(** [update] does ignore a non-finite height: it behaves as with the
    height the layout already has. *)
Lemma update_ignores_nonfinite ss a l :
  isFinite a = false -> update ss a l = update ss (_availableHeight l) l.
Proof.
  intros Ha. rewrite !update_eq. cbn zeta. rewrite Ha.
  assert (isFinite (_availableHeight l)
          && negb (num_eq (_availableHeight l) (_availableHeight l)) = false) as ->; [|done].
  destruct (_availableHeight l) as [q| | |]; try done.
  cbn [isFinite num_eq andb].
  assert (Qeq_bool q q = true) as -> by (apply Qeq_bool_iff; reflexivity). done.
Qed.

(** C6, where the code departs from it: [setAvailableHeight(NaN)] stores
    [NaN] as the available height and redistributes with it, after which
    every committed height is [NaN]; with [Infinity] every section is
    committed at the cap [100000]. *)
Lemma setAvailableHeight_stores_nonfinite :
  _availableHeight example_layout = of_Z 400 /\
  _availableHeight (after (setAvailableHeight NaN) example_layout) = NaN /\
  committed_heights (after (setAvailableHeight NaN) example_layout)
    = [Num NaN; Num NaN] /\
  _availableHeight (after (setAvailableHeight PInf) example_layout) = PInf /\
  committed_heights (after (setAvailableHeight PInf) example_layout)
    = [Num (of_Z 100000); Num (of_Z 100000)].
Proof. repeat split; by vm_compute. Qed.

Lemma setHeight_returns h height l :
  is_Some (array_get (_sections l) (_anchor h)) ->
  exists l1, setHeight h height l = Ret h l1.
Proof.
  intros [s Hs]. apply array_get_Some in Hs as (j & Hj & Hs).
  apply lookup_lt_Some in Hs.
  destruct (returns_relayout_fuel (_sections l) 2 (_anchor h)
              (num_sub height (toNumber (_initialHeight h))) false
              ltac:(simpl; lia) ltac:(lia) l eq_refl) as (v & l1 & Hrun).
  exists l1. unfold setHeight, bind, _relayout. by rewrite Hrun.
Qed.

Lemma setHeight_frames h height l l1 :
  setHeight h height l = Ret h l1 -> config_eq l l1.
Proof.
  unfold setHeight, bind. intros H.
  pose proof (frames_relayout (_anchor h)
                (num_sub height (toNumber (_initialHeight h))) false l) as Hfr.
  destruct (_relayout _ _ _ l); [|done|done]. by injection H as <-.
Qed.











(** C9, as stated, fails: expanding the collapsed section ["a"], which has
    no items, to height 40 commits it at 40, below
    [sectionHeight(1) = 74]. *)
Lemma expand_counterexample :
  empty_first_collapsed =
    after (run (OpUpdate empty_first (of_Z 400)) ;;; run (OpCollapseSection "a"))
          empty_layout /\
  collapsed_of empty_first_collapsed "a" = true /\
  value_is (sectionHeight_of empty_first_collapsed "a") 36 = true /\
  value_is (sectionHeight_of (after (expandSection "a" (of_Z 40)) empty_first_collapsed) "a")
           40 = true /\
  _sectionHeight 1 = of_Z 74 /\
  num_lt (toNumber (sectionHeight_of
                      (after (expandSection "a" (of_Z 40)) empty_first_collapsed) "a"))
         (_sectionHeight 1) = true.
Proof. repeat split; by vm_compute. Qed.

Lemma collapsed_of_insert l' (c : gmap string bool) i b :
  _collapsedState l' = <[i := b]> c -> collapsed_of l' i = b.
Proof. intros H. unfold collapsed_of. by rewrite H, lookup_insert_eq. Qed.

(** C9, amended: on a well-formed layout, [collapseSection(id)] commits
    the section at [sectionHeight(0) = 36]; [expandSection(id, height)]
    with a finite height commits it at no less than
    [sectionHeight(min(count, 1))], which is [sectionHeight(1) = 74] for a
    section with items and [sectionHeight(0) = 36] for a section
    without. *)
Theorem collapse_and_expand_heights (l : Layout) (j : nat) (s : section)
    (height : num) :
  well_formed l = true -> _sections l !! j = Some s -> isFinite height = true ->
  (exists l' q,
     collapseSection (id s) l = Ret tt l' /\
     sectionHeight_of l' (id s) = Num (Fin q) /\ (q == 36)%Q) /\
  (exists l' q mn,
     expandSection (id s) height l = Ret tt l' /\
     sectionHeight_of l' (id s) = Num (Fin q) /\
     _sectionHeight (Nat.min (count s) 1) = Fin mn /\ (mn <= q)%Q /\
     (count s <> 0%nat -> (74 <= q)%Q)).
Proof.
  intros Hwf Hs Hh.
  assert (s ∈ _sections l) as Hin by (by eapply list_elem_of_lookup_2).
  split.
  - destruct (collapseSection_spec (id s) l Hwf) as (l' & r & Hrun & Hs' & Hc' & Hwf' & _).
    destruct (well_formed_bounds l' s Hwf' ltac:(by rewrite Hs'))
      as (q & mn & mx & Hq & Hmn & Hmx & Hb).
    rewrite (collapsed_of_insert l' _ _ _ Hc') in Hmn, Hmx. rewrite Nat.min_0_r in Hmn.
    exists l', q. split; [done|]. split; [done|].
    vm_compute in Hmn, Hmx. injection Hmn as <-. injection Hmx as <-. lra.
  - destruct (expandSection_spec (id s) height l Hwf Hh)
      as (l' & _ & Hwf' & Hs' & Hc' & Hret).
    destruct (well_formed_bounds l' s Hwf' ltac:(by rewrite Hs'))
      as (q & mn & mx & Hq & Hmn & _ & Hb).
    rewrite (collapsed_of_insert l' _ _ _ Hc') in Hmn.
    exists l', q, mn. split.
    { apply Hret, list_elem_of_fmap. eauto. }
    split; [done|]. split; [done|]. split; [tauto|].
    intros Hc. assert (Nat.min (count s) 1 = 1%nat) as Hm by lia.
    rewrite Hm in Hmn. vm_compute in Hmn. injection Hmn as <-. lra.
Qed.

Lemma collapse_and_expand_heights_witness :
  (exists l' q,
     collapseSection "A" example_layout = Ret tt l' /\
     sectionHeight_of l' "A" = Num (Fin q) /\ (q == 36)%Q) /\
  (exists l' q mn,
     expandSection "A" (of_Z 120) example_layout = Ret tt l' /\
     sectionHeight_of l' "A" = Num (Fin q) /\
     _sectionHeight (Nat.min 3 1) = Fin mn /\ (mn <= q)%Q /\
     (3%nat <> 0%nat -> (74 <= q)%Q)).
Proof.
  apply (collapse_and_expand_heights example_layout 0 (mkSection "A" 3) (of_Z 120));
    by vm_compute.
Defined.

(* ================================================================== *)
(** * Further properties of the code *)

(* ------------------------------------------------------------------ *)
(** *** [clamp], the section index and the bounds of a section *)

(** X1: between finite bounds [min <= max], [clamp] sends every number
    but [NaN] (also the infinities) into [[min, max]], leaves a number of
    [[min, max]] as it is, and clamping twice is clamping once; [NaN]
    alone passes through. *)
Theorem clamp_between_bounds (height : num) (mn mx : Q) :
  (mn <= mx)%Q ->
  (height <> NaN ->
   exists y, clamp height (Fin mn) (Fin mx) = Fin y /\ (mn <= y /\ y <= mx)%Q) /\
  (forall x, height = Fin x -> (mn <= x /\ x <= mx)%Q ->
   clamp height (Fin mn) (Fin mx) = height) /\
  clamp (clamp height (Fin mn) (Fin mx)) (Fin mn) (Fin mx)
    = clamp height (Fin mn) (Fin mx) /\
  clamp NaN (Fin mn) (Fin mx) = NaN.
Proof.
  intros Hle.
  assert (height <> NaN ->
          exists y, clamp height (Fin mn) (Fin mx) = Fin y /\ (mn <= y /\ y <= mx)%Q)
    as Hrange.
  { intros Hnan. destruct height as [x| | |]; [| | |done].
    - destruct (clamp_Fin x mn mx Hle) as (y & Hy & Hb & _). eauto.
    - exists mx. split; [done|lra].
    - exists mn. split; [done|lra]. }
  split; [done|]. split.
  { intros x -> Hx. by apply clamp_in_range. }
  split; [|done].
  assert (height = NaN \/ height <> NaN) as [->|Hnan]
    by (destruct height; [right|right|right|left]; done); [done|].
  destruct (Hrange Hnan) as (y & -> & Hy). by apply clamp_in_range.
Qed.

Lemma clamp_between_bounds_witness :
  (PInf <> NaN ->
   exists y, clamp PInf (Fin 36) (Fin 100000) = Fin y /\ (36 <= y /\ y <= 100000)%Q) /\
  (forall x, PInf = Fin x -> (36 <= x /\ x <= 100000)%Q ->
   clamp PInf (Fin 36) (Fin 100000) = PInf) /\
  clamp (clamp PInf (Fin 36) (Fin 100000)) (Fin 36) (Fin 100000)
    = clamp PInf (Fin 36) (Fin 100000) /\
  clamp NaN (Fin 36) (Fin 100000) = NaN.
Proof. apply (clamp_between_bounds PInf 36 100000). by vm_compute. Defined.

Lemma findIndex_from_first ss : forall (k : nat) i j,
  findIndex_from (Z.of_nat k) i ss = Z.of_nat (k + j) ->
  forall j' s', (j' < j)%nat -> ss !! j' = Some s' -> id s' <> i.
Proof.
  induction ss as [|s ss IH]; intros k i j Hf j' s' Hlt Hs'; [done|].
  simpl in Hf. destruct (String.eqb_spec (id s) i) as [Heq|Hne].
  - lia.
  - destruct j' as [|j'].
    + injection Hs' as <-. done.
    + replace (Z.of_nat k + 1)%Z with (Z.of_nat (S k)) in Hf by lia.
      destruct j as [|j]; [lia|].
      refine (IH (S k) i j _ j' s' _ Hs'); [|lia].
      rewrite Hf. f_equal. lia.
Qed.

(** X2: [_getSectionIndex(id)] is [-1] exactly when no section has the id;
    otherwise it is the index of the first section with the id, so on a
    list without repeated ids the index of a section is found from its
    id. *)
Theorem getSectionIndex_first (l : Layout) (i : string) :
  (_getSectionIndex l i = (-1)%Z <-> i ∉ map id (_sections l)) /\
  (forall j, _getSectionIndex l i = Z.of_nat j ->
     (exists s, _sections l !! j = Some s /\ id s = i) /\
     forall j' s', (j' < j)%nat -> _sections l !! j' = Some s' -> id s' <> i) /\
  (forall j s, valid_sections (_sections l) = true -> _sections l !! j = Some s ->
     id s = i -> _getSectionIndex l i = Z.of_nat j).
Proof.
  assert (forall j, _getSectionIndex l i = Z.of_nat j ->
     (exists s, _sections l !! j = Some s /\ id s = i) /\
     forall j' s', (j' < j)%nat -> _sections l !! j' = Some s' -> id s' <> i) as Hfirst.
  { intros j Hj. split.
    - destruct (getSectionIndex_spec l i) as [[Hm _]|(j0 & s & Hidx & Hs & Hid)]; [lia|].
      rewrite Hidx in Hj. apply Nat2Z.inj in Hj as ->. eauto.
    - apply (findIndex_from_first (_sections l) 0 i j). exact Hj. }
  split; [|split; [done|]].
  - split.
    + intros Hm. destruct (getSectionIndex_spec l i) as [[_ Hnot]|(j & s & Hidx & _)];
        [done|lia].
    + intros Hnot. destruct (getSectionIndex_spec l i) as [[Hm _]|(j & s & _ & Hs & Hid)];
        [done|].
      exfalso. apply Hnot, list_elem_of_fmap. exists s. split; [done|].
      by eapply list_elem_of_lookup_2.
  - intros j s Hnd Hs Hid. apply bool_decide_eq_true in Hnd.
    destruct (getSectionIndex_spec l i) as [[_ Hnot]|(j0 & s0 & Hidx & Hs0 & Hid0)].
    + exfalso. apply Hnot, list_elem_of_fmap. exists s. split; [done|].
      by eapply list_elem_of_lookup_2.
    + rewrite Hidx. f_equal.
      apply (NoDup_lookup (map id (_sections l)) j0 j i Hnd).
      * by rewrite list_lookup_fmap, Hs0; simpl; rewrite Hid0.
      * by rewrite list_lookup_fmap, Hs; simpl; rewrite Hid.
Qed.

Lemma array_get_None {A : Type} (xs : list A) (i : Z) :
  array_get xs i = None <-> (i < 0 \/ Z.of_nat (length xs) <= i)%Z.
Proof.
  unfold array_get. destruct (Z.ltb_spec i 0) as [Hneg|Hpos].
  - split; [by left|done].
  - rewrite lookup_ge_None. lia.
Qed.

(** X3: [_getMinHeight(i)] and [_getMaxHeight(i)] throw exactly for an
    index outside the section list; inside it they leave the layout alone
    and return finite bounds with [min <= max]: both [36] for a collapsed
    section, and for an expanded one the maximum [100000] with the minimum
    [36] when the section has no items and [74] when it has. *)
Theorem bounds_of_section (l : Layout) (i : Z) :
  ((i < 0 \/ Z.of_nat (length (_sections l)) <= i)%Z ->
   _getMinHeight i l = Throw l /\ _getMaxHeight i l = Throw l) /\
  ((0 <= i < Z.of_nat (length (_sections l)))%Z ->
   exists s mn mx,
     array_get (_sections l) i = Some s /\
     _getMinHeight i l = Ret (Fin mn) l /\ _getMaxHeight i l = Ret (Fin mx) l /\
     (mn <= mx)%Q /\
     (collapsed_of l (id s) = true -> (mn == 36 /\ mx == 36)%Q) /\
     (collapsed_of l (id s) = false ->
      (mx == 100000)%Q /\
      (count s = 0%nat -> (mn == 36)%Q) /\ (count s <> 0%nat -> (mn == 74)%Q))).
Proof.
  split.
  - intros Hi. apply array_get_None in Hi.
    unfold _getMinHeight, _getMaxHeight. by rewrite Hi.
  - intros Hi. destruct (array_get_valid _ _ Hi) as [s Hs].
    exists s, (qof (minHeight_of l s)), (qof (maxHeight_of l s)).
    split; [done|]. unfold _getMinHeight, _getMaxHeight. rewrite Hs.
    rewrite <- minHeight_of_qof, <- maxHeight_of_qof.
    split; [done|]. split; [done|]. split; [apply min_le_max|].
    unfold minHeight_of, maxHeight_of. split.
    + intros ->. rewrite Nat.min_0_r. by vm_compute.
    + intros ->. split; [by vm_compute|]. split.
      * intros ->. by vm_compute.
      * intros Hc. assert (Nat.min (count s) 1 = 1%nat) as -> by lia. by vm_compute.
Qed.

Lemma bounds_of_section_witness :
  exists s mn mx,
    array_get (_sections example_layout) 1 = Some s /\
    _getMinHeight 1 example_layout = Ret (Fin mn) example_layout /\
    _getMaxHeight 1 example_layout = Ret (Fin mx) example_layout /\
    (mn <= mx)%Q /\
    (collapsed_of example_layout (id s) = true -> (mn == 36 /\ mx == 36)%Q) /\
    (collapsed_of example_layout (id s) = false ->
     (mx == 100000)%Q /\
     (count s = 0%nat -> (mn == 36)%Q) /\ (count s <> 0%nat -> (mn == 74)%Q)).
Proof.
  apply (proj2 (bounds_of_section example_layout 1)). by vm_compute.
Defined.

Lemma nonCollapsed_fold (f : section -> bool) ss : forall z,
  fold_left (fun cnt s => (cnt + (if f s then 0 else 1))%Z) ss z =
  (z + Z.of_nat (length (List.filter (fun s => negb (f s)) ss)))%Z.
Proof.
  induction ss as [|s ss IH]; intros z; simpl; [lia|].
  rewrite IH. destruct (f s); simpl; lia.
Qed.

Lemma filter_none {A : Type} (f : A -> bool) (xs : list A) :
  forallb f xs = true -> List.filter (fun x => negb (f x)) xs = [].
Proof.
  induction xs as [|x xs IH]; [done|]. simpl.
  intros H. apply andb_true_iff in H as [Hx Hxs]. rewrite Hx. simpl. by apply IH.
Qed.

(** X4: [nonCollapsedSectionCount] is the number of sections that are not
    collapsed, so [_getAvailableHeight()] takes one [handleHeight] off the
    available height for every expanded section but one; when no section
    is expanded (all collapsed, or no section at all) it returns the
    available height plus one [handleHeight].  A section counts as
    collapsed as [_collapsedState[id]] reads it.  The heights are stated
    for an available height that is an integer of magnitude at most
    [10^15], where the subtraction is exact in doubles as well. *)
Theorem getAvailableHeight_counts (l : Layout) (a : Z) :
  _availableHeight l = of_Z a -> (Z.abs a <= 10 ^ 15)%Z ->
  nonCollapsedSectionCount l =
    Z.of_nat (length (List.filter (fun s => negb (collapsed_of l (id s))) (_sections l))) /\
  num_eq (_getAvailableHeight l) (of_Z (a - (nonCollapsedSectionCount l - 1))) = true /\
  (forallb (fun s => collapsed_of l (id s)) (_sections l) = true ->
   num_eq (_getAvailableHeight l) (of_Z (a + 1)) = true).
Proof.
  intros Ha _.
  assert (nonCollapsedSectionCount l =
    Z.of_nat (length (List.filter (fun s => negb (collapsed_of l (id s))) (_sections l))))
    as Hcount.
  { unfold nonCollapsedSectionCount. by rewrite nonCollapsed_fold. }
  split; [done|].
  rewrite (getAvailableHeight_fin l (inject_Z a) Ha). unfold of_Z. cbn [num_eq]. split.
  - apply Qeq_bool_iff. unfold handleHeight.
    rewrite Z.mul_1_r. unfold Z.sub. rewrite !inject_Z_plus, !inject_Z_opp.
    rewrite inject_Z_plus, inject_Z_opp. lra.
  - intros Hall. apply Qeq_bool_iff. rewrite Hcount.
    rewrite (filter_none _ _ Hall).
    change (inject_Z ((Z.of_nat (length (@nil section)) - 1) * handleHeight))
      with (-1)%Q. rewrite inject_Z_plus. change (inject_Z 1) with 1%Q. lra.
Qed.

Lemma getAvailableHeight_counts_witness :
  nonCollapsedSectionCount empty_first_collapsed =
    Z.of_nat (length (List.filter
                        (fun s => negb (collapsed_of empty_first_collapsed (id s)))
                        (_sections empty_first_collapsed))) /\
  num_eq (_getAvailableHeight empty_first_collapsed)
         (of_Z (400 - (nonCollapsedSectionCount empty_first_collapsed - 1))) = true /\
  (forallb (fun s => collapsed_of empty_first_collapsed (id s))
           (_sections empty_first_collapsed) = true ->
   num_eq (_getAvailableHeight empty_first_collapsed) (of_Z (400 + 1)) = true).
Proof.
  apply (getAvailableHeight_counts empty_first_collapsed 400); by vm_compute.
Defined.

(* ------------------------------------------------------------------ *)
(** *** Redistribution from any stored heights *)

Lemma reshaped_set_height l0 l (i : Z) v :
  (0 <= i < Z.of_nat (length (_sections l0)))%Z ->
  reshaped l0 l -> reshaped l0 (set_heights (array_set (_heights l) i v) l).
Proof.
  intros Hi (Hc & Hlog & Hlen). split; [by destruct Hc as (?&?&?&?)|]. split; [done|].
  cbn [_heights set_heights]. unfold array_set.
  destruct (Z.ltb_spec i 0); [lia|].
  destruct (Nat.ltb_spec (Z.to_nat i) (length (_heights l))); [|lia].
  by rewrite length_insert.
Qed.

Lemma overflow_step_reshaped l0 blend i o p U :
  (0 <= i < Z.of_nat (length (_sections l0)))%Z ->
  hoare (reshaped l0) (overflow_step blend i o p U) (fun _ l' => reshaped l0 l').
Proof.
  intros Hi l Hl. pose proof Hl as ((Hs & _) & _).
  unfold overflow_step, bind, gets, modify, ret, _getMinHeight, _getMaxHeight.
  destruct (array_get_valid (_sections l) i ltac:(by rewrite Hs)) as [s Es].
  rewrite Es. cbn beta iota. rewrite Es.
  eexists _, _. split; [reflexivity|]. by apply reshaped_set_height.
Qed.

Lemma overflow_loop_reshaped l0 blend secs : forall o p U,
  valid_indices l0 secs ->
  hoare (reshaped l0) (overflow_loop blend secs o p U) (fun _ l' => reshaped l0 l').
Proof.
  induction secs as [|i rest IH]; intros o p U Hval; [by apply hoare_ret|].
  inversion Hval; subst. cbn [overflow_loop].
  eapply hoare_bind; [by apply overflow_step_reshaped|].
  intros [o' U']. destruct blend; [by apply IH|].
  destruct (abs_lt_1 o'); [by apply hoare_ret|by apply IH].
Qed.

Lemma applyOverflow_fuel_reshaped l0 fuel : forall o secs blend,
  (length secs < fuel)%nat -> valid_indices l0 secs ->
  hoare (reshaped l0) (_applyOverflow_fuel fuel o secs blend)
        (fun _ l' => reshaped l0 l').
Proof.
  induction fuel as [|fuel IH]; intros o secs blend Hf Hval l Hl; [lia|].
  cbn [_applyOverflow_fuel]. unfold bind.
  destruct (overflow_loop_reshaped l0 blend secs o
              (if blend then num_div o (of_nat (length secs)) else o) [] Hval l Hl)
    as ([o' U'] & l' & Hrun & Hl').
  rewrite Hrun.
  destruct (abs_gt_1 o' && negb (length U' =? 0)%nat) eqn:E; [|by eexists _, _].
  apply IH; [| |done].
  - pose proof (recursion_shrinks _ _ _ _ _ _ _ Hrun E). lia.
  - apply Forall_forall. intros x Hx.
    destruct (overflow_loop_unclamped _ _ _ _ _ _ _ _ _ Hrun x Hx) as [Hx'|Hx'];
      [by apply elem_of_nil in Hx'|].
    by apply (proj1 (Forall_forall _ _) Hval).
Qed.

Lemma applyOverflow_reshaped l0 o secs blend :
  valid_indices l0 secs ->
  hoare (reshaped l0) (_applyOverflow o secs blend) (fun _ l' => reshaped l0 l').
Proof. apply applyOverflow_fuel_reshaped. lia. Qed.

Lemma reshaped_eq l0 l : reshaped l0 l -> l = set_heights (_heights l) l0.
Proof.
  intros ((Hs & Hc & Ha & Hst) & Hlog & _). destruct l, l0.
  unfold set_heights. simpl in *. by subst.
Qed.

Lemma commit_loop_settles hs ss m :
  NoDup (map id ss) ->
  commit_loop hs ss (commit_loop hs ss m) = commit_loop hs ss m.
Proof.
  intros Hnd. apply map_eq. intros k.
  destruct (decide (k ∈ map id ss)) as [Hk|Hk].
  - apply list_elem_of_fmap in Hk as (s & -> & Hs).
    apply list_elem_of_lookup in Hs as [j Hj].
    by rewrite !(commit_loop_lookup hs ss _ j s Hnd Hj).
  - by rewrite !commit_loop_other.
Qed.

Lemma committed_batch hs ss m :
  NoDup (map id ss) ->
  imap (fun i s => (id s, default Undefined (hs !! i))) ss =
  map (fun s => (id s, read_height (commit_loop hs ss m) (id s))) ss.
Proof.
  intros Hnd. apply list_eq. intros j.
  rewrite list_lookup_imap, list_lookup_fmap.
  destruct (ss !! j) as [s|] eqn:Hs; [|done]. simpl.
  by rewrite (read_height_Some _ _ _ (commit_loop_lookup hs ss m j s Hnd Hs)).
Qed.

(** [_applyNewSize] on any layout of distinct ids, whatever is stored. *)
Lemma applyNewSize_any l :
  NoDup (map id (_sections l)) ->
  exists l', _applyNewSize l = Ret tt l' /\ settled l l' /\
    _sections l' = _sections l /\ _collapsedState l' = _collapsedState l /\
    _availableHeight l' = _availableHeight l /\
    forall h, finish h l' = Ret h l'.
Proof.
  intros Hnd.
  unfold _applyNewSize, bind, gets, load_heights, modify.
  cbn [_sections set_heights].
  match goal with
  | |- context [_applyOverflow ?o ?secs true ?l1] =>
      destruct (applyOverflow_reshaped l o secs true (valid_all_indices l) l1)
        as (r & l2 & Hrun & Hl2)
  end.
  { split; [by repeat split|]. split; [done|].
    cbn [_heights set_heights]. by rewrite length_map. }
  rewrite Hrun.
  pose proof (reshaped_eq _ _ Hl2) as El2.
  destruct Hl2 as (_ & _ & Hlen).
  revert Hlen El2. generalize (_heights l2). intros hs' Hlen ->.
  eexists. split; [reflexivity|].
  unfold _applyHeights, _commitHeights, modify.
  cbn [_heights _sections _sectionHeights _applyHeight set_heights set_applyHeight].
  set (l1 := set_applyHeight _ (set_heights hs' l)).
  assert (committed_heights
            (set_sectionHeights (commit_loop hs' (_sections l) (_sectionHeights l)) l1) = hs')
    as Hcommitted.
  { apply (committed_after_commit hs' l1); [done|done]. }
  split; [split|split; [|split; [|split]]].
  - cbn [_applyHeight set_sectionHeights set_applyHeight l1 _sections]. f_equal.
    unfold sectionHeight_of. cbn [_sectionHeights set_sectionHeights].
    by apply committed_batch.
  - by rewrite Hcommitted.
  - done.
  - done.
  - done.
  - intros h. unfold finish, _commitHeights, bind, modify, ret.
    cbn [_heights _sections _sectionHeights set_sectionHeights set_applyHeight
         set_heights l1].
    by rewrite commit_loop_settles.
Qed.

(** [update] with any valid section list, on any layout: it ends, adopts
    the list and the available height, and, unless it returns early,
    leaves the layout settled. *)
Lemma update_any ss a l :
  valid_sections ss = true ->
  update_returns_early ss a l = true /\ update ss a l = Ret tt l \/
  update_returns_early ss a l = false /\
  exists l', update ss a l = Ret tt l' /\ settled l l' /\
    _sections l' = ss /\ _collapsedState l' = _collapsedState l /\
    _availableHeight l' = _availableHeight (adopted ss a l) /\
    forall h, finish h l' = Ret h l'.
Proof.
  intros Hss. apply bool_decide_eq_true in Hss.
  rewrite update_eq. cbn zeta. fold (update_returns_early ss a l).
  destruct (update_returns_early ss a l) eqn:He.
  { left. split; [done|]. unfold update_returns_early in He.
    apply andb_true_iff in He as [He _]. apply negb_true_iff in He. by rewrite He. }
  right. split; [done|]. fold (adopted ss a l).
  assert (NoDup (map id (_sections (adopted ss a l)))) as Hnd.
  { unfold adopted. by destruct (_ && _). }
  destruct (seed_heights_spec (adopted ss a l) Hnd)
    as (l1 & Hseed & (Hs & Hc & Hav & Hh & Hlog) & _).
  destruct (applyNewSize_any l1 ltac:(by rewrite Hs))
    as (l' & Hrun & [Hcalls Hheights] & Hs' & Hc' & Hav' & Hfin).
  exists l'. split; [unfold bind; by rewrite Hseed|].
  split; [split; [|done]|].
  { rewrite Hcalls, Hlog. unfold adopted. by destruct (_ && _). }
  split; [rewrite Hs', Hs; unfold adopted; by destruct (_ && _)|].
  split; [rewrite Hc', Hc; unfold adopted; by destruct (_ && _)|].
  split; [by rewrite Hav', Hav|done].
Qed.

(* ------------------------------------------------------------------ *)
(** *** [update] and its test for a change *)

Lemma section_differs_false a b : section_differs a b = false <-> a = b.
Proof.
  unfold section_differs. rewrite orb_false_iff, !negb_false_iff.
  rewrite String.eqb_eq, Nat.eqb_eq. destruct a, b; simpl. split.
  - by intros [-> ->].
  - by intros [= -> ->].
Qed.

Lemma sectionsChanged_false sections old :
  sectionsChanged sections old = false <-> sections = old.
Proof.
  unfold sectionsChanged. rewrite orb_false_iff, negb_false_iff, Nat.eqb_eq.
  split.
  - intros [Hlen Hex]. revert old Hlen Hex.
    induction sections as [|a ss IH]; intros [|b old] Hlen Hex; try done.
    simpl in Hlen, Hex. apply orb_false_iff in Hex as [Hab Hex].
    apply section_differs_false in Hab as ->. f_equal. apply IH; [lia|done].
  - intros <-. split; [done|].
    induction sections as [|a ss IH]; [done|]. simpl.
    apply orb_false_iff. split; [by apply section_differs_false|done].
Qed.

(** X5: the test of [update] for a changed section list is exact: it
    finds no change precisely when the new list equals the current one,
    section by section, in ids and counts. *)
Theorem sectionsChanged_exact (sections old : list section) :
  sectionsChanged sections old = false <-> sections = old.
Proof. apply sectionsChanged_false. Qed.

Lemma num_eq_refl_fin a : isFinite a = true -> num_eq a a = true.
Proof.
  destruct a as [q| | |]; try done. intros _. simpl.
  apply Qeq_bool_iff. reflexivity.
Qed.

(** X6: on a well-formed layout a second [update] with the same valid
    section list and the same available height (finite or not) returns
    early and changes nothing, not even the record of callback calls. *)
Theorem update_again_is_noop (l : Layout) (ss : list section) (a : num) :
  well_formed l = true -> valid_sections ss = true ->
  exists l', update ss a l = Ret tt l' /\ update ss a l' = Ret tt l'.
Proof.
  intros _ Hss.
  destruct (update_any ss a l Hss) as [[_ Hrun]|(_ & l' & Hrun & _ & Hs & _ & Ha & _)].
  { by exists l. }
  exists l'. split; [done|].
  rewrite update_eq. cbn zeta.
  assert (isFinite a && negb (num_eq a (_availableHeight l')) = false) as ->.
  { rewrite Ha. unfold adopted.
    destruct (isFinite a && negb (num_eq a (_availableHeight l))) eqn:Ehc.
    - cbn [_availableHeight set_sections set_availableHeight].
      apply andb_true_iff in Ehc as [Hfa _]. rewrite (num_eq_refl_fin a Hfa). apply andb_false_r.
    - exact Ehc. }
  assert (sectionsChanged ss (_sections l') = false) as ->.
  { apply sectionsChanged_false. by symmetry. }
  done.
Qed.

Lemma update_again_is_noop_witness :
  exists l', update two_sections (of_Z 400) empty_layout = Ret tt l' /\
             update two_sections (of_Z 400) l' = Ret tt l'.
Proof.
  apply (update_again_is_noop empty_layout two_sections (of_Z 400)); by vm_compute.
Defined.

(* ------------------------------------------------------------------ *)
(** *** What [_applyOverflow] and the rebalancing leave alone *)

Lemma keeps_refl secs l : keeps secs l l.
Proof. by split. Qed.

Lemma keeps_trans secs l1 l2 l3 :
  keeps secs l1 l2 -> keeps secs l2 l3 -> keeps secs l1 l3.
Proof.
  intros [Ha Hh] [Ha' Hh']. split; [congruence|].
  intros k Hk. rewrite Hh', Hh; done.
Qed.

Lemma keeps_mono secs secs' l l' :
  (forall k, k ∈ secs -> k ∈ secs') -> keeps secs l l' -> keeps secs' l l'.
Proof. intros Hsub [Ha Hh]. split; [done|]. intros k Hk. apply Hh. naive_solver. Qed.

Lemma touches_mono {A : Type} secs secs' (m : M A) :
  (forall k, k ∈ secs -> k ∈ secs') -> touches secs m -> touches secs' m.
Proof.
  intros Hsub Hm l. specialize (Hm l).
  destruct (m l); simpl in *; try done; by eapply keeps_mono.
Qed.

Lemma touches_ret {A : Type} secs (a : A) : touches secs (ret a).
Proof. intros l. apply keeps_refl. Qed.

Lemma touches_gets {A : Type} secs (f : Layout -> A) : touches secs (gets f).
Proof. intros l. apply keeps_refl. Qed.

Lemma touches_bind {A B : Type} secs (m : M A) (k : A -> M B) :
  touches secs m -> (forall a, touches secs (k a)) -> touches secs (bind m k).
Proof.
  intros Hm Hk l. unfold bind. specialize (Hm l).
  destruct (m l) as [a l1|l1|]; simpl in *; [|done|done].
  specialize (Hk a l1). destruct (k a l1); simpl in *; [| |done];
    by eapply keeps_trans.
Qed.

Lemma touches_getMinHeight secs i : touches secs (_getMinHeight i).
Proof.
  intros l. unfold _getMinHeight.
  destruct (array_get _ _); apply keeps_refl.
Qed.

Lemma touches_getMaxHeight secs i : touches secs (_getMaxHeight i).
Proof.
  intros l. unfold _getMaxHeight.
  destruct (array_get _ _); apply keeps_refl.
Qed.

Lemma array_get_set_other xs i v k :
  k <> i ->
  default Undefined (array_get (array_set xs i v) k) =
  default Undefined (array_get xs k).
Proof.
  intros Hk. unfold array_get, array_set.
  destruct (i <? 0)%Z eqn:Ei; [done|]. apply Z.ltb_ge in Ei.
  destruct (k <? 0)%Z eqn:Ek; [done|]. apply Z.ltb_ge in Ek.
  assert (Z.to_nat k <> Z.to_nat i) as Hne by lia.
  destruct (Z.to_nat i <? length xs)%nat eqn:El.
  - by rewrite list_lookup_insert_ne.
  - apply Nat.ltb_ge in El.
    destruct (decide (Z.to_nat k < length xs)%nat) as [Hlt|Hge].
    + by rewrite lookup_app_l.
    + rewrite lookup_app_r by lia. rewrite (lookup_ge_None_2 xs) by lia.
      destruct (decide (Z.to_nat k - length xs < Z.to_nat i - length xs)%nat) as [Hin|Hout].
      * rewrite lookup_app_l by (rewrite length_replicate; lia).
        by rewrite lookup_replicate_2.
      * rewrite lookup_app_r by (rewrite length_replicate; lia).
        rewrite length_replicate.
        destruct (Z.to_nat k - length xs - (Z.to_nat i - length xs))%nat eqn:Ed; [lia|done].
Qed.

Lemma array_get_set_same xs i v :
  (0 <= i)%Z -> array_get (array_set xs i v) i = Some v.
Proof.
  intros Hi. unfold array_get, array_set.
  assert ((i <? 0)%Z = false) as -> by by apply Z.ltb_ge.
  destruct (Z.to_nat i <? length xs)%nat eqn:El.
  - apply Nat.ltb_lt in El. by apply list_lookup_insert_eq.
  - apply Nat.ltb_ge in El. rewrite lookup_app_r by lia.
    rewrite lookup_app_r by (rewrite length_replicate; lia).
    rewrite length_replicate.
    by replace (Z.to_nat i - length xs - (Z.to_nat i - length xs))%nat with 0%nat by lia.
Qed.

Lemma touches_overflow_step blend i o p U :
  touches [i] (overflow_step blend i o p U).
Proof.
  unfold overflow_step.
  apply touches_bind; [apply touches_gets|intros h].
  apply touches_bind; [apply touches_getMinHeight|intros mn].
  apply touches_bind; [apply touches_getMaxHeight|intros mx].
  apply touches_bind; [|intros _; apply touches_ret].
  intros l. simpl. split; [done|]. intros k Hk.
  unfold height_at. cbn [_heights set_heights].
  apply array_get_set_other. intros ->. apply Hk. by apply list_elem_of_singleton.
Qed.

Lemma touches_overflow_loop blend secs : forall o p U,
  touches secs (overflow_loop blend secs o p U).
Proof.
  induction secs as [|i rest IH]; intros o p U; [apply touches_ret|].
  cbn [overflow_loop]. apply touches_bind.
  - eapply touches_mono; [|apply touches_overflow_step].
    intros k Hk. apply list_elem_of_singleton in Hk as ->. by left.
  - intros [o' U'].
    assert (forall o1 p1 U1, touches (i :: rest) (overflow_loop blend rest o1 p1 U1)) as IH'.
    { intros o1 p1 U1. eapply touches_mono; [|apply IH]. intros k Hk. by right. }
    destruct blend; [apply IH'|].
    destruct (abs_lt_1 o'); [apply touches_ret|apply IH'].
Qed.

Lemma touches_applyOverflow blend n : forall secs o,
  (length secs <= n)%nat -> touches secs (_applyOverflow o secs blend).
Proof.
  induction n as [|n IH]; intros secs o Hn l.
  - destruct secs; [|simpl in Hn; lia].
    rewrite applyOverflow_unfold. unfold bind. cbn [overflow_loop ret length Nat.eqb negb].
    rewrite andb_false_r. apply keeps_refl.
  - rewrite applyOverflow_unfold. unfold bind.
    pose proof (touches_overflow_loop blend secs o
      (if blend then num_div o (of_nat (length secs)) else o) [] l) as Hloop.
    destruct (overflow_loop blend secs o _ [] l) as [[o' U'] l1|l1|] eqn:Hl;
      simpl in Hloop; [|done|done].
    destruct (abs_gt_1 o' && negb (length U' =? 0)%nat) eqn:E; [|done].
    pose proof (recursion_shrinks _ _ _ _ _ _ _ Hl E) as Hlt.
    pose proof (overflow_loop_unclamped _ _ _ _ _ _ _ _ _ Hl) as Hsub.
    pose proof (IH U' o' ltac:(lia) l1) as Hrec.
    assert (forall k, k ∈ U' -> k ∈ secs) as Hsub'.
    { intros k Hk. destruct (Hsub k Hk) as [H0|H0]; [by apply elem_of_nil in H0|done]. }
    destruct (_applyOverflow o' U' blend l1); simpl in *; [| |done];
      (eapply keeps_trans; [exact Hloop|by eapply keeps_mono]).
Qed.

Lemma elem_of_sections_above anchor k :
  k ∈ sections_above anchor <-> (0 <= k < anchor)%Z.
Proof.
  unfold sections_above. rewrite elem_of_reverse, elem_of_seqZ. lia.
Qed.

Lemma elem_of_sections_below anchor len k :
  k ∈ sections_below anchor len <-> (anchor < k < Z.of_nat len)%Z.
Proof.
  unfold sections_below. rewrite elem_of_seqZ. lia.
Qed.

Lemma touches_rebalanceAbove anchor o :
  touches (sections_above anchor) (_rebalanceAbove anchor o).
Proof.
  unfold _rebalanceAbove. destruct (abs_gt_1 o); [|apply touches_ret].
  by eapply touches_applyOverflow.
Qed.

Lemma touches_rebalanceBelow anchor o l :
  ends_with (fun _ l' => keeps (sections_below anchor (length (_sections l))) l l')
            (fun l' => keeps (sections_below anchor (length (_sections l))) l l')
            (_rebalanceBelow anchor o l).
Proof.
  unfold _rebalanceBelow. destruct (abs_gt_1 o); [|apply keeps_refl].
  unfold bind, gets. by eapply touches_applyOverflow.
Qed.

(** X7: without [blend], [_applyOverflow] never calls itself, whatever the
    numbers: it is one pass over the sections, nearest first.  A section
    that takes its share unclamped takes the whole remaining overflow, so
    the test for another round always fails. *)
Theorem applyOverflow_no_blend_is_one_pass (overflow : num) (sections : list Z)
    (l : Layout) :
  _applyOverflow overflow sections false l =
  (let! (overflow', _) := overflow_loop false sections overflow overflow [] in
   ret overflow') l.
Proof.
  rewrite applyOverflow_unfold. unfold bind.
  pose proof (overflow_loop_noblend sections overflow [] l) as H.
  destruct (overflow_loop false sections overflow overflow [] l)
    as [[o' U'] l1|l1|]; simpl in H; [|done|done].
  destruct H as [_ [-> | ->]]; [by rewrite andb_false_r|done].
Qed.

(** X8: rebalancing after a drag works on one side of the handle only.
    [_rebalanceAbove] leaves the in-progress height of the anchor and of
    every section below it as it was, [_rebalanceBelow] that of the anchor
    and of every section above it; neither makes a callback call, and an
    overflow of at most [1.0] in size changes nothing at all.  This holds
    for all numbers and also when the computation throws. *)
Theorem rebalance_one_side (anchor : Z) (overflow : num) (l : Layout) :
  (exists l', state_of (_rebalanceAbove anchor overflow l) = Some l' /\
     _applyHeight l' = _applyHeight l /\
     forall k, (anchor <= k)%Z -> height_at l' k = height_at l k) /\
  (exists l', state_of (_rebalanceBelow anchor overflow l) = Some l' /\
     _applyHeight l' = _applyHeight l /\
     forall k, (k <= anchor)%Z -> height_at l' k = height_at l k) /\
  (abs_gt_1 overflow = false ->
     _rebalanceAbove anchor overflow l = Ret overflow l /\
     _rebalanceBelow anchor overflow l = Ret overflow l).
Proof.
  split; [|split].
  - pose proof (touches_rebalanceAbove anchor overflow l) as H.
    destruct (_rebalanceAbove anchor overflow l) as [r l'|l'|]; simpl in H; [| |done].
    all: exists l'; split; [done|]; destruct H as [Ha Hh]; split; [done|].
    all: intros k Hk; apply Hh; rewrite elem_of_sections_above; lia.
  - pose proof (touches_rebalanceBelow anchor overflow l) as H.
    destruct (_rebalanceBelow anchor overflow l) as [r l'|l'|]; simpl in H; [| |done].
    all: exists l'; split; [done|]; destruct H as [Ha Hh]; split; [done|].
    all: intros k Hk; apply Hh; rewrite elem_of_sections_below; lia.
  - intros E. unfold _rebalanceAbove, _rebalanceBelow. by rewrite E.
Qed.

(* ------------------------------------------------------------------ *)
(** *** After a redistribution *)



(* ------------------------------------------------------------------ *)
(** *** What a round of [_relayout] does *)

Lemma round_spec anchor offset l :
  ends_with
    (fun _ l2 => config_eq l l2 /\ _applyHeight l2 = _applyHeight l /\
                 round_post anchor offset l l2)
    (fun l2 => config_eq l l2 /\ _applyHeight l2 = _applyHeight l)
    (relayout_round anchor offset l).
Proof.
  cbv [relayout_round bind load_heights modify gets ret].
  unfold _getMaxHeight at 1. cbn [_sections set_heights].
  destruct (array_get (_sections l) anchor) as [s|] eqn:Hs; [|by simpl].
  unfold _getMinHeight at 1. cbn [_sections set_heights]. rewrite Hs.
  destruct (array_get_Some _ _ _ Hs) as (j & -> & Hj).
  set (l1 := set_heights (map (fun s0 => sectionHeight_of l (id s0)) (_sections l)) l).
  assert (height_at l1 (Z.of_nat j) = sectionHeight_of l (id s)) as Hh.
  { unfold height_at, l1. cbn [_heights set_heights].
    by rewrite array_get_nat, list_lookup_fmap, Hj. }
  rewrite Hh.
  change (maxHeight_of l1 s) with (maxHeight_of l s).
  change (minHeight_of l1 s) with (minHeight_of l s).
  set (newh := clamp_value _ (minHeight_of l s) (maxHeight_of l s)).
  set (oa := if num_gt _ _ then _ else _).
  set (l2 := set_heights (array_set (_heights l1) (Z.of_nat j) newh) l1).
  assert (height_at l2 (Z.of_nat j) = newh) as H2.
  { unfold height_at, l2. cbn [_heights set_heights].
    rewrite array_get_set_same; [done|lia]. }
  pose proof (touches_rebalanceAbove (Z.of_nat j) oa l2) as Hta.
  pose proof (frames_rebalanceAbove (Z.of_nat j) oa l2) as Hfa.
  destruct (_rebalanceAbove (Z.of_nat j) oa l2) as [ra l3|l3|]; simpl in Hta, Hfa; [| |done].
  - pose proof (touches_rebalanceBelow (Z.of_nat j) offset l3) as Htb.
    pose proof (frames_rebalanceBelow (Z.of_nat j) offset l3) as Hfb.
    assert (config_eq l l3) as Hc3.
    { eapply config_eq_trans; [|exact Hfa]. by repeat split. }
    destruct (_rebalanceBelow (Z.of_nat j) offset l3) as [rb l4|l4|];
      simpl in Htb, Hfb |- *; [| |done].
    + split; [by eapply config_eq_trans|]. destruct Hta as [Hla Hha], Htb as [Hlb Hhb].
      split; [by rewrite Hlb, Hla|].
      exists s. split; [done|]. rewrite Hhb, Hha; [done| |].
      * rewrite elem_of_sections_above. lia.
      * rewrite elem_of_sections_below. lia.
    + split; [by eapply config_eq_trans|]. destruct Hta as [Hla _], Htb as [Hlb _].
      by rewrite Hlb, Hla.
  - simpl. split; [|by destruct Hta as [-> _]].
    eapply config_eq_trans; [|exact Hfa]. by repeat split.
Qed.

Lemma relayout_called_back fuel : forall anchor offset (clamped : bool) l,
  ((if clamped then 1 else 2) <= fuel)%nat ->
  called_back l (_relayout_fuel fuel anchor offset clamped l).
Proof.
  induction fuel as [|fuel IH]; intros anchor offset clamped l Hf;
    [destruct clamped; lia|].
  rewrite relayout_fuel_round. unfold bind at 1.
  pose proof (round_spec anchor offset l) as Hr.
  destruct (relayout_round anchor offset l) as [[oa ob] l2|l2|]; simpl in Hr; [| |done].
  - destruct Hr as (Hc & Hlog & _).
    assert (called_back l ((_applyHeights ;;; ret Undefined) l2)) as Hfinal.
    { cbv [bind _applyHeights modify ret called_back].
      cbn [_applyHeight set_applyHeight _heights _sections]. by rewrite Hlog. }
    assert (forall off', clamped = false ->
      called_back l ((_relayout_fuel fuel anchor off' true ;;; ret (Num off')) l2)) as Hrec.
    { intros off' ->. simpl in Hf. assert (1 <= fuel)%nat as Hf1 by lia.
      specialize (IH anchor off' true l2 Hf1).
      unfold bind. destruct (_relayout_fuel fuel anchor off' true l2); simpl in *;
        [by rewrite <- Hlog|by rewrite <- Hlog|done]. }
    destruct clamped; cbn [negb andb]; [exact Hfinal|].
    destruct (abs_gt_1 oa); [by apply Hrec|].
    destruct (abs_gt_1 ob); [by apply Hrec|exact Hfinal].
  - simpl. by destruct Hr.
Qed.

(** X11: a [setHeight] that returns has called the callback exactly once
    per section, in list order, with the in-progress heights it leaves; one
    that throws has not called it.  A second round of [_relayout] adds no
    calls.  This holds for all numbers. *)
Theorem setHeight_calls_back_once (h : Handle) (height : num) (l : Layout) :
  (forall l', setHeight h height l = Ret h l' ->
     _applyHeight l' =
     _applyHeight l ++
     imap (fun i s => (id s, default Undefined (_heights l' !! i))) (_sections l)) /\
  (forall l', setHeight h height l = Throw l' -> _applyHeight l' = _applyHeight l) /\
  ((0 <= _anchor h < Z.of_nat (length (_sections l)))%Z <->
   exists l', setHeight h height l = Ret h l').
Proof.
  pose proof (relayout_called_back 2 (_anchor h)
    (num_sub height (toNumber (_initialHeight h))) false l ltac:(simpl; lia)) as Hcb.
  pose proof (frames_relayout (_anchor h)
    (num_sub height (toNumber (_initialHeight h))) false l) as Hfr.
  unfold setHeight, bind, _relayout in *.
  destruct (_relayout_fuel 2 _ _ false l) as [r l1|l1|] eqn:Hrun; simpl in Hcb, Hfr;
    [| |done].
  - split; [|split; [done|]].
    + intros l' [= <-]. destruct Hfr as (Hs & _). by rewrite <- Hs.
    + split; [eauto|]. intros _.
      destruct (array_get (_sections l) (_anchor h)) as [s|] eqn:Hs.
      * apply array_get_Some in Hs as (j & -> & Hj). apply lookup_lt_Some in Hj. lia.
      * by rewrite (relayout_throws 1 _ _ false l Hs) in Hrun.
  - split; [done|]. split; [by intros l' [= <-]|].
    split; [|by intros [l' ?]]. intros Hi.
    destruct (returns_relayout_fuel (_sections l) 2 (_anchor h)
      (num_sub height (toNumber (_initialHeight h))) false ltac:(simpl; lia) Hi l eq_refl)
      as (a & l' & Hret). congruence.
Qed.

Lemma round_post_config anchor c l l2 l' :
  config_eq l l2 -> round_post anchor c l2 l' -> round_post anchor c l l'.
Proof.
  intros (Hs & Hc & _ & Hst) (s & Hget & Hh). exists s. split; [by rewrite <- Hs|].
  rewrite Hh. unfold sectionHeight_of, read_height, minHeight_of, maxHeight_of, collapsed_of.
  by rewrite Hst, Hc.
Qed.

Lemma relayout_clamped_round fuel anchor c l r l' :
  _relayout_fuel (S fuel) anchor c true l = Ret r l' ->
  r = Undefined /\ round_post anchor c l l'.
Proof.
  rewrite relayout_fuel_round. unfold bind at 1.
  pose proof (round_spec anchor c l) as Hr.
  destruct (relayout_round anchor c l) as [[oa ob] l2|l2|]; simpl in Hr; [|done|done].
  cbn [negb andb]. cbv [bind _applyHeights modify ret]. intros [= <- <-].
  split; [done|]. destruct Hr as (_ & _ & s & Hs & Hh). by exists s.
Qed.

Lemma same_but_heights l l2 :
  config_eq l l2 -> _applyHeight l2 = _applyHeight l -> l2 = set_heights (_heights l2) l.
Proof.
  intros (Hs & Hc & Ha & Hst) Hlog. destruct l, l2; simpl in *. by subst.
Qed.

(** X12: [_relayout] at a section of the list returns, for all numbers,
    either [undefined] or the offset [c] it has been clamped at, and it
    leaves the layout exactly as a call with [clamped] set does that is
    given the effective offset: the given one when [undefined] is
    returned, and [c] otherwise. *)
Theorem relayout_as_clamped (l : Layout) (j : nat) (s : section) (offset : num) :
  _sections l !! j = Some s ->
  exists r l', _relayout (Z.of_nat j) offset false l = Ret r l' /\
    (r = Undefined /\ _relayout (Z.of_nat j) offset true l = Ret Undefined l' \/
     exists c, r = Num c /\ _relayout (Z.of_nat j) c true l = Ret Undefined l').
Proof.
  intros Hs. pose proof (lookup_lt_Some _ _ _ Hs) as Hj.
  destruct (returns_relayout_fuel (_sections l) 2 (Z.of_nat j) offset false
              ltac:(simpl; lia) ltac:(lia) l eq_refl) as (r & l' & Hrun).
  exists r, l'. split; [exact Hrun|].
  unfold _relayout at 1.
  rewrite relayout_fuel_round in Hrun |- *. unfold bind at 1 in Hrun. unfold bind at 1.
  pose proof (round_spec (Z.of_nat j) offset l) as Hr.
  destruct (relayout_round (Z.of_nat j) offset l) as [[oa ob] l2|l2|]; simpl in Hr;
    [|done|done].
  destruct Hr as (Hc & Hlog & Hround).
  assert (forall c,
    (_relayout_fuel 1 (Z.of_nat j) c true ;;; ret (Num c)) l2 = Ret r l' ->
    r = Num c /\ _relayout (Z.of_nat j) c true l = Ret Undefined l') as Hrec.
  { intros c Hrun2. unfold bind, ret in Hrun2.
    destruct (_relayout_fuel 1 (Z.of_nat j) c true l2) as [r2 l3|l3|] eqn:H2; [|done|done].
    injection Hrun2 as <- <-. split; [done|].
    destruct (relayout_clamped_round _ _ _ _ _ _ H2) as [-> Hp].
    rewrite (same_but_heights l l2 Hc Hlog), relayout_fuel_ignores_heights in H2.
    unfold _relayout. rewrite relayout_fuel_S; [done|]. by rewrite H2. }
  cbn [negb andb] in Hrun |- *.
  destruct (abs_gt_1 oa).
  { destruct (Hrec _ Hrun) as (-> & Hsame). right. eauto. }
  destruct (abs_gt_1 ob).
  { destruct (Hrec _ Hrun) as (-> & Hsame). right. eauto. }
  left. cbv [bind _applyHeights modify ret] in Hrun |- *. by injection Hrun as <- <-.
Qed.

Lemma relayout_as_clamped_witness :
  exists r l', _relayout (Z.of_nat 0) (of_Z 10) false example_layout = Ret r l' /\
    (r = Undefined /\ _relayout (Z.of_nat 0) (of_Z 10) true example_layout = Ret Undefined l' \/
     exists c, r = Num c /\ _relayout (Z.of_nat 0) c true example_layout = Ret Undefined l').
Proof.
  apply (relayout_as_clamped example_layout 0 (mkSection "A" 3) (of_Z 10)).
  by vm_compute.
Defined.

(* ------------------------------------------------------------------ *)
(** *** The sum of the heights during a drag *)

Lemma applyOverflow_within l secs hs oq blend :
  valid_indices l secs ->
  Forall2 (fun s v => within l s v = true) (_sections l) hs ->
  exists hs' r,
    _applyOverflow (Fin oq) secs blend (set_heights hs l) = Ret (Fin r) (set_heights hs' l) /\
    Forall2 (fun s v => within l s v = true) (_sections l) hs' /\
    (sumQ hs' - r == sumQ hs - oq)%Q.
Proof.
  intros Hval Hw.
  assert (Forall2 (fun (_ : section) v => fin_value v = true) (_sections l) hs) as Hfin.
  { eapply Forall2_impl; [exact Hw|]. intros s v. apply within_fin. }
  destruct (applyOverflow_fin blend l (length secs) secs hs oq ltac:(lia) Hfin Hval)
    as (hs' & r & Hrun & Hf & Hsum & _ & Hin & _).
  exists hs', r. split; [done|]. split; [|done].
  apply Forall2_same_length_lookup. split; [by eapply Forall2_length|].
  intros k s v Hs Hv. destruct (Hin k s v Hs Hv) as [Hold|?]; [|done].
  exact (Forall2_lookup_lr _ _ _ _ _ _ Hw Hs Hold).
Qed.

Lemma rebalanceAbove_fin l (j : nat) hs oq :
  (j < length (_sections l))%nat ->
  Forall2 (fun s v => within l s v = true) (_sections l) hs ->
  exists hs' r,
    _rebalanceAbove (Z.of_nat j) (Fin oq) (set_heights hs l) =
      Ret (Fin r) (set_heights hs' l) /\
    Forall2 (fun s v => within l s v = true) (_sections l) hs' /\
    (sumQ hs' - r == sumQ hs - oq)%Q.
Proof.
  intros Hj Hw. unfold _rebalanceAbove. destruct (abs_gt_1 (Fin oq)).
  - apply applyOverflow_within; [by apply valid_sections_above|done].
  - exists hs, oq. split; [done|]. split; [done|reflexivity].
Qed.

Lemma rebalanceBelow_fin l (j : nat) hs oq :
  Forall2 (fun s v => within l s v = true) (_sections l) hs ->
  exists hs' r,
    _rebalanceBelow (Z.of_nat j) (Fin oq) (set_heights hs l) =
      Ret (Fin r) (set_heights hs' l) /\
    Forall2 (fun s v => within l s v = true) (_sections l) hs' /\
    (sumQ hs' - r == sumQ hs - oq)%Q.
Proof.
  intros Hw. unfold _rebalanceBelow. destruct (abs_gt_1 (Fin oq)).
  - unfold bind, gets. cbn [_sections set_heights].
    apply applyOverflow_within; [apply valid_sections_below|done].
  - exists hs, oq. split; [done|]. split; [done|reflexivity].
Qed.

Lemma round_fin l (j : nat) s off :
  _sections l !! j = Some s ->
  Forall2 (fun s v => within l s v = true) (_sections l) (committed_heights l) ->
  exists hs3 ra rb,
    relayout_round (Z.of_nat j) (Fin off) l = Ret (Fin ra, Fin rb) (set_heights hs3 l) /\
    Forall2 (fun s v => within l s v = true) (_sections l) hs3 /\
    (sumQ hs3 == committed_sum l + ra + rb)%Q.
Proof.
  intros Hs Hcom. pose proof (lookup_lt_Some _ _ _ Hs) as Hj.
  destruct (Forall2_lookup_l _ _ _ _ _ Hcom Hs) as (v & Hv & Hwv).
  pose proof Hwv as Hwv'. apply within_true in Hwv' as (hq & -> & Hb).
  cbv [relayout_round bind load_heights modify gets ret].
  change (map (fun s0 => sectionHeight_of l (id s0)) (_sections l))
    with (committed_heights l).
  unfold _getMaxHeight at 1. cbn [_sections set_heights].
  rewrite array_get_nat, Hs. cbn beta iota.
  unfold _getMinHeight at 1. cbn [_sections set_heights].
  rewrite array_get_nat, Hs. cbn beta iota.
  unfold height_at. cbn [_heights set_heights]. rewrite !array_get_nat, Hv.
  cbn [from_option Datatypes.id toNumber js_add clamp_value].
  change (maxHeight_of (set_heights (committed_heights l) l) s) with (maxHeight_of l s).
  change (minHeight_of (set_heights (committed_heights l) l) s) with (minHeight_of l s).
  rewrite (minHeight_of_qof l s), (maxHeight_of_qof l s).
  set (mn := qof (minHeight_of l s)) in *. set (mx := qof (maxHeight_of l s)) in *.
  pose proof (min_le_max l s) as Hmm. fold mn mx in Hmm.
  assert (exists y oa,
    clamp (num_add (Fin hq) (Fin off)) (Fin mn) (Fin mx) = Fin y /\
    (if num_gt (num_add (Fin hq) (Fin off)) (Fin mx)
     then num_sub (num_sub (Fin mx) (Fin hq)) (Fin off)
     else if num_lt (num_add (Fin hq) (Fin off)) (Fin mn)
          then num_sub (num_sub (Fin mn) (Fin hq)) (Fin off)
          else of_Z 0) = Fin oa /\
    (mn <= y /\ y <= mx)%Q /\ (y - hq == off + oa)%Q) as (y & oa & -> & -> & Hy & Hoa).
  { unfold clamp. cbn [num_add]. unfold num_gt. cbn [num_lt].
    destruct (Qlt_bool mx (hq + off)) eqn:E1.
    - exists mx, (mx - hq - off)%Q. rewrite !num_sub_Fin.
      split; [done|]. split; [done|]. split; lra.
    - apply Qlt_bool_false in E1. destruct (Qlt_bool (hq + off) mn) eqn:E2.
      + exists mn, (mn - hq - off)%Q. rewrite !num_sub_Fin.
        split; [done|]. split; [done|]. split; lra.
      + apply Qlt_bool_false in E2. exists (hq + off)%Q, (inject_Z 0).
        split; [done|]. split; [done|]. split; [lra|].
        change (inject_Z 0) with 0%Q. lra. }
  rewrite array_set_nat by (unfold committed_heights; by rewrite length_map).
  set (hs1 := <[j:=Num (Fin y)]> (committed_heights l)).
  assert (Forall2 (fun s v => within l s v = true) (_sections l) hs1) as Hw1.
  { apply Forall2_same_length_lookup. split.
    { unfold hs1. rewrite length_insert. by eapply Forall2_length. }
    intros k s' v' Hs' Hv'. unfold hs1 in Hv'. destruct (decide (k = j)) as [->|Hne].
    - rewrite list_lookup_insert_eq in Hv' by (by eapply lookup_lt_Some).
      injection Hv' as <-. assert (s' = s) as -> by congruence.
      apply within_true. eauto.
    - rewrite list_lookup_insert_ne in Hv' by done.
      exact (Forall2_lookup_lr _ _ _ _ _ _ Hcom Hs' Hv'). }
  assert (sumQ hs1 == committed_sum l - hq + y)%Q as Hsum1.
  { unfold hs1. rewrite (sumQ_insert _ _ _ _ Hv). reflexivity. }
  destruct (rebalanceAbove_fin l j hs1 oa Hj Hw1) as (hs2 & ra & Hra & Hw2 & Hsum2).
  change (set_heights hs1 (set_heights (committed_heights l) l)) with (set_heights hs1 l).
  rewrite Hra.
  destruct (rebalanceBelow_fin l j hs2 off Hw2) as (hs3 & rb & Hrb & Hw3 & Hsum3).
  rewrite Hrb. exists hs3, ra, rb. split; [done|]. split; [done|]. lra.
Qed.

(** X13: a drag of a section of a well-formed layout by a finite offset
    returns; when [_relayout] returns [undefined] (the drag was not clamped)
    the sum of the in-progress heights differs from the sum of the
    committed heights by at most [2]: what the rebalancing above and below
    could not place is at most [1.0] each. *)
Theorem relayout_keeps_sum (l : Layout) (j : nat) (s : section) (off : Q) :
  well_formed l = true -> _sections l !! j = Some s ->
  exists r l', _relayout (Z.of_nat j) (Fin off) false l = Ret r l' /\
    (r = Undefined ->
     (-2 <= sumQ (_heights l') - committed_sum l /\
      sumQ (_heights l') - committed_sum l <= 2)%Q).
Proof.
  intros Hwf Hs. apply well_formed_true in Hwf as (_ & _ & _ & Hcom & _).
  destruct (round_fin l j s off Hs Hcom) as (hs3 & ra & rb & Hround & _ & Hsum).
  unfold _relayout. rewrite relayout_fuel_round. unfold bind at 1. rewrite Hround.
  cbn [negb andb].
  destruct (abs_gt_1 (Fin ra)) eqn:Ea.
  { pose proof (lookup_lt_Some _ _ _ Hs) as Hj.
    destruct (returns_relayout_fuel (_sections l) 1 (Z.of_nat j) (num_add (Fin off) (Fin ra))
                true ltac:(simpl; lia) ltac:(lia) (set_heights hs3 l) eq_refl)
      as (r2 & l' & Hrun).
    exists (Num (num_add (Fin off) (Fin ra))), l'. unfold bind. rewrite Hrun.
    split; [done|]. done. }
  destruct (abs_gt_1 (Fin rb)) eqn:Eb.
  { pose proof (lookup_lt_Some _ _ _ Hs) as Hj.
    destruct (returns_relayout_fuel (_sections l) 1 (Z.of_nat j) (num_sub (Fin off) (Fin rb))
                true ltac:(simpl; lia) ltac:(lia) (set_heights hs3 l) eq_refl)
      as (r2 & l' & Hrun).
    exists (Num (num_sub (Fin off) (Fin rb))), l'. unfold bind. rewrite Hrun.
    split; [done|]. done. }
  eexists _, _. split; [reflexivity|]. intros _.
  cbn [_heights set_applyHeight set_heights].
  apply abs_gt_1_false in Ea, Eb. lra.
Qed.

Lemma relayout_keeps_sum_witness :
  exists r l', _relayout (Z.of_nat 0) (Fin 10) false example_layout = Ret r l' /\
    (r = Undefined ->
     (-2 <= sumQ (_heights l') - committed_sum example_layout /\
      sumQ (_heights l') - committed_sum example_layout <= 2)%Q).
Proof.
  apply (relayout_keeps_sum example_layout 0 (mkSection "A" 3) 10); by vm_compute.
Defined.

(* ------------------------------------------------------------------ *)
(** *** Drags that no bound stops *)

(** X14: a drag below the threshold.  On a well-formed layout, dragging
    the handle of a section to a height within its bounds that differs
    from its committed height by at most [1.0] moves that section only: no
    other section is rebalanced, so the sum of the heights changes by the
    drag. *)
Theorem drag_below_threshold (l : Layout) (j : nat) (s : section) (ht : Q) :
  well_formed l = true -> _sections l !! j = Some s ->
  abs_gt_1 (Fin (ht - committed_height l s)) = false ->
  within l s (Num (Fin ht)) = true ->
  exists h l',
    (let! h := openHandle (id s) in setHeight h (Fin ht)) l = Ret h l' /\
    _heights l' =
      <[j := Num (Fin (committed_height l s + (ht - committed_height l s)))]>
        (committed_heights l) /\
    (sumQ (_heights l') == committed_sum l + (ht - committed_height l s))%Q.
Proof.
  intros Hwf Hs Hsmall Hw.
  pose proof (well_formed_committed l j s Hwf Hs) as Hh.
  apply within_fin, fin_value_true in Hh as [hq Hh].
  assert (committed_height l s = hq) as Hhj by (unfold committed_height; by rewrite Hh).
  rewrite Hhj in *. clear Hhj.
  apply well_formed_true in Hwf as (Hnd & _).
  apply within_true in Hw as (q & [= <-] & Hb).
  assert (committed_heights l !! j = Some (Num (Fin hq))) as Hv.
  { unfold committed_heights. by rewrite list_lookup_fmap, Hs; simpl; rewrite Hh. }
  eexists _, _. split; [|split].
  - unfold bind at 1. rewrite openHandle_eq, (getSectionIndex_NoDup l j s Hnd Hs), Hh.
    unfold setHeight, bind, _relayout. cbn [_anchor _initialHeight toNumber].
    rewrite num_sub_Fin, relayout_fuel_round. unfold bind at 1.
    rewrite (round_in_range l j s hq (ht - hq) Hs Hh) by lra.
    unfold bind at 1, _rebalanceBelow. rewrite Hsmall. unfold ret at 1 2.
    cbn [negb andb]. rewrite Hsmall.
    change (abs_gt_1 (of_Z 0)) with false. cbn iota.
    cbv [bind _applyHeights modify ret]. reflexivity.
  - done.
  - cbn [_heights set_applyHeight set_heights].
    rewrite (sumQ_insert _ _ _ _ Hv). unfold committed_sum, qval. simpl. lra.
Qed.

Lemma drag_below_threshold_witness :
  exists h l',
    (let! h := openHandle "A" in setHeight h (Fin 200)) example_layout = Ret h l' /\
    _heights l' =
      <[0%nat := Num (Fin (committed_height example_layout (mkSection "A" 3) +
                           (200 - committed_height example_layout (mkSection "A" 3))))]>
        (committed_heights example_layout) /\
    (sumQ (_heights l') ==
     committed_sum example_layout +
     (200 - committed_height example_layout (mkSection "A" 3)))%Q.
Proof.
  apply (drag_below_threshold example_layout 0 (mkSection "A" 3) 200); by vm_compute.
Defined.

Lemma overflow_step_room blend (j : nat) oq pq U l s hq :
  _sections l !! j = Some s ->
  _heights l !! j = Some (Num (Fin hq)) ->
  (qof (minHeight_of l s) <= hq - pq /\ hq - pq <= qof (maxHeight_of l s))%Q ->
  overflow_step blend (Z.of_nat j) (Fin oq) (Fin pq) U l =
    Ret (Fin (oq - (hq - (hq - pq))), U ++ [Z.of_nat j])
        (set_heights (<[j := Num (Fin (hq - pq))]> (_heights l)) l).
Proof.
  intros Hs Hh Hroom.
  unfold overflow_step, bind, gets, modify, ret, _getMinHeight, _getMaxHeight, height_at.
  rewrite !array_get_nat, Hs, Hh. cbn [from_option Datatypes.id toNumber].
  rewrite array_get_nat, Hs.
  rewrite (minHeight_of_qof l s), (maxHeight_of_qof l s), !num_sub_Fin.
  rewrite (clamp_in_range _ _ _ Hroom).
  cbn [num_eq]. assert (Qeq_bool (hq - pq) (hq - pq) = true) as ->.
  { apply Qeq_bool_iff. reflexivity. }
  rewrite !num_sub_Fin.
  rewrite array_set_nat; [done|]. by eapply lookup_lt_Some.
Qed.

Lemma sections_below_cons (j len : nat) :
  (S j < len)%nat ->
  exists rest, sections_below (Z.of_nat j) len = Z.of_nat (S j) :: rest.
Proof.
  intros H. unfold sections_below. rewrite seqZ_cons by lia.
  replace (Z.of_nat j + 1)%Z with (Z.of_nat (S j)) by lia. eauto.
Qed.

Lemma drag_next_explicit (l : Layout) (j : nat) (s s' : section) (ht : Q) :
  well_formed l = true ->
  _sections l !! j = Some s -> _sections l !! S j = Some s' ->
  abs_gt_1 (Fin (ht - committed_height l s)) = true ->
  within l s (Num (Fin ht)) = true ->
  within l s' (Num (Fin (committed_height l s' - (ht - committed_height l s)))) = true ->
  exists h l',
    (let! h := openHandle (id s) in setHeight h (Fin ht)) l = Ret h l' /\
    _heights l' =
      <[S j := Num (Fin (committed_height l s' - (ht - committed_height l s)))]>
        (<[j := Num (Fin (committed_height l s + (ht - committed_height l s)))]>
           (committed_heights l)).
Proof.
  intros Hwf Hs Hs' Hbig Hw Hw'.
  pose proof (well_formed_committed l j s Hwf Hs) as Hh.
  apply within_fin, fin_value_true in Hh as [hq Hh].
  pose proof (well_formed_committed l (S j) s' Hwf Hs') as Hh'.
  apply within_fin, fin_value_true in Hh' as [hq' Hh'].
  assert (committed_height l s = hq) as Hhj by (unfold committed_height; by rewrite Hh).
  assert (committed_height l s' = hq') as Hhj' by (unfold committed_height; by rewrite Hh').
  rewrite Hhj, Hhj' in *. clear Hhj Hhj'.
  apply well_formed_true in Hwf as (Hnd & _).
  apply within_true in Hw as (q & [= <-] & Hb).
  apply within_true in Hw' as (q' & [= <-] & Hb').
  assert (committed_heights l !! j = Some (Num (Fin hq))) as Hv.
  { unfold committed_heights. by rewrite list_lookup_fmap, Hs; simpl; rewrite Hh. }
  assert (committed_heights l !! S j = Some (Num (Fin hq'))) as Hv'.
  { unfold committed_heights. by rewrite list_lookup_fmap, Hs'; simpl; rewrite Hh'. }
  set (off := (ht - hq)%Q) in *.
  set (hs1 := <[j:=Num (Fin (hq + off))]> (committed_heights l)).
  assert (hs1 !! S j = Some (Num (Fin hq'))) as Hv1.
  { unfold hs1. rewrite list_lookup_insert_ne by lia. done. }
  destruct (sections_below_cons j (length (_sections l))) as [rest Hbelow].
  { by eapply lookup_lt_Some. }
  assert (abs_lt_1 (Fin (off - (hq' - (hq' - off)))) = true) as Hlt.
  { apply abs_lt_1_Fin. lra. }
  assert (abs_gt_1 (Fin (off - (hq' - (hq' - off)))) = false) as Hgt.
  { apply not_true_is_false. intros E. apply abs_gt_1_Fin in E. lra. }
  eexists _, _. split.
  - unfold bind at 1. rewrite openHandle_eq, (getSectionIndex_NoDup l j s Hnd Hs), Hh.
    unfold setHeight, bind, _relayout. cbn [_anchor _initialHeight toNumber].
    rewrite num_sub_Fin, relayout_fuel_round. unfold bind at 1. fold off.
    rewrite (round_in_range l j s hq off Hs Hh) by (unfold off; lra).
    fold hs1. unfold bind at 1, _rebalanceBelow. rewrite Hbig.
    unfold bind at 1, gets. cbn [_sections set_heights]. rewrite Hbelow.
    rewrite applyOverflow_unfold. unfold bind at 1. cbn [overflow_loop]. unfold bind at 1.
    rewrite (overflow_step_room false (S j) off off [] (set_heights hs1 l) s' hq' Hs' Hv1 Hb').
    rewrite Hlt. unfold ret at 1. rewrite Hgt. cbn [andb]. unfold ret at 1 2.
    cbn [negb andb]. change (abs_gt_1 (of_Z 0)) with false. cbn iota. rewrite Hgt.
    cbv [bind _applyHeights modify ret]. reflexivity.
  - done.
Qed.

(** X15: a drag that the next section absorbs.  On a well-formed layout,
    dragging the handle of section [j] by more than [1.0] to a height
    within its bounds, when section [j + 1] can give (or take) the whole
    difference within its own bounds, returns and touches these two
    sections only: every other section keeps its committed height as its
    in-progress height, and the two sections end within their bounds. *)
Theorem drag_takes_from_next (l : Layout) (j : nat) (s s' : section) (ht : Q) :
  well_formed l = true ->
  _sections l !! j = Some s -> _sections l !! S j = Some s' ->
  abs_gt_1 (Fin (ht - committed_height l s)) = true ->
  within l s (Num (Fin ht)) = true ->
  within l s' (Num (Fin (committed_height l s' - (ht - committed_height l s)))) = true ->
  exists h l',
    (let! h := openHandle (id s) in setHeight h (Fin ht)) l = Ret h l' /\
    length (_heights l') = length (_sections l) /\
    (forall k, k <> j -> k <> S j -> _heights l' !! k = committed_heights l !! k) /\
    (exists v v', _heights l' !! j = Some v /\ within l s v = true /\
                  _heights l' !! S j = Some v' /\ within l s' v' = true).
Proof.
  intros Hwf Hs Hs' Hbig Hw Hw'.
  destruct (drag_next_explicit l j s s' ht Hwf Hs Hs' Hbig Hw Hw') as (h & l' & Hrun & Hh).
  pose proof (well_formed_committed l j s Hwf Hs) as Hc.
  apply within_true in Hc as (hq & Hq & _).
  pose proof (well_formed_committed l (S j) s' Hwf Hs') as Hc'.
  apply within_true in Hc' as (hq' & Hq' & _).
  assert (length (committed_heights l) = length (_sections l)) as Hlen.
  { unfold committed_heights. by rewrite length_map. }
  pose proof (lookup_lt_Some _ _ _ Hs) as Hj. pose proof (lookup_lt_Some _ _ _ Hs') as Hj'.
  exists h, l'. split; [done|]. rewrite Hh. split; [by rewrite !length_insert|]. split.
  - intros k Hk Hk'. by rewrite !list_lookup_insert_ne.
  - eexists _, _. split.
    { rewrite list_lookup_insert_ne by lia.
      apply list_lookup_insert_eq. by rewrite Hlen. }
    split.
    { apply within_true in Hw as (q & [= <-] & Hb). apply within_true.
      eexists. split; [reflexivity|]. unfold committed_height. rewrite Hq.
      cbn [qval toNumber qof]. lra. }
    split; [apply list_lookup_insert_eq; by rewrite length_insert, Hlen|done].
Qed.

Lemma drag_takes_from_next_witness :
  exists h l',
    (let! h := openHandle "A" in setHeight h (Fin 250)) example_layout = Ret h l' /\
    length (_heights l') = length (_sections example_layout) /\
    (forall k, k <> 0%nat -> k <> 1%nat ->
       _heights l' !! k = committed_heights example_layout !! k) /\
    (exists v v', _heights l' !! 0%nat = Some v /\
                  within example_layout (mkSection "A" 3) v = true /\
                  _heights l' !! 1%nat = Some v' /\
                  within example_layout (mkSection "B" 5) v' = true).
Proof.
  apply (drag_takes_from_next example_layout 0 (mkSection "A" 3) (mkSection "B" 5) 250);
    by vm_compute.
Defined.

(* ------------------------------------------------------------------ *)
(** *** The [Distributor] *)

Lemma sim_commitHeights : sim _commitHeights.
Proof.
  apply sim_modify. intros l l' [(Hs & Hc & Ha & Hst) Hh].
  split; [|done]. repeat split; try done.
  cbn [_sectionHeights set_sectionHeights]. by rewrite Hs, Hst, Hh.
Qed.

Lemma same_but_log_sym l l' : same_but_log l l' -> same_but_log l' l.
Proof. intros [(Hs & Hc & Ha & Hst) Hh]. by repeat split. Qed.

(** X16: of the [resize] calls of a drag only the last one counts.  For
    every distributor, all numbers and every layout, [resize(h1)],
    [resize(h2)], [finish()] ends as [resize(h2)], [finish()] does
    (returning or throwing alike) and leaves the same layout: the same
    sections, collapsed state, available height, committed and in-progress
    heights; only the record of callback calls is longer. *)
Theorem resize_last_wins (d : Distributor) (h1 h2 : num) (l : Layout) :
  sim_result ((resize d h1 ;;; resize d h2 ;;; Distributor_finish d) l)
             ((resize d h2 ;;; Distributor_finish d) l).
Proof.
  assert (sim (resize d h2 ;;; Distributor_finish d)) as Hsim.
  { apply sim_bind; [|intros _].
    - apply sim_bind; [|intros _; apply sim_ret].
      apply sim_bind; [apply sim_relayout_fuel|intros _; apply sim_ret].
    - apply sim_bind; [|intros _; apply sim_ret].
      apply sim_bind; [apply sim_commitHeights|intros _; apply sim_ret]. }
  destruct (array_get (_sections l) (_anchor (_handle d))) as [s|] eqn:Hs.
  - destruct (setHeight_returns (_handle d) h1 l ltac:(eauto)) as [l1 Hrun].
    pose proof (setHeight_frames _ _ _ _ Hrun) as Hfr.
    unfold bind at 1, resize at 1. unfold bind at 1. rewrite Hrun. unfold ret at 1.
    assert ((resize d h2 ;;; Distributor_finish d) l1 =
            (resize d h2 ;;; Distributor_finish d) (set_heights (_heights l) l1)) as ->.
    { unfold resize, setHeight, _relayout, bind.
      by rewrite (relayout_fuel_ignores_heights 2 _ _ _ (_heights l) l1). }
    apply Hsim. apply same_but_log_sym. split; [|done]. by destruct Hfr as (?&?&?&?).
  - unfold resize, setHeight, _relayout, bind.
    by rewrite !(relayout_throws 1 _ _ false l Hs).
Qed.

(* ------------------------------------------------------------------ *)
(** *** [expandSection] of an unknown id *)



(* ------------------------------------------------------------------ *)
(** *** Drags by a number that is not finite *)

Lemma num_add_NaN x : num_add x NaN = NaN.
Proof. by destruct x. Qed.

Lemma clamp_NaN mn mx : clamp NaN mn mx = NaN.
Proof. by destruct mn, mx. Qed.

Lemma round_post_NaN (j : nat) l l' s :
  _sections l !! j = Some s -> plain (sectionHeight_of l (id s)) = true ->
  round_post (Z.of_nat j) NaN l l' -> height_at l' (Z.of_nat j) = Num NaN.
Proof.
  intros Hs Hpl (s' & Hs' & ->). rewrite array_get_nat, Hs in Hs'. injection Hs' as <-.
  destruct (sectionHeight_of l (id s)) as [|x|]; [| |done];
    cbn [js_add toNumber clamp_value]; by rewrite num_add_NaN, clamp_NaN.
Qed.

(** An infinite overflow, without [blend], over finite heights: every
    section is clamped and the overflow comes back as it was. *)
Lemma overflow_loop_inf l o secs : forall hs U,
  o = PInf \/ o = NInf ->
  Forall2 (fun (_ : section) v => fin_value v = true) (_sections l) hs ->
  valid_indices l secs ->
  exists hs',
    overflow_loop false secs o o U (set_heights hs l) = Ret (o, U) (set_heights hs' l) /\
    Forall2 (fun (_ : section) v => fin_value v = true) (_sections l) hs'.
Proof.
  induction secs as [|i rest IH]; intros hs U Ho Hfin Hval; [by exists hs|].
  inversion Hval as [|? ? Hi Hval']; subst.
  assert (exists j, i = Z.of_nat j /\ (j < length (_sections l))%nat) as (j & -> & Hj).
  { exists (Z.to_nat i). lia. }
  destruct (lookup_lt_is_Some_2 _ _ Hj) as [s Hs].
  destruct (Forall2_lookup_l _ _ _ _ _ Hfin Hs) as (v0 & Hv0 & Hf0).
  apply fin_value_true in Hf0 as [hq ->].
  assert (exists y,
    overflow_step false (Z.of_nat j) o o U (set_heights hs l) =
    Ret (o, U) (set_heights (<[j := Num (Fin y)]> hs) l)) as [y Hstep].
  { assert (_sections (set_heights hs l) !! j = Some s) as Hs2 by exact Hs.
    assert (_heights (set_heights hs l) !! j = Some (Num (Fin hq))) as Hh2 by exact Hv0.
    unfold overflow_step, bind, gets, modify, ret, _getMinHeight, _getMaxHeight, height_at.
    rewrite !array_get_nat, Hs2, Hh2. cbn [from_option Datatypes.id toNumber].
    rewrite array_get_nat, Hs2.
    change (minHeight_of (set_heights hs l) s) with (minHeight_of l s).
    change (maxHeight_of (set_heights hs l) s) with (maxHeight_of l s).
    rewrite (minHeight_of_qof l s), (maxHeight_of_qof l s).
    rewrite array_set_nat by (by eapply lookup_lt_Some).
    destruct Ho as [-> | ->]; eexists; reflexivity. }
  destruct (IH (<[j := Num (Fin y)]> hs) U Ho) as (hs' & Hrun & Hfin'); [|done|].
  { apply Forall2_same_length_lookup. split.
    - rewrite length_insert. by eapply Forall2_length.
    - intros k a b Ha Hb. destruct (decide (k = j)) as [->|Hne].
      + rewrite list_lookup_insert_eq in Hb by (by eapply lookup_lt_Some).
        by injection Hb as <-.
      + rewrite list_lookup_insert_ne in Hb by done.
        exact (Forall2_lookup_lr _ _ _ _ _ _ Hfin Ha Hb). }
  exists hs'. split; [|done].
  cbn [overflow_loop]. unfold bind. rewrite Hstep.
  assert (abs_lt_1 o = false) as -> by (by destruct Ho as [-> | ->]).
  exact Hrun.
Qed.

Lemma applyOverflow_inf l o secs hs :
  o = PInf \/ o = NInf ->
  Forall2 (fun (_ : section) v => fin_value v = true) (_sections l) hs ->
  valid_indices l secs ->
  exists hs',
    _applyOverflow o secs false (set_heights hs l) = Ret o (set_heights hs' l).
Proof.
  intros Ho Hfin Hval.
  destruct (overflow_loop_inf l o secs hs [] Ho Hfin Hval) as (hs' & Hrun & _).
  exists hs'. rewrite applyOverflow_unfold. unfold bind. rewrite Hrun.
  cbn [length Nat.eqb negb]. by rewrite andb_false_r.
Qed.

Lemma round_inf l (j : nat) s o :
  o = PInf \/ o = NInf ->
  _sections l !! j = Some s ->
  Forall2 (fun s v => within l s v = true) (_sections l) (committed_heights l) ->
  exists ob l2, relayout_round (Z.of_nat j) o l = Ret (num_neg o, ob) l2.
Proof.
  intros Ho Hs Hcom. pose proof (lookup_lt_Some _ _ _ Hs) as Hj.
  destruct (Forall2_lookup_l _ _ _ _ _ Hcom Hs) as (v & Hv & Hwv).
  apply within_fin, fin_value_true in Hwv as [hq ->].
  cbv [relayout_round bind load_heights modify gets ret].
  change (map (fun s0 => sectionHeight_of l (id s0)) (_sections l))
    with (committed_heights l).
  unfold _getMaxHeight at 1. cbn [_sections set_heights].
  rewrite array_get_nat, Hs. cbn beta iota.
  unfold _getMinHeight at 1. cbn [_sections set_heights].
  rewrite array_get_nat, Hs. cbn beta iota.
  unfold height_at. cbn [_heights set_heights]. rewrite !array_get_nat, Hv.
  cbn [from_option Datatypes.id toNumber js_add clamp_value].
  change (maxHeight_of (set_heights (committed_heights l) l) s) with (maxHeight_of l s).
  change (minHeight_of (set_heights (committed_heights l) l) s) with (minHeight_of l s).
  rewrite (minHeight_of_qof l s), (maxHeight_of_qof l s).
  rewrite array_set_nat by (unfold committed_heights; by rewrite length_map).
  assert (exists y,
    clamp (num_add (Fin hq) o) (Fin (qof (minHeight_of l s))) (Fin (qof (maxHeight_of l s)))
      = Fin y /\
    (if num_gt (num_add (Fin hq) o) (Fin (qof (maxHeight_of l s)))
     then num_sub (num_sub (Fin (qof (maxHeight_of l s))) (Fin hq)) o
     else if num_lt (num_add (Fin hq) o) (Fin (qof (minHeight_of l s)))
          then num_sub (num_sub (Fin (qof (minHeight_of l s))) (Fin hq)) o
          else of_Z 0) = num_neg o) as (y & -> & ->).
  { destruct Ho as [-> | ->]; eexists; split; reflexivity. }
  set (hs1 := <[j:=Num (Fin y)]> (committed_heights l)).
  change (set_heights hs1 (set_heights (committed_heights l) l)) with (set_heights hs1 l).
  assert (Forall2 (fun (_ : section) v => fin_value v = true) (_sections l) hs1) as Hfin1.
  { apply Forall2_same_length_lookup. split.
    - unfold hs1. rewrite length_insert. by eapply Forall2_length.
    - intros k a b Ha Hb. unfold hs1 in Hb. destruct (decide (k = j)) as [->|Hne].
      + rewrite list_lookup_insert_eq in Hb by (by eapply lookup_lt_Some).
        by injection Hb as <-.
      + rewrite list_lookup_insert_ne in Hb by done.
        eapply within_fin. exact (Forall2_lookup_lr _ _ _ _ _ _ Hcom Ha Hb). }
  assert (num_neg o = PInf \/ num_neg o = NInf) as Ho'.
  { destruct Ho as [-> | ->]; [by right|by left]. }
  destruct (applyOverflow_inf l (num_neg o) (sections_above (Z.of_nat j)) hs1 Ho' Hfin1)
    as (hs2 & Habove); [by apply valid_sections_above|].
  unfold _rebalanceAbove.
  assert (abs_gt_1 (num_neg o) = true) as -> by (by destruct Ho as [-> | ->]).
  rewrite Habove.
  destruct (returns_rebalanceBelow (_sections l) (Z.of_nat j) o ltac:(lia)
              (set_heights hs2 l) eq_refl) as (ob & l3 & Hbelow).
  rewrite Hbelow. eauto.
Qed.

Lemma relayout_nonfinite l (j : nat) s offset :
  _sections l !! j = Some s ->
  Forall2 (fun s v => within l s v = true) (_sections l) (committed_heights l) ->
  isFinite offset = false ->
  exists r l', _relayout (Z.of_nat j) offset false l = Ret r l' /\
    height_at l' (Z.of_nat j) = Num NaN.
Proof.
  intros Hs Hcom Hnf. pose proof (lookup_lt_Some _ _ _ Hs) as Hj.
  destruct (returns_relayout_fuel (_sections l) 2 (Z.of_nat j) offset false
              ltac:(simpl; lia) ltac:(lia) l eq_refl) as (r & l' & Hrun).
  exists r, l'. split; [exact Hrun|].
  rewrite relayout_fuel_round in Hrun. unfold bind at 1 in Hrun.
  assert (plain (sectionHeight_of l (id s)) = true) as Hpl.
  { destruct (Forall2_lookup_l _ _ _ _ _ Hcom Hs) as (v & Hv & Hwv).
    unfold committed_heights in Hv. rewrite list_lookup_fmap, Hs in Hv.
    injection Hv as <-. by apply within_fin, fin_value_true in Hwv as [hq ->]. }
  assert (forall l2 r2, config_eq l l2 ->
    (_relayout_fuel 1 (Z.of_nat j) NaN true ;;; ret r2) l2 = Ret r l' ->
    height_at l' (Z.of_nat j) = Num NaN) as Hrec.
  { intros l2 r2 Hc2 Hrun2. unfold bind, ret in Hrun2.
    destruct (_relayout_fuel 1 (Z.of_nat j) NaN true l2) as [r3 l3|l3|] eqn:H2; [|done|done].
    injection Hrun2 as <- <-.
    destruct (relayout_clamped_round _ _ _ _ _ _ H2) as [_ Hp].
    apply (round_post_config _ _ l) in Hp; [|done].
    by eapply (round_post_NaN j l _ s). }
  pose proof (round_spec (Z.of_nat j) offset l) as Hr.
  destruct offset as [q|  | |]; [done| | |].
  - destruct (round_inf l j s PInf ltac:(by left) Hs Hcom) as (ob & l2 & Hround).
    rewrite Hround in Hr, Hrun. destruct Hr as (Hc2 & _).
    cbn [negb andb num_neg] in Hrun.
    change (abs_gt_1 NInf) with true in Hrun. cbn iota in Hrun.
    change (num_add PInf NInf) with NaN in Hrun. by eapply Hrec.
  - destruct (round_inf l j s NInf ltac:(by right) Hs Hcom) as (ob & l2 & Hround).
    rewrite Hround in Hr, Hrun. destruct Hr as (Hc2 & _).
    cbn [negb andb num_neg] in Hrun.
    change (abs_gt_1 PInf) with true in Hrun. cbn iota in Hrun.
    change (num_add NInf PInf) with NaN in Hrun. by eapply Hrec.
  - destruct (relayout_round (Z.of_nat j) NaN l) as [[oa ob] l2|l2|]; simpl in Hr;
      [|done|done].
    destruct Hr as (Hc2 & _ & Hp). apply (round_post_NaN j l l2 s Hs Hpl) in Hp.
    cbn [negb andb] in Hrun.
    destruct (abs_gt_1 oa); [by eapply Hrec|].
    destruct (abs_gt_1 ob).
    { change (num_sub NaN ob) with NaN in Hrun. by eapply Hrec. }
    cbv [bind _applyHeights modify ret] in Hrun. by injection Hrun as <- <-.
Qed.

(** X19: [Handle.setHeight] has no guard against numbers that are not
    finite.  On a well-formed layout, dragging the handle of a section of
    the list to [NaN], [Infinity] or [-Infinity] and finishing the drag
    returns and commits [NaN] as the height of that section: an infinite
    offset is not clamped to a bound, because the second round of
    [_relayout] runs with [Infinity - Infinity]. *)
Theorem drag_to_nonfinite_commits_NaN (l : Layout) (j : nat) (s : section)
    (height : num) :
  well_formed l = true -> _sections l !! j = Some s -> isFinite height = false ->
  exists h l',
    (let! h := openHandle (id s) in
     let! h := setHeight h height in
     finish h) l = Ret h l' /\
    sectionHeight_of l' (id s) = Num NaN.
Proof.
  intros Hwf Hs Hnf.
  pose proof (well_formed_committed l j s Hwf Hs) as Hh.
  apply within_fin, fin_value_true in Hh as [hq Hh].
  apply well_formed_true in Hwf as (Hnd & _ & _ & Hcom & _).
  destruct (relayout_nonfinite l j s (num_sub height (Fin hq)) Hs Hcom)
    as (r & l1 & Hrun & Hnan); [by destruct height|].
  pose proof (frames_relayout (Z.of_nat j) (num_sub height (Fin hq)) false l) as Hfr.
  rewrite Hrun in Hfr. simpl in Hfr. destruct Hfr as (Hs1 & _ & _ & Hst1).
  eexists _, _. split.
  - unfold bind at 1. rewrite openHandle_eq, (getSectionIndex_NoDup l j s Hnd Hs), Hh.
    unfold bind at 1, setHeight. unfold bind at 1. cbn [_anchor _initialHeight toNumber].
    rewrite Hrun. unfold ret at 1. cbv [finish bind _commitHeights modify ret].
    reflexivity.
  - unfold sectionHeight_of, read_height. cbn [_sectionHeights set_sectionHeights].
    rewrite Hs1.
    rewrite (commit_loop_lookup (_heights l1) (_sections l) _ j s Hnd Hs).
    unfold height_at in Hnan. rewrite array_get_nat in Hnan. by rewrite Hnan.
Qed.

Lemma drag_to_nonfinite_commits_NaN_witness :
  exists h l',
    (let! h := openHandle "A" in
     let! h := setHeight h PInf in
     finish h) example_layout = Ret h l' /\
    sectionHeight_of l' "A" = Num NaN.
Proof.
  apply (drag_to_nonfinite_commits_NaN example_layout 0 (mkSection "A" 3) PInf);
    by vm_compute.
Defined.

(* ------------------------------------------------------------------ *)
(** *** Collapsed sections *)

Lemma collapsed_bounds l s :
  collapsed_of l (id s) = true ->
  qof (minHeight_of l s) = 36%Q /\ qof (maxHeight_of l s) = 36%Q.
Proof.
  intros Hc. unfold minHeight_of, maxHeight_of. rewrite Hc, Nat.min_0_r. done.
Qed.

(** X20: collapsed sections are rigid.  After every operation that fits
    a well-formed layout (returning or throwing), every section of the
    list that is collapsed has the committed height [36] and the
    in-progress height [36]: no redistribution and no drag resizes it.  A
    section counts as collapsed as [_collapsedState[id]] reads it, also
    when that is an inherited member of [Object.prototype]. *)
Theorem collapsed_sections_stay_36 (op : operation) (l : Layout) :
  well_formed l = true -> operation_fits op l = true ->
  exists l', state_of (run op l) = Some l' /\
    forall k s, _sections l' !! k = Some s -> collapsed_of l' (id s) = true ->
      (exists q, sectionHeight_of l' (id s) = Num (Fin q) /\ (q == 36)%Q) /\
      (exists q, _heights l' !! k = Some (Num (Fin q)) /\ (q == 36)%Q).
Proof.
  intros Hwf Hok. destruct (run_well_formed op l Hwf Hok) as (l' & Hrun & Hwf').
  exists l'. split; [done|]. intros k s Hs Hc.
  destruct (collapsed_bounds l' s Hc) as [Hmn Hmx].
  pose proof (well_formed_committed l' k s Hwf' Hs) as Hcom.
  apply well_formed_true in Hwf' as (_ & _ & _ & _ & Hh).
  destruct (Forall2_lookup_l _ _ _ _ _ Hh Hs) as (v & Hv & Hw).
  apply within_true in Hcom as (q & Hq & Hb). apply within_true in Hw as (q' & -> & Hb').
  rewrite Hmn, Hmx in Hb, Hb'. split.
  - exists q. split; [done|lra].
  - exists q'. split; [done|lra].
Qed.

Lemma collapsed_sections_stay_36_witness :
  exists l', state_of (run (OpSetAvailableHeight (of_Z 300)) empty_first_collapsed) = Some l' /\
    forall k s, _sections l' !! k = Some s -> collapsed_of l' (id s) = true ->
      (exists q, sectionHeight_of l' (id s) = Num (Fin q) /\ (q == 36)%Q) /\
      (exists q, _heights l' !! k = Some (Num (Fin q)) /\ (q == 36)%Q).
Proof.
  apply (collapsed_sections_stay_36 (OpSetAvailableHeight (of_Z 300)) empty_first_collapsed);
    by vm_compute.
Defined.
